(** * The permanent-configuration registry of firewalld: [FirewallConfig]

    A shallow embedding of [src/firewall/core/fw_config.py].  The class
    keeps, for each of six kinds of objects, a dictionary of custom
    objects and a dictionary of builtin objects.  Its methods mutate those
    dictionaries, call collaborators (readers, writers, validators, the
    file system) and raise exceptions; they are modelled as functions in a
    state-and-exception monad in which a raised exception keeps the
    mutations made before it, as in Python.  Calls to [log] have no effect
    on the registry or on control flow and are left out. *)

From Stdlib Require Import String Ascii List Bool Arith Lia Sorted OrderedTypeEx.
Import ListNotations.
Local Open Scope string_scope.
Local Open Scope list_scope.

(** ** Python dictionaries

    Python dictionaries iterate in insertion order, and the code depends
    on it (the first entry with a given file name, the order validators
    run in), so a dictionary is an association list in insertion order. *)

Section PyDict.
Context {V : Type}.

Definition Dict := list (string * V).

(** [d.get(k)]: the value under [k], if any. *)
Fixpoint dict_get (k : string) (d : Dict) : option V :=
  match d with
  | [] => None
  | (k', v) :: d' => if String.eqb k k' then Some v else dict_get k d'
  end.

(** [k in d] *)
Definition dict_mem (k : string) (d : Dict) : bool :=
  match dict_get k d with Some _ => true | None => false end.

(** [d[k] = v]: an existing key keeps its position, a new key goes last. *)
Fixpoint dict_set (k : string) (v : V) (d : Dict) : Dict :=
  match d with
  | [] => [(k, v)]
  | (k', v') :: d' =>
      if String.eqb k k' then (k, v) :: d' else (k', v') :: dict_set k v d'
  end.

(** [del d[k]], used by the code only where [k in d] holds. *)
Definition dict_del (k : string) (d : Dict) : Dict :=
  filter (fun kv => negb (String.eqb k (fst kv))) d.

Definition dict_keys (d : Dict) : list string := map fst d.
Definition dict_values (d : Dict) : list V := map snd d.

End PyDict.

Arguments Dict : clear implicits.

(** ** [sorted(set(...))] on strings

    Python orders strings by code point; on byte strings that is the
    lexicographic order of [String.compare]. *)

Fixpoint insert_sorted (x : string) (l : list string) : list string :=
  match l with
  | [] => [x]
  | y :: l' =>
      match String.compare x y with
      | Lt => x :: l
      | Eq => l
      | Gt => y :: insert_sorted x l'
      end
  end.

Definition sorted_set (l : list string) : list string :=
  fold_right insert_sorted [] l.

(** The strict order of [String.compare]. *)
Definition str_lt (a b : string) : Prop := String.compare a b = Lt.

(** ** [os.path] and string helpers *)

Definition is_slash (c : ascii) : bool := Ascii.eqb c "/"%char.

Definition str_nonempty (s : string) : bool :=
  match s with EmptyString => false | String _ _ => true end.

(** [(p[:i], p[i:])] with [i = p.rfind('/') + 1]. *)
Fixpoint rsplit_slash (p : string) : string * string :=
  match p with
  | EmptyString => (EmptyString, EmptyString)
  | String c rest =>
      let (h, t) := rsplit_slash rest in
      if str_nonempty h then (String c h, t)
      else if is_slash c then (String c EmptyString, rest)
      else (EmptyString, String c t)
  end.

Fixpoint all_slashes (s : string) : bool :=
  match s with
  | EmptyString => true
  | String c r => is_slash c && all_slashes r
  end.

(** [s.rstrip('/')] *)
Fixpoint rstrip_slash (s : string) : string :=
  match s with
  | EmptyString => EmptyString
  | String c r =>
      let r' := rstrip_slash r in
      if negb (str_nonempty r') && is_slash c then EmptyString else String c r'
  end.

(** [os.path.basename] *)
Definition basename (p : string) : string := snd (rsplit_slash p).

(** [os.path.dirname] *)
Definition dirname (p : string) : string :=
  let head := fst (rsplit_slash p) in
  if str_nonempty head && negb (all_slashes head) then rstrip_slash head else head.

(** [s.startswith(prefix)] *)
Definition startswith (s pre : string) : bool := String.prefix pre s.

(** [s.endswith('/')] *)
Fixpoint endswith_slash (s : string) : bool :=
  match s with
  | EmptyString => false
  | String c EmptyString => is_slash c
  | String _ r => endswith_slash r
  end.

(** [os.path.join(a, b)] *)
Definition os_path_join (a b : string) : string :=
  if startswith b "/" then b
  else if negb (str_nonempty a) || endswith_slash a then a ++ b
  else a ++ "/" ++ b.

(** [s[0:-4]] *)
Definition drop_last4 (s : string) : string :=
  substring 0 (String.length s - 4) s.

(** ** Kinds of objects, errors, objects *)

(** The six classes of [IO_Object] the registry holds: [IPSet], [Helper],
    [IcmpType], [Service], [Zone], [Policy]. *)
Inductive Kind := Ipsets | Helpers | Icmptypes | Services | Zones | Policies.

Definition Kind_eqb (a b : Kind) : bool :=
  match a, b with
  | Ipsets, Ipsets | Helpers, Helpers | Icmptypes, Icmptypes
  | Services, Services | Zones, Zones | Policies, Policies => true
  | _, _ => false
  end.

(** A dictionary with exactly the keys ["ipsets"], ["helpers"],
    ["icmptypes"], ["services"], ["zones"], ["policies"], as
    [get_all_io_objects_dict] builds it; also used for the six custom and
    the six builtin dictionaries of the registry. *)
Record KindMap (A : Type) := mkKindMap {
  ipsets : A; helpers : A; icmptypes : A; services : A; zones : A; policies : A
}.
Arguments mkKindMap {A}.
Arguments ipsets {A}.
Arguments helpers {A}.
Arguments icmptypes {A}.
Arguments services {A}.
Arguments zones {A}.
Arguments policies {A}.

Definition kget {A} (k : Kind) (m : KindMap A) : A :=
  match k with
  | Ipsets => ipsets m | Helpers => helpers m | Icmptypes => icmptypes m
  | Services => services m | Zones => zones m | Policies => policies m
  end.

Definition kset {A} (k : Kind) (a : A) (m : KindMap A) : KindMap A :=
  match k with
  | Ipsets => mkKindMap a (helpers m) (icmptypes m) (services m) (zones m) (policies m)
  | Helpers => mkKindMap (ipsets m) a (icmptypes m) (services m) (zones m) (policies m)
  | Icmptypes => mkKindMap (ipsets m) (helpers m) a (services m) (zones m) (policies m)
  | Services => mkKindMap (ipsets m) (helpers m) (icmptypes m) a (zones m) (policies m)
  | Zones => mkKindMap (ipsets m) (helpers m) (icmptypes m) (services m) a (policies m)
  | Policies => mkKindMap (ipsets m) (helpers m) (icmptypes m) (services m) (zones m) a
  end.

Definition kconst {A} (a : A) : KindMap A := mkKindMap a a a a a a.

(** The codes of [firewall.errors] this module raises. *)
Inductive ErrorCode :=
| INVALID_IPSET | INVALID_ICMPTYPE | INVALID_SERVICE
| INVALID_ZONE | INVALID_POLICY | INVALID_HELPER
| BUILTIN_IPSET | BUILTIN_ICMPTYPE | BUILTIN_SERVICE
| BUILTIN_ZONE | BUILTIN_POLICY | BUILTIN_HELPER
| NAME_CONFLICT | NO_DEFAULTS | INVALID_DIRECTORY
| OTHER_CODE (n : nat).

(** Exceptions: [FirewallError(code, msg)], the [IndexError] of an index
    out of range, the [AttributeError] of a method called on [None], and
    whatever else a collaborator raises. *)
Inductive Exception :=
| FirewallError (code : ErrorCode) (msg : string)
| IndexError
| AttributeError
| OtherException (what : string).

(** The error a lookup miss raises, per kind. *)
Definition INVALID_OBJECT (k : Kind) : ErrorCode :=
  match k with
  | Ipsets => INVALID_IPSET | Helpers => INVALID_HELPER
  | Icmptypes => INVALID_ICMPTYPE | Services => INVALID_SERVICE
  | Zones => INVALID_ZONE | Policies => INVALID_POLICY
  end.

(** The error [check_builtin_*] raises, per kind. *)
Definition BUILTIN_OBJECT (k : Kind) : ErrorCode :=
  match k with
  | Ipsets => BUILTIN_IPSET | Helpers => BUILTIN_HELPER
  | Icmptypes => BUILTIN_ICMPTYPE | Services => BUILTIN_SERVICE
  | Zones => BUILTIN_ZONE | Policies => BUILTIN_POLICY
  end.

(** An [IO_Object]: its class, the five attributes the registry reads and
    writes, and the attributes of its class, which the registry never
    looks at. *)
Record IO_Object (Payload : Type) := mkIO {
  kind : Kind;
  name : string;
  filename : string;
  path : string;
  builtin : bool;
  default : bool;
  attrs : Payload
}.
Arguments mkIO {Payload}.
Arguments kind {Payload}.
Arguments name {Payload}.
Arguments filename {Payload}.
Arguments path {Payload}.
Arguments builtin {Payload}.
Arguments default {Payload}.
Arguments attrs {Payload}.

Definition set_name {P} (n : string) (o : IO_Object P) : IO_Object P :=
  mkIO (kind o) n (filename o) (path o) (builtin o) (default o) (attrs o).
Definition set_path {P} (p : string) (o : IO_Object P) : IO_Object P :=
  mkIO (kind o) (name o) (filename o) p (builtin o) (default o) (attrs o).
Definition set_builtin {P} (b : bool) (o : IO_Object P) : IO_Object P :=
  mkIO (kind o) (name o) (filename o) (path o) b (default o) (attrs o).
Definition set_default {P} (b : bool) (o : IO_Object P) : IO_Object P :=
  mkIO (kind o) (name o) (filename o) (path o) (builtin o) b (attrs o).
Definition set_attrs {P} (a : P) (o : IO_Object P) : IO_Object P :=
  mkIO (kind o) (name o) (filename o) (path o) (builtin o) (default o) a.

(** ** Collaborators

    What the module imports and does not define: the constants of
    [firewall.config], the classes of [firewall.core.io] with their
    readers and writers, the [firewalld.conf] object, and the file system
    calls of [os] and [shutil].  A collaborator that can raise returns the
    exception; one that changes the file system takes and returns the
    [World].  [import_config] and [import_config_dict] assign the
    attributes of the object's class and nothing else, so they return the
    new [attrs]. *)
Class Env := {
  Value : Type;
  Payload : Type;
  World : Type;
  FirewalldConf : Type;
  (** [config.ETC_FIREWALLD_IPSETS], [config.ETC_FIREWALLD_HELPERS], ... *)
  ETC_FIREWALLD : Kind -> string;
  (** the names [cls.IMPORT_EXPORT_STRUCTURE[i][0]] *)
  IMPORT_EXPORT_STRUCTURE : Kind -> list string;
  (** the class attributes of a fresh [IPSet()], [Helper()], ... *)
  new_attrs : Kind -> Payload;
  check_name : Kind -> string -> option Exception;
  export_config : IO_Object Payload -> list Value;
  export_config_dict : IO_Object Payload -> Dict Value;
  import_config : IO_Object Payload -> list Value ->
                  KindMap (Dict (IO_Object Payload)) -> Exception + Payload;
  import_config_dict : IO_Object Payload -> Dict Value ->
                       KindMap (Dict (IO_Object Payload)) -> Exception + Payload;
  check_config_dict : IO_Object Payload -> Dict Value ->
                      KindMap (Dict (IO_Object Payload)) -> option Exception;
  (** [a != b] on objects *)
  obj_ne : IO_Object Payload -> IO_Object Payload -> bool;
  os_path_exists : string -> World -> bool;
  (** [ipset_reader(filename, path)], ... *)
  reader : Kind -> string -> string -> World -> Exception + IO_Object Payload;
  (** [ipset_writer(x)], ... *)
  writer : Kind -> IO_Object Payload -> World -> option Exception * World;
  shutil_move : string -> string -> World -> option Exception * World;
  os_remove : string -> World -> option Exception * World;
  conf_set_defaults : FirewalldConf -> option Exception * FirewalldConf;
  conf_write : FirewalldConf -> World -> option Exception * World
}.

Section FirewallConfig.
Context {E : Env}.

Abbreviation Obj := (IO_Object Payload).
Abbreviation AllObjs := (KindMap (Dict (IO_Object Payload))).

(** A configuration handed to [set_*_config] or [new_*]: the tuple of the
    old API or the dictionary of the new one. *)
Inductive Conf :=
| ConfTuple (t : list Value)
| ConfDict (d : Dict Value).

(** ** The registry and the state of the program *)

Record FirewallConfig := mkFirewallConfig {
  custom_objects : KindMap (Dict Obj);
  builtin_objects : KindMap (Dict Obj);
  _firewalld_conf : option FirewalldConf
}.

Definition _ipsets c := ipsets (custom_objects c).
Definition _icmptypes c := icmptypes (custom_objects c).
Definition _services c := services (custom_objects c).
Definition _zones c := zones (custom_objects c).
Definition _helpers c := helpers (custom_objects c).
Definition _policy_objects c := policies (custom_objects c).
Definition _builtin_ipsets c := ipsets (builtin_objects c).
Definition _builtin_icmptypes c := icmptypes (builtin_objects c).
Definition _builtin_services c := services (builtin_objects c).
Definition _builtin_zones c := zones (builtin_objects c).
Definition _builtin_helpers c := helpers (builtin_objects c).
Definition _builtin_policy_objects c := policies (builtin_objects c).

(** [__init_vars] *)
Definition init_vars : FirewallConfig :=
  mkFirewallConfig (kconst []) (kconst []) None.

Definition custom (k : Kind) (c : FirewallConfig) : Dict Obj := kget k (custom_objects c).
Definition builtins (k : Kind) (c : FirewallConfig) : Dict Obj := kget k (builtin_objects c).

Definition set_custom (k : Kind) (d : Dict Obj) (c : FirewallConfig) : FirewallConfig :=
  mkFirewallConfig (kset k d (custom_objects c)) (builtin_objects c) (_firewalld_conf c).
Definition set_builtins (k : Kind) (d : Dict Obj) (c : FirewallConfig) : FirewallConfig :=
  mkFirewallConfig (custom_objects c) (kset k d (builtin_objects c)) (_firewalld_conf c).

Record State := mkState { self : FirewallConfig; world : World }.

(** ** The monad: state, and exceptions that keep the state *)

Inductive Outcome (A : Type) :=
| Return (a : A) (s : State)
| Raise (e : Exception) (s : State).
Arguments Return {A}.
Arguments Raise {A}.

Definition M (A : Type) : Type := State -> Outcome A.

Definition ret {A} (a : A) : M A := fun s => Return a s.
Definition raise {A} (e : Exception) : M A := fun s => Raise e s.
Definition bind {A B} (m : M A) (f : A -> M B) : M B :=
  fun s => match m s with
           | Return a s' => f a s'
           | Raise e s' => Raise e s'
           end.

(** [try: body / except Exception as e: handler(e)] *)
Definition try_except {A} (body : M A) (handler : Exception -> M A) : M A :=
  fun s => match body s with
           | Return a s' => Return a s'
           | Raise e s' => handler e s'
           end.

Notation "x <- c1 ;; c2" := (bind c1 (fun x => c2))
  (at level 61, c1 at next level, right associativity).
Notation "c1 ;; c2" := (bind c1 (fun _ => c2))
  (at level 61, right associativity).

(** [for x in l: body(x)] *)
Fixpoint for_each {A} (l : list A) (body : A -> M unit) : M unit :=
  match l with
  | [] => ret tt
  | x :: l' => body x ;; for_each l' body
  end.

Definition get_self : M FirewallConfig := fun s => Return (self s) s.
Definition modify_self (f : FirewallConfig -> FirewallConfig) : M unit :=
  fun s => Return tt (mkState (f (self s)) (world s)).
Definition get_world : M World := fun s => Return (world s) s.

(** A collaborator that returns a value or raises. *)
Definition lift_result {A} (r : Exception + A) : M A :=
  match r with inl e => raise e | inr a => ret a end.
(** A collaborator that checks and may raise. *)
Definition lift_check (r : option Exception) : M unit :=
  match r with Some e => raise e | None => ret tt end.
(** A collaborator that acts on the file system and may raise. *)
Definition lift_world (f : World -> option Exception * World) : M unit :=
  fun s => let (r, w) := f (world s) in
           match r with
           | None => Return tt (mkState (self s) w)
           | Some e => Raise e (mkState (self s) w)
           end.


(** ** Listing, registering, looking up *)

(** [get_ipsets], [get_icmptypes], [get_services], [get_zones],
    [get_policy_objects], [get_helpers] *)
Definition get_objects (k : Kind) (c : FirewallConfig) : list string :=
  sorted_set (dict_keys (custom k c) ++ dict_keys (builtins k c)).

Definition get_ipsets := get_objects Ipsets.
Definition get_icmptypes := get_objects Icmptypes.
Definition get_services := get_objects Services.
Definition get_zones := get_objects Zones.
Definition get_policy_objects := get_objects Policies.
Definition get_helpers := get_objects Helpers.

(** [add_ipset], [add_icmptype], [add_service], [add_zone],
    [add_policy_object], [add_helper] *)
Definition add_object (k : Kind) (obj : Obj) : M unit :=
  modify_self (fun c =>
    if builtin obj
    then set_builtins k (dict_set (name obj) obj (builtins k c)) c
    else set_custom k (dict_set (name obj) obj (custom k c)) c).

Definition add_ipset := add_object Ipsets.
Definition add_icmptype := add_object Icmptypes.
Definition add_service := add_object Services.
Definition add_zone := add_object Zones.
Definition add_policy_object := add_object Policies.
Definition add_helper := add_object Helpers.

(** [forget_zone] *)
Definition forget_zone (n : string) : M unit :=
  modify_self (fun c =>
    if dict_mem n (builtins Zones c)
    then set_builtins Zones (dict_del n (builtins Zones c)) c else c) ;;
  modify_self (fun c =>
    if dict_mem n (custom Zones c)
    then set_custom Zones (dict_del n (custom Zones c)) c else c).

(** The message of the error a lookup miss raises. *)
Definition not_found_msg (k : Kind) (n : string) : string :=
  match k with
  | Ipsets | Icmptypes | Helpers => n
  | Services => "get_service(): '" ++ n ++ "'"
  | Zones => "get_zone(): " ++ n
  | Policies => "get_policy_object(): " ++ n
  end.

(** [get_ipset], [get_icmptype], [get_service], [get_zone],
    [get_policy_object], [get_helper] *)
Definition get_object (k : Kind) (n : string) : M Obj :=
  c <- get_self ;;
  match dict_get n (custom k c) with
  | Some o => ret o
  | None =>
      match dict_get n (builtins k c) with
      | Some o => ret o
      | None => raise (FirewallError (INVALID_OBJECT k) (not_found_msg k n))
      end
  end.

Definition get_ipset := get_object Ipsets.
Definition get_icmptype := get_object Icmptypes.
Definition get_service := get_object Services.
Definition get_zone := get_object Zones.
Definition get_policy_object := get_object Policies.
Definition get_helper := get_object Helpers.

(** [{n: f(n) for n in names}] *)
Fixpoint dict_comprehension (names : list string) (f : string -> M Obj)
    (acc : Dict Obj) : M (Dict Obj) :=
  match names with
  | [] => ret acc
  | n :: names' => o <- f n ;; dict_comprehension names' f (dict_set n o acc)
  end.

Definition get_all_io_objects_dict : M AllObjs :=
  c <- get_self ;;
  d_ipsets <- dict_comprehension (get_ipsets c) get_ipset [] ;;
  d_helpers <- dict_comprehension (get_helpers c) get_helper [] ;;
  d_icmptypes <- dict_comprehension (get_icmptypes c) get_icmptype [] ;;
  d_services <- dict_comprehension (get_services c) get_service [] ;;
  d_zones <- dict_comprehension (get_zones c) get_zone [] ;;
  d_policies <- dict_comprehension (get_policy_objects c) get_policy_object [] ;;
  ret (mkKindMap d_ipsets d_helpers d_icmptypes d_services d_zones d_policies).

(** ** [full_check_config] *)

(** [all_io_objects[type_key][obj.name] = obj] for every extra object *)
Definition mix_in (extra_io_objects : list (Kind * list Obj)) (all_io_objects : AllObjs) : AllObjs :=
  fold_left (fun all entry =>
    fold_left (fun all obj =>
      kset (fst entry) (dict_set (name obj) obj (kget (fst entry) all)) all)
      (snd entry) all)
    extra_io_objects all_io_objects.

(** The local [order] of [full_check_config]. *)
Definition full_check_order : list Kind :=
  [Ipsets; Helpers; Icmptypes; Services; Zones; Policies].

Definition full_check_config (extra_io_objects : list (Kind * list Obj)) : M unit :=
  registered <- get_all_io_objects_dict ;;
  let all_io_objects := mix_in extra_io_objects registered in
  for_each full_check_order (fun io_obj_type =>
    let io_objs := kget io_obj_type all_io_objects in
    for_each io_objs (fun item =>
      let io_obj := snd item in
      lift_check (check_config_dict io_obj (export_config_dict io_obj) all_io_objects))).

(** ** Editing and creating *)

(** [x.import_config(conf, all)] or [x.import_config_dict(conf, all)],
    then [x] with the imported attributes. *)
Definition import_result (x : Obj) (conf : Conf) (all : AllObjs) : Exception + Payload :=
  match conf with
  | ConfTuple t => import_config x t all
  | ConfDict d => import_config_dict x d all
  end.

Definition import_conf (x : Obj) (conf : Conf) (all : AllObjs) : M Obj :=
  a <- lift_result (import_result x conf all) ;;
  ret (set_attrs a x).

(** [for i, value in enumerate(conf): conf_dict[STRUCTURE[i][0]] = value] *)
Fixpoint enumerate_into (structure : list string) (conf : list Value)
    (conf_dict : Dict Value) : Exception + Dict Value :=
  match conf with
  | [] => inr conf_dict
  | value :: conf' =>
      match structure with
      | [] => inl IndexError
      | key :: structure' => enumerate_into structure' conf' (dict_set key value conf_dict)
      end
  end.

(** The lines that end every [set_*_config] and [new_*]:
    [x.import_config(conf, self.get_all_io_objects_dict())],
    [self.full_check_config({kind: [x]})], [self.add_*(x)], [*_writer(x)],
    [return x]. *)
Definition commit (k : Kind) (x : Obj) (conf : Conf) : M Obj :=
  all <- get_all_io_objects_dict ;;
  x <- import_conf x conf all ;;
  full_check_config [(k, [x])] ;;
  add_object k x ;;
  lift_world (writer k x) ;;
  ret x.

(** [x = copy.copy(obj)], and when [obj.builtin]: [x.path] is the custom
    directory of the kind, [x.builtin = False], and [x.default = False] if
    [obj.path != x.path]. *)
Definition edited_copy (k : Kind) (obj : Obj) : Obj :=
  let x := obj in
  if builtin obj
  then let x := set_builtin false (set_path (ETC_FIREWALLD k) x) in
       if negb (String.eqb (path obj) (path x)) then set_default false x else x
  else x.

(** The body shared by [set_ipset_config], [set_icmptype_config],
    [set_helper_config], [set_service_config_dict], [set_zone_config_dict]
    and [set_policy_object_config_dict]. *)
Definition set_object_config (k : Kind) (obj : Obj) (conf : Conf) : M Obj :=
  let x := edited_copy k obj in
  commit k x conf.

Definition set_ipset_config obj conf := set_object_config Ipsets obj (ConfTuple conf).
Definition set_icmptype_config obj conf := set_object_config Icmptypes obj (ConfTuple conf).
Definition set_helper_config obj conf := set_object_config Helpers obj (ConfTuple conf).
Definition set_service_config_dict obj conf := set_object_config Services obj (ConfDict conf).
Definition set_zone_config_dict obj conf := set_object_config Zones obj (ConfDict conf).
Definition set_policy_object_config_dict obj conf := set_object_config Policies obj (ConfDict conf).

Definition set_service_config (obj : Obj) (conf : list Value) : M Obj :=
  conf_dict <- lift_result (enumerate_into (IMPORT_EXPORT_STRUCTURE (kind obj)) conf []) ;;
  set_service_config_dict obj conf_dict.

Definition set_zone_config (obj : Obj) (conf : list Value) : M Obj :=
  conf_dict <- lift_result (enumerate_into (IMPORT_EXPORT_STRUCTURE (kind obj)) conf []) ;;
  set_zone_config_dict obj conf_dict.

(** The message of the [NAME_CONFLICT] error. *)
Definition name_conflict_msg (k : Kind) (n : string) : string :=
  match k with
  | Ipsets => "new_ipset(): '" ++ n ++ "'"
  | Icmptypes => "new_icmptype(): '" ++ n ++ "'"
  | Services => "new_service(): '" ++ n ++ "'"
  | Zones => "new_zone(): '" ++ n ++ "'"
  | Policies => "new_policy_object(): '" ++ n ++ "'"
  | Helpers => "new_helper(): '" ++ n ++ "'"
  end.

(** [if name in custom or name in builtin: raise NAME_CONFLICT] *)
Definition check_name_conflict (k : Kind) (n : string) : M unit :=
  c <- get_self ;;
  if dict_mem n (custom k c) || dict_mem n (builtins k c)
  then raise (FirewallError NAME_CONFLICT (name_conflict_msg k n))
  else ret tt.

(** [x = IPSet()] (or the class of the kind), then [x.name = name],
    [x.filename = "%s.xml" % name], [x.path] the custom directory of the
    kind, [x.builtin = False], [x.default = True]. *)
Definition fresh_object (k : Kind) (n : string) : Obj :=
  mkIO k n (n ++ ".xml") (ETC_FIREWALLD k) false true (new_attrs k).

(** The first exception in a list of results of checks. *)
Fixpoint first_failure (l : list (option Exception)) : option Exception :=
  match l with
  | [] => None
  | Some e :: _ => Some e
  | None :: l' => first_failure l'
  end.

(** The candidates handed to [full_check_config] for kind [k], in the
    order they are mixed in. *)
Definition candidates (k : Kind) (extra_io_objects : list (Kind * list Obj)) : list Obj :=
  flat_map (fun entry => if Kind_eqb (fst entry) k then snd entry else []) extra_io_objects.

(** The last object of a list that bears the name [n]. *)
Definition last_named (n : string) (l : list Obj) : option Obj :=
  find (fun o => String.eqb (name o) n) (rev l).

(** The body shared by [new_ipset], [new_icmptype], [new_helper],
    [new_service_dict], [new_zone_dict] and [new_policy_object_dict]. *)
Definition new_object (k : Kind) (n : string) (conf : Conf) : M Obj :=
  check_name_conflict k n ;;
  lift_check (check_name k n) ;;
  let x := fresh_object k n in
  commit k x conf.

Definition new_ipset n conf := new_object Ipsets n (ConfTuple conf).
Definition new_icmptype n conf := new_object Icmptypes n (ConfTuple conf).
Definition new_helper n conf := new_object Helpers n (ConfTuple conf).
Definition new_service_dict n conf := new_object Services n (ConfDict conf).
Definition new_zone_dict n conf := new_object Zones n (ConfDict conf).
Definition new_policy_object_dict n conf := new_object Policies n (ConfDict conf).

Definition new_service (n : string) (conf : list Value) : M Obj :=
  check_name_conflict Services n ;;
  conf_dict <- lift_result (enumerate_into (IMPORT_EXPORT_STRUCTURE Services) conf []) ;;
  new_service_dict n conf_dict.

Definition new_zone (n : string) (conf : list Value) : M Obj :=
  check_name_conflict Zones n ;;
  conf_dict <- lift_result (enumerate_into (IMPORT_EXPORT_STRUCTURE Zones) conf []) ;;
  new_zone_dict n conf_dict.

(** ** Reacting to a changed file *)

(** Zones and policies accept files in subdirectories of their custom
    directory; the other kinds compare the directory for equality. *)
Definition hierarchical (k : Kind) : bool :=
  match k with
  | Zones | Policies => true
  | Ipsets | Helpers | Icmptypes | Services => false
  end.

(** [path == config.ETC_FIREWALLD_IPSETS], or for zones and policies
    [path.startswith(config.ETC_FIREWALLD_ZONES)] *)
Definition is_custom_path (k : Kind) (pth : string) : bool :=
  if hierarchical k then startswith pth (ETC_FIREWALLD k)
  else String.eqb pth (ETC_FIREWALLD k).

(** [for x in d.keys(): obj = d[x]; if obj.filename == filename: ...]:
    the first key, in the order of the dictionary, whose object has the
    file name. *)
Fixpoint find_by_filename (d : Dict Obj) (keys : list string) (fname : string)
    : option (string * Obj) :=
  match keys with
  | [] => None
  | x :: keys' =>
      match dict_get x d with
      | Some obj =>
          if String.eqb (filename obj) fname then Some (x, obj)
          else find_by_filename d keys' fname
      | None => find_by_filename d keys' fname
      end
  end.

(** The name of a zone or policy read from a subdirectory of the custom
    directory ("custom combined zone part"). *)
Definition combined_name (k : Kind) (pth fname : string) (obj : Obj) : Obj :=
  if hierarchical k && startswith pth (ETC_FIREWALLD k)
     && Nat.ltb (String.length (ETC_FIREWALLD k)) (String.length pth)
  then set_name (basename pth ++ "/" ++ drop_last4 (basename fname)) obj
  else obj.

(** [update_ipset_from_path], [update_icmptype_from_path],
    [update_service_from_path], [update_zone_from_path],
    [update_policy_object_from_path], [update_helper_from_path].
    The result is the pair of the source: [("update", obj)],
    [("remove", obj)], [("new", obj)] or [(None, None)]. *)
Definition update_object_from_path (k : Kind) (nm : string)
    : M (option string * option Obj) :=
  let fname := basename nm in
  let pth := dirname nm in
  w <- get_world ;;
  if negb (os_path_exists nm w) then
    c <- get_self ;;
    if is_custom_path k pth then
      match find_by_filename (custom k c) (dict_keys (custom k c)) fname with
      | Some (x, obj) =>
          modify_self (fun c => set_custom k (dict_del x (custom k c)) c) ;;
          c <- get_self ;;
          match dict_get (name obj) (builtins k c) with
          | Some b => ret (Some "update", Some b)
          | None => ret (Some "remove", Some obj)
          end
      | None => ret (None, None)
      end
    else
      match find_by_filename (builtins k c) (dict_keys (builtins k c)) fname with
      | Some (x, obj) =>
          modify_self (fun c => set_builtins k (dict_del x (builtins k c)) c) ;;
          c <- get_self ;;
          if negb (dict_mem (name obj) (custom k c))
          then ret (Some "remove", Some obj)
          else ret (None, None)
      | None => ret (None, None)
      end
  else
    match reader k fname pth w with
    | inl _ => ret (None, None)
    | inr obj =>
        let obj := combined_name k pth fname obj in
        c <- get_self ;;
        if negb (dict_mem (name obj) (builtins k c)) && negb (dict_mem (name obj) (custom k c))
        then add_object k obj ;; ret (Some "new", Some obj)
        else if is_custom_path k pth then
          match dict_get (name obj) (custom k c) with
          | Some prior =>
              let obj := set_default (default prior) obj in
              modify_self (fun c => set_custom k (dict_set (name obj) obj (custom k c)) c) ;;
              ret (Some "update", Some obj)
          | None => ret (Some "update", Some obj)
          end
        else if dict_mem (name obj) (builtins k c) then
          modify_self (fun c =>
            set_builtins k (dict_set (name obj) obj (dict_del (name obj) (builtins k c))) c) ;;
          c <- get_self ;;
          if negb (dict_mem (name obj) (custom k c))
          then ret (Some "update", Some obj)
          else ret (None, None)
        else ret (None, None)
    end.

Definition update_ipset_from_path := update_object_from_path Ipsets.
Definition update_icmptype_from_path := update_object_from_path Icmptypes.
Definition update_service_from_path := update_object_from_path Services.
Definition update_zone_from_path := update_object_from_path Zones.
Definition update_policy_object_from_path := update_object_from_path Policies.
Definition update_helper_from_path := update_object_from_path Helpers.

(** ** Removing and renaming *)

(** [try: shutil.move(name, "%s.old" % name) / except: os.remove(name)] *)
Definition backup_file (nm : string) : M unit :=
  try_except (lift_world (shutil_move nm (nm ++ ".old")))
             (fun _ => lift_world (os_remove nm)).

(** The message of the [INVALID_DIRECTORY] error. *)
Definition invalid_directory_msg (k : Kind) (pth : string) : string :=
  if hierarchical k
  then "'" ++ pth ++ "' doesn't start with '" ++ ETC_FIREWALLD k ++ "'"
  else "'" ++ pth ++ "' != '" ++ ETC_FIREWALLD k ++ "'".

(** [_remove_ipset], [_remove_icmptype], [_remove_service], [_remove_zone],
    [_remove_policy_object], [_remove_helper] *)
Definition _remove_object (k : Kind) (obj : Obj) : M unit :=
  c <- get_self ;;
  if negb (dict_mem (name obj) (custom k c))
  then raise (FirewallError (INVALID_OBJECT k) (name obj))
  else if negb (is_custom_path k (path obj))
  then raise (FirewallError INVALID_DIRECTORY (invalid_directory_msg k (path obj)))
  else
    backup_file (path obj ++ "/" ++ name obj ++ ".xml") ;;
    modify_self (fun c => set_custom k (dict_del (name obj) (custom k c)) c).

Definition _remove_ipset := _remove_object Ipsets.
Definition _remove_icmptype := _remove_object Icmptypes.
Definition _remove_service := _remove_object Services.
Definition _remove_zone := _remove_object Zones.
Definition _remove_policy_object := _remove_object Policies.
Definition _remove_helper := _remove_object Helpers.

(** The message of the error [check_builtin_*] raises. *)
Definition builtin_msg (k : Kind) (n : string) : string :=
  "'" ++ n ++ "' is built-in " ++
  match k with
  | Ipsets => "ipset" | Icmptypes => "icmp type" | Services => "service"
  | Zones => "zone" | Policies => "policy" | Helpers => "helper"
  end.

(** [check_builtin_ipset], [check_builtin_icmptype], [check_builtin_service],
    [check_builtin_zone], [check_builtin_policy_object], [check_builtin_helper] *)
Definition check_builtin_object (k : Kind) (obj : Obj) : M unit :=
  if builtin obj || negb (default obj)
  then raise (FirewallError (BUILTIN_OBJECT k) (builtin_msg k (name obj)))
  else ret tt.

Definition check_builtin_ipset := check_builtin_object Ipsets.
Definition check_builtin_icmptype := check_builtin_object Icmptypes.
Definition check_builtin_service := check_builtin_object Services.
Definition check_builtin_zone := check_builtin_object Zones.
Definition check_builtin_policy_object := check_builtin_object Policies.
Definition check_builtin_helper := check_builtin_object Helpers.

(** [remove_ipset], [remove_icmptype], [remove_service], [remove_zone],
    [remove_policy_object], [remove_helper] *)
Definition remove_object (k : Kind) (obj : Obj) : M unit :=
  check_builtin_object k obj ;;
  _remove_object k obj.

Definition remove_ipset := remove_object Ipsets.
Definition remove_icmptype := remove_object Icmptypes.
Definition remove_service := remove_object Services.
Definition remove_zone := remove_object Zones.
Definition remove_policy_object := remove_object Policies.
Definition remove_helper := remove_object Helpers.

Definition _copy_ipset (obj : Obj) n := new_ipset n (export_config obj).
Definition _copy_icmptype (obj : Obj) n := new_icmptype n (export_config obj).
Definition _copy_service (obj : Obj) n := new_service_dict n (export_config_dict obj).
Definition _copy_policy_object (obj : Obj) n := new_policy_object_dict n (export_config_dict obj).
Definition _copy_helper (obj : Obj) n := new_helper n (export_config obj).

(** The body shared by [rename_ipset], [rename_icmptype], [rename_service],
    [rename_policy_object] and [rename_helper]. *)
Definition rename_by_copy (k : Kind) (copy : Obj -> string -> M Obj)
    (obj : Obj) (n : string) : M Obj :=
  check_builtin_object k obj ;;
  new_obj <- copy obj n ;;
  _remove_object k obj ;;
  ret new_obj.

Definition rename_ipset := rename_by_copy Ipsets _copy_ipset.
Definition rename_icmptype := rename_by_copy Icmptypes _copy_icmptype.
Definition rename_service := rename_by_copy Services _copy_service.
Definition rename_policy_object := rename_by_copy Policies _copy_policy_object.
Definition rename_helper := rename_by_copy Helpers _copy_helper.

Definition rename_zone (obj : Obj) (n : string) : M Obj :=
  check_builtin_object Zones obj ;;
  let obj_conf := export_config_dict obj in
  _remove_object Zones obj ;;
  try_except (new_zone_dict n obj_conf)
             (fun e => new_zone_dict (name obj) obj_conf ;; raise e).

Definition rename_object (k : Kind) : Obj -> string -> M Obj :=
  match k with
  | Ipsets => rename_ipset
  | Icmptypes => rename_icmptype
  | Services => rename_service
  | Zones => rename_zone
  | Policies => rename_policy_object
  | Helpers => rename_helper
  end.

(** ** Resetting to the defaults, and restoring *)

(** [set_firewalld_conf] *)
Definition set_firewalld_conf (conf : FirewalldConf) : M unit :=
  modify_self (fun c => mkFirewallConfig (custom_objects c) (builtin_objects c) (Some conf)).

(** [self._firewalld_conf.set_defaults()] *)
Definition firewalld_conf_set_defaults : M unit :=
  c <- get_self ;;
  match _firewalld_conf c with
  | None => raise AttributeError
  | Some conf =>
      set_firewalld_conf (snd (conf_set_defaults conf)) ;;
      lift_check (fst (conf_set_defaults conf))
  end.

(** [self._firewalld_conf.write()] *)
Definition firewalld_conf_write : M unit :=
  c <- get_self ;;
  match _firewalld_conf c with
  | None => raise AttributeError
  | Some conf => lift_world (conf_write conf)
  end.

(** The local [order] of [_reset_defaults]. *)
Definition reset_defaults_order : list Kind :=
  [Zones; Policies; Ipsets; Services; Helpers; Icmptypes].

Definition _reset_defaults : M unit :=
  for_each reset_defaults_order (fun k =>
    c <- get_self ;;
    let dict_copy := custom k c in
    for_each (dict_keys dict_copy) (fun obj_name =>
      match dict_get obj_name dict_copy with
      | Some obj =>
          backup_file (os_path_join (path obj) (filename obj)) ;;
          modify_self (fun c => set_custom k (dict_del obj_name (custom k c)) c)
      | None => ret tt
      end)) ;;
  firewalld_conf_set_defaults ;;
  firewalld_conf_write.

(** [x is None] *)
Definition is_None {A} (x : option A) : bool :=
  match x with None => true | Some _ => false end.

(** One round of a loop of [restore_settings_dict]:
    [if current_obj is not None and current_obj != o: update(current_obj)]
    [elif create_test: create()]. *)
Definition restore_step (o : Obj) (current_obj : option Obj)
    (update : Obj -> M Obj) (create_test : bool) (create : M Obj) : M unit :=
  match current_obj with
  | Some cur =>
      if obj_ne cur o then update cur ;; ret tt
      else if create_test then create ;; ret tt
      else ret tt
  | None =>
      if create_test then create ;; ret tt
      else ret tt
  end.

(** The six loops of [restore_settings_dict], in the order of the source.
    The loops over services, ipsets and policies test [service is None],
    [ipset is None] and [policy_object is None], the object of the
    snapshot, where the other three test [current_obj is None]. *)
Definition restore_icmptypes (settings_dict current_config : AllObjs) : M unit :=
  for_each (dict_values (icmptypes settings_dict)) (fun icmptype =>
    let current_obj := dict_get (name icmptype) (icmptypes current_config) in
    restore_step icmptype current_obj
      (fun current_obj => set_icmptype_config current_obj (export_config icmptype))
      (is_None current_obj)
      (new_icmptype (name icmptype) (export_config icmptype))).

Definition restore_helpers (settings_dict current_config : AllObjs) : M unit :=
  for_each (dict_values (helpers settings_dict)) (fun helper =>
    let current_obj := dict_get (name helper) (helpers current_config) in
    restore_step helper current_obj
      (fun current_obj => set_helper_config current_obj (export_config helper))
      (is_None current_obj)
      (new_helper (name helper) (export_config helper))).

Definition restore_services (settings_dict current_config : AllObjs) : M unit :=
  for_each (dict_values (services settings_dict)) (fun service =>
    let current_obj := dict_get (name service) (services current_config) in
    restore_step service current_obj
      (fun current_obj => set_service_config current_obj (export_config service))
      (is_None (Some service))
      (new_service (name service) (export_config service))).

Definition restore_ipsets (settings_dict current_config : AllObjs) : M unit :=
  for_each (dict_values (ipsets settings_dict)) (fun ipset =>
    let current_obj := dict_get (name ipset) (ipsets current_config) in
    restore_step ipset current_obj
      (fun current_obj => set_ipset_config current_obj (export_config ipset))
      (is_None (Some ipset))
      (new_ipset (name ipset) (export_config ipset))).

Definition restore_policies (settings_dict current_config : AllObjs) : M unit :=
  for_each (dict_values (policies settings_dict)) (fun policy_object =>
    let current_obj := dict_get (name policy_object) (policies current_config) in
    restore_step policy_object current_obj
      (fun current_obj =>
         set_policy_object_config_dict current_obj (export_config_dict policy_object))
      (is_None (Some policy_object))
      (new_policy_object_dict (name policy_object) (export_config_dict policy_object))).

Definition restore_zones (settings_dict current_config : AllObjs) : M unit :=
  for_each (dict_values (zones settings_dict)) (fun zone =>
    let current_obj := dict_get (name zone) (zones current_config) in
    restore_step zone current_obj
      (fun current_obj => set_zone_config current_obj (export_config zone))
      (is_None current_obj)
      (new_zone (name zone) (export_config zone))).

(** [restore_settings_dict]; [copy.deepcopy] of the current objects is
    the objects themselves, values having no identity here. *)
Definition restore_settings_dict (settings_dict : option AllObjs)
    (firewalld_conf : option FirewalldConf) : M unit :=
  match settings_dict with
  | Some settings_dict =>
      current_config <- get_all_io_objects_dict ;;
      restore_icmptypes settings_dict current_config ;;
      restore_helpers settings_dict current_config ;;
      restore_services settings_dict current_config ;;
      restore_ipsets settings_dict current_config ;;
      restore_policies settings_dict current_config ;;
      restore_zones settings_dict current_config
  | None => ret tt
  end ;;
  match firewalld_conf with
  | Some conf => set_firewalld_conf conf ;; firewalld_conf_write
  | None => ret tt
  end.

(** [reset_defaults]; [copy.copy] of the [firewalld.conf] object is its
    value. *)
Definition reset_defaults : M unit :=
  backup_config_dict <- get_all_io_objects_dict ;;
  c <- get_self ;;
  let backup_firewall_conf := _firewalld_conf c in
  try_except _reset_defaults (fun e =>
    restore_settings_dict (Some backup_config_dict) backup_firewall_conf ;;
    raise e).

(** ** The replay of [restore_settings_dict], kind by kind *)

(** The loop of [restore_settings_dict] that handles kind [k]. *)
Definition restore_kind (k : Kind) : AllObjs -> AllObjs -> M unit :=
  match k with
  | Icmptypes => restore_icmptypes
  | Helpers => restore_helpers
  | Services => restore_services
  | Ipsets => restore_ipsets
  | Policies => restore_policies
  | Zones => restore_zones
  end.

(** The entry point that [restore_settings_dict] uses to update the
    registered object [current_obj] of kind [k] from the snapshot's [o]. *)
Definition update_entry_point (k : Kind) (current_obj o : Obj) : M Obj :=
  match k with
  | Icmptypes => set_icmptype_config current_obj (export_config o)
  | Helpers => set_helper_config current_obj (export_config o)
  | Services => set_service_config current_obj (export_config o)
  | Ipsets => set_ipset_config current_obj (export_config o)
  | Policies => set_policy_object_config_dict current_obj (export_config_dict o)
  | Zones => set_zone_config current_obj (export_config o)
  end.

(** The entry point that creates the snapshot's [o] of kind [k] anew. *)
Definition create_entry_point (k : Kind) (o : Obj) : M Obj :=
  match k with
  | Icmptypes => new_icmptype (name o) (export_config o)
  | Helpers => new_helper (name o) (export_config o)
  | Services => new_service (name o) (export_config o)
  | Ipsets => new_ipset (name o) (export_config o)
  | Policies => new_policy_object_dict (name o) (export_config_dict o)
  | Zones => new_zone (name o) (export_config o)
  end.

(** A replay that handles the kinds in the order [order]: the current
    objects are read once, then each kind's loop runs, then the
    [firewalld.conf] object is put back and written. *)
Definition replay_in_order (order : list Kind) (settings_dict : AllObjs)
    (firewalld_conf : option FirewalldConf) : M unit :=
  current_config <- get_all_io_objects_dict ;;
  for_each order (fun k => restore_kind k settings_dict current_config) ;;
  match firewalld_conf with
  | Some conf => set_firewalld_conf conf ;; firewalld_conf_write
  | None => ret tt
  end.

(** The order in which the loops of [restore_settings_dict] are written. *)
Definition restore_order : list Kind :=
  [Icmptypes; Helpers; Services; Ipsets; Policies; Zones].

(** The order of replay as the specification words it: address-sets,
    helpers, ICMP types, services, policies, zones. *)
Definition spec_restore_order : list Kind :=
  [Ipsets; Helpers; Icmptypes; Services; Policies; Zones].

(** [reset_defaults] as the specification words it: on a failure the
    snapshot is replayed in the order [spec_restore_order], then the
    failure is raised again. *)
Definition spec_reset_defaults : M unit :=
  backup_config_dict <- get_all_io_objects_dict ;;
  c <- get_self ;;
  let backup_firewall_conf := _firewalld_conf c in
  try_except _reset_defaults (fun e =>
    replay_in_order spec_restore_order backup_config_dict backup_firewall_conf ;;
    raise e).

(** The objects a lookup sees: the custom one, else the builtin one. *)
Definition visible (k : Kind) (n : string) (c : FirewallConfig) : option Obj :=
  match dict_get n (custom k c) with
  | Some o => Some o
  | None => dict_get n (builtins k c)
  end.

(** The dictionary that [get_all_io_objects_dict] builds for kind [k]:
    each listed name with the object a lookup sees. *)
Definition merged_dict (k : Kind) (c : FirewallConfig) : Dict Obj :=
  fold_left (fun acc n =>
               match visible k n c with
               | Some o => dict_set n o acc
               | None => acc
               end)
            (get_objects k c) [].

Definition merged (c : FirewallConfig) : AllObjs :=
  mkKindMap (merged_dict Ipsets c) (merged_dict Helpers c) (merged_dict Icmptypes c)
            (merged_dict Services c) (merged_dict Zones c) (merged_dict Policies c).

(** The state an operation leaves, whether it returned or raised. *)
Definition state_of {A} (o : Outcome A) : State :=
  match o with Return _ s => s | Raise _ s => s end.

(** Every entry is stored under the name of its object, as [add_*] and
    [update_*_from_path] store it. *)
Definition keyed_by_name (d : Dict Obj) : Prop :=
  forall x obj, In (x, obj) d -> x = name obj.

(** The invariant of the registry: all twelve dictionaries are keyed by
    the names of their objects. *)
Definition registry_keyed (c : FirewallConfig) : Prop :=
  forall k, keyed_by_name (custom k c) /\ keyed_by_name (builtins k c).

(** An operation keeps the invariant, whether it returns or raises. *)
Definition preserves {A} (m : M A) : Prop :=
  forall s, registry_keyed (self s) -> registry_keyed (self (state_of (m s))).

(** ** Reverting to the builtin object *)

(** The message of [NO_DEFAULTS] when the registered object is not [obj]. *)
Definition differs_msg (k : Kind) (n : string) : string :=
  match k with
  | Ipsets => "self._ipsets[" ++ n ++ "] != obj"
  | Icmptypes => "self._icmptypes[" ++ n ++ "] != obj"
  | Services => "self._services[" ++ n ++ "] != obj"
  | Zones => "self._zones[" ++ n ++ "] != obj"
  | Policies => "self._policy_objects[" ++ n ++ "] != obj"
  | Helpers => "self._helpers[" ++ n ++ "] != obj"
  end.

(** The message of [NO_DEFAULTS] when no builtin object has the name. *)
Definition not_builtin_msg (k : Kind) (n : string) : string :=
  "'" ++ n ++ "' not a built-in " ++
  match k with
  | Ipsets => "ipset" | Icmptypes => "icmptype" | Services => "service"
  | Zones => "zone" | Policies => "policy" | Helpers => "helper"
  end.

(** [load_ipset_defaults], [load_icmptype_defaults], [load_service_defaults],
    [load_zone_defaults], [load_policy_object_defaults],
    [load_helper_defaults].  The last line reads the builtin dictionary
    under a key the third test has found there. *)
Definition load_object_defaults (k : Kind) (obj : Obj) : M Obj :=
  c <- get_self ;;
  match dict_get (name obj) (custom k c) with
  | None => raise (FirewallError NO_DEFAULTS (name obj))
  | Some registered =>
      if obj_ne registered obj
      then raise (FirewallError NO_DEFAULTS (differs_msg k (name obj)))
      else if negb (dict_mem (name obj) (builtins k c))
      then raise (FirewallError NO_DEFAULTS (not_builtin_msg k (name obj)))
      else
        _remove_object k obj ;;
        c <- get_self ;;
        match dict_get (name obj) (builtins k c) with
        | Some b => ret b
        | None => raise (OtherException "KeyError")
        end
  end.

Definition load_ipset_defaults := load_object_defaults Ipsets.
Definition load_icmptype_defaults := load_object_defaults Icmptypes.
Definition load_service_defaults := load_object_defaults Services.
Definition load_zone_defaults := load_object_defaults Zones.
Definition load_policy_object_defaults := load_object_defaults Policies.
Definition load_helper_defaults := load_object_defaults Helpers.

(** ** Reading a configuration *)

(** [get_ipset_config], [get_icmptype_config], [get_helper_config] *)
Definition get_ipset_config (obj : Obj) : list Value := export_config obj.
Definition get_icmptype_config (obj : Obj) : list Value := export_config obj.
Definition get_helper_config (obj : Obj) : list Value := export_config obj.

(** [get_service_config_dict], [get_zone_config_dict],
    [get_policy_object_config_dict] *)
Definition get_service_config_dict (obj : Obj) : Dict Value := export_config_dict obj.
Definition get_zone_config_dict (obj : Obj) : Dict Value := export_config_dict obj.
Definition get_policy_object_config_dict (obj : Obj) : Dict Value := export_config_dict obj.

(** The loop of [get_service_config] and [get_zone_config]:
    [for i in range(n)], the value of [conf_dict] under
    [STRUCTURE[i][0]], or the attribute of the object when the dictionary
    lacks it; [STRUCTURE[i]] raises [IndexError] past the end.  [getattr]
    is [copy.deepcopy(getattr(obj, key))]; every name of a structure is
    an attribute of its objects, so it returns. *)
Fixpoint config_tuple (getattr : Obj -> string -> Value) (obj : Obj)
    (conf_dict : Dict Value) (structure : list string) (n : nat)
    (conf_list : list Value) : Exception + list Value :=
  match n with
  | O => inr conf_list
  | S n' =>
      match structure with
      | [] => inl IndexError
      | key :: structure' =>
          let value := match dict_get key conf_dict with
                       | Some v => v
                       | None => getattr obj key
                       end in
          config_tuple getattr obj conf_dict structure' n' (conf_list ++ [value])
      end
  end.

(** [get_service_config]: the tuple of the old API has 8 elements. *)
Definition get_service_config (getattr : Obj -> string -> Value) (obj : Obj)
    : Exception + list Value :=
  config_tuple getattr obj (export_config_dict obj)
               (IMPORT_EXPORT_STRUCTURE (kind obj)) 8 [].

(** [get_zone_config]: the tuple of the old API has 16 elements. *)
Definition get_zone_config (getattr : Obj -> string -> Value) (obj : Obj)
    : Exception + list Value :=
  config_tuple getattr obj (export_config_dict obj)
               (IMPORT_EXPORT_STRUCTURE (kind obj)) 16 [].

(** ** Relations between the registry before and after an operation *)

(** An operation relates the registry it starts from to the one it
    leaves by [R], whether it returns or raises. *)
Definition maintains {A} (R : FirewallConfig -> FirewallConfig -> Prop) (m : M A) : Prop :=
  forall s, R (self s) (self (state_of (m s))).

(** The builtin dictionaries are the same. *)
Definition same_builtins (c c' : FirewallConfig) : Prop :=
  builtin_objects c' = builtin_objects c.

(** The dictionaries of every kind but [k] are the same. *)
Definition same_other_kinds (k : Kind) (c c' : FirewallConfig) : Prop :=
  forall k', k' <> k -> custom k' c' = custom k' c /\ builtins k' c' = builtins k' c.

(** The string contains no slash. *)
Fixpoint no_slash (s : string) : bool :=
  match s with
  | EmptyString => true
  | String c r => negb (is_slash c) && no_slash r
  end.

(** The configuration that [_copy_ipset], [_copy_icmptype], [_copy_helper]
    (a tuple) and [_copy_service], [_copy_policy_object], [rename_zone]
    (a dictionary) export from the object to be renamed. *)
Definition copy_conf (k : Kind) (obj : Obj) : Conf :=
  match k with
  | Ipsets | Icmptypes | Helpers => ConfTuple (export_config obj)
  | Services | Policies | Zones => ConfDict (export_config_dict obj)
  end.

End FirewallConfig.

Arguments Return {E A}.
Arguments Raise {E A}.

(** ** A concrete environment

    A small file system and trivial object classes, on which the registry
    can be run: a world is the list of the files that exist and a journal
    of the files written; a configuration is a list of strings. *)
Module Demo.

Record DemoWorld := mkWorld { files : list string; journal : list string }.

Definition has_file (f : string) (w : DemoWorld) : bool :=
  existsb (String.eqb f) (files w).

Definition etc (k : Kind) : string :=
  match k with
  | Ipsets => "/etc/firewalld/ipsets"
  | Helpers => "/etc/firewalld/helpers"
  | Icmptypes => "/etc/firewalld/icmptypes"
  | Services => "/etc/firewalld/services"
  | Zones => "/etc/firewalld/zones"
  | Policies => "/etc/firewalld/policies"
  end.

Definition structure (k : Kind) : list string := ["version"; "short"; "description"].

(** A file named [broken.xml] cannot be parsed; an object read from below
    [/etc/firewalld] is not builtin. *)
Definition read (k : Kind) (fname pth : string) (w : DemoWorld)
    : Exception + IO_Object (list string) :=
  if String.eqb fname "broken.xml" then inl (OtherException "not well-formed")
  else let b := negb (startswith pth "/etc/firewalld") in
       inr (mkIO k (drop_last4 fname) fname pth b b []).

Definition write (k : Kind) (x : IO_Object (list string)) (w : DemoWorld)
    : option Exception * DemoWorld :=
  let f := (path x ++ "/" ++ filename x)%string in
  (None, mkWorld (if has_file f w then files w else files w ++ [f]) (journal w ++ [f])).

Definition move (src dst : string) (w : DemoWorld) : option Exception * DemoWorld :=
  if has_file src w
  then (None, mkWorld (filter (fun f => negb (String.eqb src f)) (files w) ++ [dst]) (journal w))
  else (Some (OtherException "No such file or directory"), w).

Definition remove (f : string) (w : DemoWorld) : option Exception * DemoWorld :=
  if has_file f w
  then (None, mkWorld (filter (fun g => negb (String.eqb f g)) (files w)) (journal w))
  else (Some (OtherException "No such file or directory"), w).

(** A configuration that lists ["invalid"] is rejected by the validator. *)
Definition validate (o : IO_Object (list string)) (conf : Dict string)
    (all : KindMap (Dict (IO_Object (list string)))) : option Exception :=
  if existsb (String.eqb "invalid") (dict_values conf)
  then Some (FirewallError (OTHER_CODE 0) (name o)) else None.

(** The [firewalld.conf] object is [true] when its file can be written. *)
Definition write_conf (conf : bool) (w : DemoWorld) : option Exception * DemoWorld :=
  if conf then (None, w) else (Some (OtherException "Permission denied"), w).

#[global] Instance env : Env := {|
  Value := string;
  Payload := list string;
  World := DemoWorld;
  FirewalldConf := bool;
  ETC_FIREWALLD := etc;
  IMPORT_EXPORT_STRUCTURE := structure;
  new_attrs := fun _ => [];
  check_name := fun _ _ => None;
  export_config := fun o => attrs o;
  export_config_dict := fun o => combine (structure (kind o)) (attrs o);
  import_config := fun _ t _ => inr t;
  import_config_dict := fun _ d _ => inr (dict_values d);
  check_config_dict := validate;
  obj_ne := fun _ _ => true;
  os_path_exists := has_file;
  reader := read;
  writer := write;
  shutil_move := move;
  os_remove := remove;
  conf_set_defaults := fun conf => (None, conf);
  conf_write := write_conf
|}.

Definition empty_world : DemoWorld := mkWorld [] [].

(** An object of kind [k] named [n], stored in directory [dir]. *)
Definition object (k : Kind) (n dir : string) (is_builtin is_default : bool)
    : IO_Object (list string) :=
  mkIO k n (n ++ ".xml")%string dir is_builtin is_default ["1"; n; EmptyString].

Definition usr (k : Kind) : string :=
  match k with
  | Ipsets => "/usr/lib/firewalld/ipsets"
  | Helpers => "/usr/lib/firewalld/helpers"
  | Icmptypes => "/usr/lib/firewalld/icmptypes"
  | Services => "/usr/lib/firewalld/services"
  | Zones => "/usr/lib/firewalld/zones"
  | Policies => "/usr/lib/firewalld/policies"
  end.

(** A registry with the given custom and builtin objects of kind [k]. *)
Definition registry (k : Kind) (cust blt : list (IO_Object (list string)))
    : FirewallConfig :=
  mkFirewallConfig
    (kset k (map (fun o => (name o, o)) cust) (kconst []))
    (kset k (map (fun o => (name o, o)) blt) (kconst []))
    (Some true).

Definition empty_registry : FirewallConfig := mkFirewallConfig (kconst []) (kconst []) (Some true).

(** The registry [c] with the custom objects [objs] of kind [k]. *)
Definition with_custom (k : Kind) (objs : list (IO_Object (list string)))
    (c : FirewallConfig) : FirewallConfig :=
  set_custom k (map (fun o => (name o, o)) objs) c.

(** A state: a registry and the files that exist. *)
Definition state (c : FirewallConfig) (fs : list string) : State := mkState c (mkWorld fs []).

Definition office_custom := object Ipsets "office" (etc Ipsets) false true.
Definition office_builtin := object Ipsets "office" (usr Ipsets) true true.
Definition ping_custom := object Icmptypes "ping" (etc Icmptypes) false true.
Definition web_custom := object Services "web" (etc Services) false true.
Definition home_custom := object Zones "home" (etc Zones) false true.

(** A custom zone whose file exists, and a custom ipset and a custom
    icmptype whose files are missing: [_reset_defaults] drops the zone,
    then fails on the ipset. *)
Definition zone_ipset_icmptype : State :=
  state (with_custom Zones [home_custom]
           (with_custom Ipsets [office_custom]
              (with_custom Icmptypes [ping_custom] empty_registry)))
        ["/etc/firewalld/zones/home.xml"].

(** A custom ipset whose file exists and a custom service whose file is
    missing: [_reset_defaults] drops the ipset, then fails on the service. *)
Definition ipset_then_failing_service : State :=
  state (with_custom Ipsets [office_custom] (with_custom Services [web_custom] empty_registry))
        ["/etc/firewalld/ipsets/office.xml"].

(** The same with a custom zone in place of the ipset. *)
Definition zone_then_failing_service : State :=
  state (with_custom Zones [home_custom] (with_custom Services [web_custom] empty_registry))
        ["/etc/firewalld/zones/home.xml"].

(** The attribute of an object that its exported dictionary lacks. *)
Definition attribute (o : IO_Object (list string)) (key : string) : string :=
  ("attribute " ++ key)%string.

(** The sixteen names of a zone's structure, as the tuple API needs them. *)
Definition wide_structure (k : Kind) : list string :=
  ["version"; "short"; "description"; "UNUSED"; "target"; "services"; "ports";
   "icmp_blocks"; "masquerade"; "forward_ports"; "interfaces"; "sources";
   "rules_str"; "protocols"; "source_ports"; "icmp_block_inversion"].

Definition same_object (a b : IO_Object (list string)) : bool :=
  String.eqb (name a) (name b) && String.eqb (filename a) (filename b)
  && String.eqb (path a) (path b) && Bool.eqb (builtin a) (builtin b)
  && Bool.eqb (default a) (default b)
  && if list_eq_dec string_dec (attrs a) (attrs b) then true else false.

(** A file named [locked.xml] cannot be written. *)
Definition write_unless_locked (k : Kind) (x : IO_Object (list string)) (w : DemoWorld)
    : option Exception * DemoWorld :=
  if String.eqb (filename x) "locked.xml"
  then (Some (OtherException "Permission denied"), w)
  else write k x w.

(** A second environment: structures of sixteen names, objects compared
    by their content, and a writer that can fail. *)
Definition wide_env : Env := {|
  Value := string;
  Payload := list string;
  World := DemoWorld;
  FirewalldConf := bool;
  ETC_FIREWALLD := etc;
  IMPORT_EXPORT_STRUCTURE := wide_structure;
  new_attrs := fun _ => [];
  check_name := fun _ _ => None;
  export_config := fun o => attrs o;
  export_config_dict := fun o => combine (wide_structure (kind o)) (attrs o);
  import_config := fun _ t _ => inr t;
  import_config_dict := fun _ d _ => inr (dict_values d);
  check_config_dict := validate;
  obj_ne := fun a b => negb (same_object a b);
  os_path_exists := has_file;
  reader := read;
  writer := write_unless_locked;
  shutil_move := move;
  os_remove := remove;
  conf_set_defaults := fun conf => (None, conf);
  conf_write := write_conf
|}.

Definition work_custom := object Zones "work" (etc Zones) false true.


(** Registries and states of the second environment. *)
Definition wide_registry (k : Kind) (cust blt : list (IO_Object (list string)))
    : FirewallConfig (E:=wide_env) :=
  mkFirewallConfig (E:=wide_env)
    (kset k (map (fun o => (name o, o)) cust) (kconst []))
    (kset k (map (fun o => (name o, o)) blt) (kconst []))
    (Some true).

Definition wide_state (c : FirewallConfig (E:=wide_env)) (fs : list string)
    : State (E:=wide_env) :=
  mkState (E:=wide_env) c (mkWorld fs []).
End Demo.
(** * Properties *)

(** ** Dictionaries *)

Section PyDictFacts.
Context {V : Type}.
Implicit Types (d : Dict V) (k : string).

Lemma dict_get_set_same k v d : dict_get k (dict_set k v d) = Some v.
Proof.
  induction d as [|[k' v'] d IH]; simpl.
  - now rewrite String.eqb_refl.
  - destruct (String.eqb k k') eqn:E; simpl.
    + now rewrite String.eqb_refl.
    + now rewrite E.
Qed.

Lemma dict_get_set_other k k' v d :
  k' <> k -> dict_get k' (dict_set k v d) = dict_get k' d.
Proof.
  intros Hne. induction d as [|[k0 v0] d IH]; simpl.
  - destruct (String.eqb_spec k' k); [contradiction|reflexivity].
  - destruct (String.eqb_spec k k0) as [->|Hk]; simpl.
    + destruct (String.eqb_spec k' k0); [contradiction|reflexivity].
    + destruct (String.eqb_spec k' k0); [reflexivity|exact IH].
Qed.

Lemma dict_get_del_same k d : dict_get k (dict_del k d) = None.
Proof.
  induction d as [|[k' v'] d IH]; simpl; [reflexivity|].
  destruct (String.eqb k k') eqn:E; simpl; [exact IH|].
  now rewrite E.
Qed.

Lemma dict_get_del_other k k' d :
  k' <> k -> dict_get k' (dict_del k d) = dict_get k' d.
Proof.
  intros Hne. induction d as [|[k0 v0] d IH]; simpl; [reflexivity|].
  destruct (String.eqb_spec k k0) as [->|Hk]; simpl.
  - destruct (String.eqb_spec k' k0); [contradiction|exact IH].
  - destruct (String.eqb_spec k' k0); [reflexivity|exact IH].
Qed.

Lemma dict_mem_get k d : dict_mem k d = true <-> exists v, dict_get k d = Some v.
Proof.
  unfold dict_mem. destruct (dict_get k d) as [v|]; split.
  - intros _. now exists v.
  - reflexivity.
  - discriminate.
  - intros [v Hv]. discriminate.
Qed.

Lemma dict_get_In_keys k d : In k (dict_keys d) -> exists v, dict_get k d = Some v.
Proof.
  induction d as [|[k' v'] d IH]; simpl; [contradiction|].
  intros [->|Hin].
  - rewrite String.eqb_refl. now exists v'.
  - destruct (String.eqb k k'); [now exists v'|auto].
Qed.

Lemma dict_keys_get k v d : dict_get k d = Some v -> In k (dict_keys d).
Proof.
  induction d as [|[k' v'] d IH]; simpl; [discriminate|].
  destruct (String.eqb_spec k k') as [->|Hk]; [now left|].
  intros H. right. auto.
Qed.

Lemma dict_keys_del k k' d : In k' (dict_keys (dict_del k d)) <-> k' <> k /\ In k' (dict_keys d).
Proof.
  induction d as [|[k0 v0] d IH]; simpl; [tauto|].
  destruct (String.eqb_spec k k0) as [->|Hk]; simpl.
  - rewrite IH. split; [tauto|]. intros [Hn [He|Hi]]; [congruence|tauto].
  - rewrite IH. split.
    + intros [->|[Hn Hi]]; [split; [congruence|now left]|tauto].
    + tauto.
Qed.

(** Dictionaries built by [dict_set] and [dict_del] never repeat a key. *)
Lemma dict_set_NoDup k v d : NoDup (dict_keys d) -> NoDup (dict_keys (dict_set k v d)).
Proof.
  induction d as [|[k' v'] d IH]; simpl; intros Hnd.
  - constructor; [intros []|constructor].
  - inversion Hnd as [|? ? Hnin Hnd']; subst.
    destruct (String.eqb_spec k k') as [->|Hk]; simpl.
    + now constructor.
    + constructor; [|auto].
      intros Hin. apply Hnin.
      destruct (dict_get_In_keys _ _ Hin) as [w Hw].
      rewrite dict_get_set_other in Hw by congruence.
      eapply dict_keys_get; eauto.
Qed.

Lemma dict_del_NoDup k d : NoDup (dict_keys d) -> NoDup (dict_keys (dict_del k d)).
Proof.
  induction d as [|[k' v'] d IH]; simpl; intros Hnd; [constructor|].
  inversion Hnd as [|? ? Hnin Hnd']; subst.
  destruct (String.eqb k k'); simpl; [auto|].
  constructor; [|auto].
  intros Hin. apply dict_keys_del in Hin. tauto.
Qed.

End PyDictFacts.

(** ** Strings, kinds *)

Lemma insert_sorted_In x y l : In y (insert_sorted x l) <-> y = x \/ In y l.
Proof.
  induction l as [|z l IH]; simpl.
  - intuition.
  - destruct (String.compare x z) eqn:E; simpl.
    + apply String.compare_eq_iff in E. subst. intuition.
    + intuition.
    + rewrite IH. intuition.
Qed.

Lemma sorted_set_In y l : In y (sorted_set l) <-> In y l.
Proof.
  induction l as [|x l IH]; simpl; [tauto|].
  rewrite insert_sorted_In, IH. intuition.
Qed.

Lemma str_lt_trans a b c : str_lt a b -> str_lt b c -> str_lt a c.
Proof.
  unfold str_lt. intros H1 H2.
  apply String_as_OT.cmp_lt in H1. apply String_as_OT.cmp_lt in H2.
  apply String_as_OT.cmp_lt. eapply String_as_OT.lt_trans; eauto.
Qed.

Lemma insert_sorted_sorted x l :
  StronglySorted str_lt l -> StronglySorted str_lt (insert_sorted x l).
Proof.
  induction l as [|y l IH]; simpl; intros Hs.
  - constructor; constructor.
  - inversion Hs as [|? ? Hl Hy]; subst.
    destruct (String.compare x y) eqn:Ec.
    + exact Hs.
    + constructor; [exact Hs|]. constructor; [exact Ec|].
      eapply Forall_impl; [|exact Hy]. intros z Hz. eapply str_lt_trans; eauto.
    + constructor; [auto|].
      apply Forall_forall. intros z Hz. apply insert_sorted_In in Hz.
      destruct Hz as [->|Hz].
      * unfold str_lt. rewrite String.compare_antisym, Ec. reflexivity.
      * rewrite Forall_forall in Hy. auto.
Qed.

(** [sorted(set(l))] is strictly increasing: sorted, without repetition. *)
Lemma sorted_set_sorted l : StronglySorted str_lt (sorted_set l).
Proof.
  induction l as [|x l IH]; simpl; [constructor|].
  now apply insert_sorted_sorted.
Qed.

Example basename_ex : basename "/etc/firewalld/zones/sub/home.xml" = "home.xml".
Proof. reflexivity. Qed.
Example dirname_ex : dirname "/etc/firewalld/zones/sub/home.xml" = "/etc/firewalld/zones/sub".
Proof. reflexivity. Qed.
Example dirname_root_ex : dirname "/office.xml" = "/".
Proof. reflexivity. Qed.
Example dirname_plain_ex : dirname "office.xml" = EmptyString.
Proof. reflexivity. Qed.
Example join_ex : os_path_join "/etc/firewalld/ipsets" "office.xml" = "/etc/firewalld/ipsets/office.xml".
Proof. reflexivity. Qed.
Example drop_last4_ex : drop_last4 "home.xml" = "home".
Proof. reflexivity. Qed.
Example sorted_set_ex : sorted_set ["work"; "home"; "work"; "dmz"] = ["dmz"; "home"; "work"].
Proof. reflexivity. Qed.

Lemma Kind_eqb_spec a b : reflect (a = b) (Kind_eqb a b).
Proof. destruct a, b; simpl; constructor; congruence. Qed.

Lemma kget_kset_same {A} k (a : A) m : kget k (kset k a m) = a.
Proof. destruct k; reflexivity. Qed.

Lemma kget_kset_other {A} k k' (a : A) m : k' <> k -> kget k' (kset k a m) = kget k' m.
Proof. destruct k, k'; simpl; congruence. Qed.

Lemma kset_kget {A} k (m : KindMap A) : kset k (kget k m) m = m.
Proof. destruct k, m; reflexivity. Qed.

(** ** The registry *)

Section Facts.
Context {E : Env}.
Abbreviation Obj := (IO_Object Payload).
Abbreviation AllObjs := (KindMap (Dict (IO_Object Payload))).

Ltac msimpl :=
  unfold bind, ret, raise, get_self, get_world, modify_self,
         lift_check, lift_result, lift_world, try_except; simpl.

Lemma custom_set_custom k d c : custom k (set_custom k d c) = d.
Proof. unfold custom, set_custom; simpl. apply kget_kset_same. Qed.

Lemma custom_set_custom_other k k' d c :
  k' <> k -> custom k' (set_custom k d c) = custom k' c.
Proof. intros H. unfold custom, set_custom; simpl. now apply kget_kset_other. Qed.

Lemma builtins_set_custom k k' d c : builtins k' (set_custom k d c) = builtins k' c.
Proof. reflexivity. Qed.

Lemma builtins_set_builtins k d c : builtins k (set_builtins k d c) = d.
Proof. unfold builtins, set_builtins; simpl. apply kget_kset_same. Qed.

Lemma builtins_set_builtins_other k k' d c :
  k' <> k -> builtins k' (set_builtins k d c) = builtins k' c.
Proof. intros H. unfold builtins, set_builtins; simpl. now apply kget_kset_other. Qed.

Lemma custom_set_builtins k k' d c : custom k' (set_builtins k d c) = custom k' c.
Proof. reflexivity. Qed.

Lemma set_custom_same k c : set_custom k (custom k c) c = c.
Proof. destruct c. unfold set_custom, custom; simpl. now rewrite kset_kget. Qed.

(** A lookup is the custom object, else the builtin one, else an error. *)
Lemma get_object_visible k n s :
  get_object k n s =
  match visible k n (self s) with
  | Some o => Return o s
  | None => Raise (FirewallError (INVALID_OBJECT k) (not_found_msg k n)) s
  end.
Proof.
  unfold get_object, visible. msimpl.
  destruct (dict_get n (custom k (self s))); [reflexivity|].
  destruct (dict_get n (builtins k (self s))); reflexivity.
Qed.

Lemma visible_listed k n c o : visible k n c = Some o -> In n (get_objects k c).
Proof.
  unfold visible, get_objects. intros H.
  apply sorted_set_In, in_or_app.
  destruct (dict_get n (custom k c)) eqn:Ec.
  - left. eapply dict_keys_get; eauto.
  - right. eapply dict_keys_get; eauto.
Qed.

Lemma listed_visible k n c : In n (get_objects k c) -> exists o, visible k n c = Some o.
Proof.
  unfold visible, get_objects. intros H.
  apply sorted_set_In, in_app_or in H.
  destruct (dict_get n (custom k c)) eqn:Ec; [eauto|].
  destruct H as [H|H]; apply dict_get_In_keys in H; destruct H as [v Hv].
  - congruence.
  - eauto.
Qed.

Lemma dict_comprehension_get k (s : State) names :
  forall acc,
    dict_comprehension names (get_object k) acc s =
    Return (fold_left (fun acc n =>
                         match visible k n (self s) with
                         | Some o => dict_set n o acc
                         | None => acc
                         end) names acc) s
    \/ exists n, In n names /\ visible k n (self s) = None.
Proof.
  induction names as [|n names IH]; intros acc; simpl.
  - now left.
  - unfold bind. rewrite get_object_visible.
    destruct (visible k n (self s)) as [o|] eqn:Ev.
    + destruct (IH (dict_set n o acc)) as [H|[m [Hm Hv]]]; [now left|].
      right. exists m. auto.
    + right. exists n. auto.
Qed.

Lemma dict_comprehension_listed k (s : State) :
  dict_comprehension (get_objects k (self s)) (get_object k) [] s =
  Return (merged_dict k (self s)) s.
Proof.
  destruct (dict_comprehension_get k s (get_objects k (self s)) []) as [H|[n [Hn Hv]]].
  - exact H.
  - apply listed_visible in Hn. destruct Hn as [o Ho]. congruence.
Qed.

(** [get_all_io_objects_dict] never raises and leaves the state alone. *)
Lemma get_all_io_objects_dict_merged (s : State) :
  get_all_io_objects_dict s = Return (merged (self s)) s.
Proof.
  unfold get_all_io_objects_dict, get_ipsets, get_helpers, get_icmptypes,
    get_services, get_zones, get_policy_objects, get_ipset, get_helper,
    get_icmptype, get_service, get_zone, get_policy_object.
  unfold bind at 1. unfold get_self at 1.
  unfold bind at 1. rewrite dict_comprehension_listed.
  unfold bind at 1. rewrite dict_comprehension_listed.
  unfold bind at 1. rewrite dict_comprehension_listed.
  unfold bind at 1. rewrite dict_comprehension_listed.
  unfold bind at 1. rewrite dict_comprehension_listed.
  unfold bind at 1. rewrite dict_comprehension_listed.
  reflexivity.
Qed.

Lemma fold_merge_not_in k c n names :
  forall acc, ~ In n names ->
    dict_get n (fold_left (fun acc n =>
                             match visible k n c with
                             | Some o => dict_set n o acc
                             | None => acc
                             end) names acc) = dict_get n acc.
Proof.
  induction names as [|m names IH]; intros acc Hn; simpl; [reflexivity|].
  rewrite IH by (intros H; apply Hn; now right).
  destruct (visible k m c); [|reflexivity].
  apply dict_get_set_other. intros ->. apply Hn. now left.
Qed.

Lemma fold_merge_in k c n o names :
  forall acc, In n names -> visible k n c = Some o ->
    dict_get n (fold_left (fun acc n =>
                             match visible k n c with
                             | Some o => dict_set n o acc
                             | None => acc
                             end) names acc) = Some o.
Proof.
  induction names as [|m names IH]; intros acc Hin Hv; simpl; [contradiction|].
  destruct (in_dec string_dec n names) as [Hi|Hni].
  - now apply IH.
  - destruct Hin as [->|Hin]; [|contradiction].
    rewrite fold_merge_not_in by assumption.
    rewrite Hv. apply dict_get_set_same.
Qed.

(** The merged dictionary of a kind holds, under each name, the object a
    lookup sees. *)
Lemma merged_dict_get k c n : dict_get n (merged_dict k c) = visible k n c.
Proof.
  unfold merged_dict.
  destruct (visible k n c) as [o|] eqn:Ev.
  - apply fold_merge_in; [eapply visible_listed; eauto|assumption].
  - rewrite fold_merge_not_in; [reflexivity|].
    intros H. apply listed_visible in H. destruct H as [o Ho]. congruence.
Qed.

Lemma kget_merged k c : kget k (merged c) = merged_dict k c.
Proof. destruct k; reflexivity. Qed.

Ltac break_match :=
  match goal with
  | |- context [match ?x with _ => _ end] => destruct x eqn:?
  | H : context [match ?x with _ => _ end] |- _ => destruct x eqn:?
  end.

Ltac invert_outcomes :=
  repeat match goal with
         | H : Return _ _ = Return _ _ |- _ => inversion H; subst; clear H
         | H : Raise _ _ = Raise _ _ |- _ => inversion H; subst; clear H
         | H : Raise _ _ = Return _ _ |- _ => discriminate H
         | H : Return _ _ = Raise _ _ |- _ => discriminate H
         end.

(** [add_*] always returns; it stores the object in the tier its
    [builtin] flag names. *)
Lemma add_object_state k obj s :
  add_object k obj s =
  Return tt (mkState (if builtin obj
                      then set_builtins k (dict_set (name obj) obj (builtins k (self s))) (self s)
                      else set_custom k (dict_set (name obj) obj (custom k (self s))) (self s))
                     (world s)).
Proof. reflexivity. Qed.

(** A removal that returns has dropped the custom entry and nothing else
    of the registry. *)
Lemma _remove_object_returns k obj s s' :
  _remove_object k obj s = Return tt s' ->
  self s' = set_custom k (dict_del (name obj) (custom k (self s))) (self s).
Proof.
  unfold _remove_object, backup_file. msimpl. intros H.
  repeat break_match; try discriminate; invert_outcomes; reflexivity.
Qed.

Lemma check_builtin_object_returns k obj s :
  builtin obj = false -> default obj = true ->
  check_builtin_object k obj s = Return tt s.
Proof. intros Hb Hd. unfold check_builtin_object. now rewrite Hb, Hd. Qed.

Lemma check_builtin_object_raises k obj s :
  builtin obj = true \/ default obj = false ->
  check_builtin_object k obj s =
  Raise (FirewallError (BUILTIN_OBJECT k) (builtin_msg k (name obj))) s.
Proof.
  intros H. unfold check_builtin_object.
  destruct H as [-> | ->]; [reflexivity|].
  now rewrite orb_true_r.
Qed.

Lemma remove_object_returns k obj s s' :
  remove_object k obj s = Return tt s' ->
  self s' = set_custom k (dict_del (name obj) (custom k (self s))) (self s).
Proof.
  unfold remove_object, bind, check_builtin_object.
  destruct (builtin obj || negb (default obj)); [discriminate|].
  apply _remove_object_returns.
Qed.

(** C1. A lookup returns the custom object registered under the name, else
    the builtin object registered under it, else fails with the kind's
    [INVALID_*] error.  After a builtin and a custom object of one name
    are registered, the lookup returns the custom one; once the custom one
    has been removed, it returns the builtin one. *)
Theorem get_object_custom_shadows_builtin (k : Kind) (n : string) (s : State) :
  (forall o, dict_get n (custom k (self s)) = Some o -> get_object k n s = Return o s) /\
  (forall o, dict_get n (custom k (self s)) = None ->
             dict_get n (builtins k (self s)) = Some o -> get_object k n s = Return o s) /\
  (dict_get n (custom k (self s)) = None -> dict_get n (builtins k (self s)) = None ->
   get_object k n s = Raise (FirewallError (INVALID_OBJECT k) (not_found_msg k n)) s) /\
  (forall b c, builtin b = true -> builtin c = false -> name b = n -> name c = n ->
     let s2 := state_of (add_object k c (state_of (add_object k b s))) in
     get_object k n s2 = Return c s2 /\
     forall s3, remove_object k c s2 = Return tt s3 -> get_object k n s3 = Return b s3).
Proof.
  split; [|split; [|split]].
  - intros o H. rewrite get_object_visible. unfold visible. now rewrite H.
  - intros o Hc Hb. rewrite get_object_visible. unfold visible. now rewrite Hc, Hb.
  - intros Hc Hb. rewrite get_object_visible. unfold visible. now rewrite Hc, Hb.
  - intros b c Hb Hc Hnb Hnc. cbv zeta.
    rewrite !add_object_state. cbn [state_of self world]. rewrite Hb, Hc, Hnb, Hnc.
    split.
    + rewrite get_object_visible. unfold visible. cbn [self].
      now rewrite custom_set_custom, dict_get_set_same.
    + intros s3 Hr. apply remove_object_returns in Hr. cbn [self] in Hr.
      rewrite custom_set_custom, Hnc in Hr.
      rewrite get_object_visible. unfold visible. rewrite Hr.
      rewrite custom_set_custom, builtins_set_custom, dict_get_del_same.
      rewrite builtins_set_custom, builtins_set_builtins.
      now rewrite dict_get_set_same.
Qed.

(** C2. Creating an object under a name that the custom or the builtin
    dictionary of its kind already holds raises [NAME_CONFLICT] and leaves
    the whole state, registry and files, as it was. *)
Theorem new_object_name_conflict (k : Kind) (n : string) (s : State) :
  dict_mem n (custom k (self s)) = true \/ dict_mem n (builtins k (self s)) = true ->
  (forall conf, new_object k n conf s =
                Raise (FirewallError NAME_CONFLICT (name_conflict_msg k n)) s) /\
  (forall t, k = Services ->
             new_service n t s = Raise (FirewallError NAME_CONFLICT (name_conflict_msg k n)) s) /\
  (forall t, k = Zones ->
             new_zone n t s = Raise (FirewallError NAME_CONFLICT (name_conflict_msg k n)) s).
Proof.
  intros H.
  assert (Hc : check_name_conflict k n s =
               Raise (FirewallError NAME_CONFLICT (name_conflict_msg k n)) s).
  { unfold check_name_conflict. msimpl.
    destruct H as [-> | ->]; [reflexivity|]. now rewrite orb_true_r. }
  repeat split.
  - intros conf. unfold new_object, bind. now rewrite Hc.
  - intros t ->. unfold new_service, bind. now rewrite Hc.
  - intros t ->. unfold new_zone, bind. now rewrite Hc.
Qed.

(** C3. Removing or renaming an object whose [builtin] flag is set, or
    whose [default] flag is not, raises the kind's [BUILTIN_*] error and
    leaves the state as it was, so the list of names is the same. *)
Theorem remove_rename_builtin_protected (k : Kind) (obj : Obj) (n : string) (s : State) :
  builtin obj = true \/ default obj = false ->
  remove_object k obj s =
    Raise (FirewallError (BUILTIN_OBJECT k) (builtin_msg k (name obj))) s /\
  rename_object k obj n s =
    Raise (FirewallError (BUILTIN_OBJECT k) (builtin_msg k (name obj))) s /\
  get_objects k (self (state_of (remove_object k obj s))) = get_objects k (self s) /\
  get_objects k (self (state_of (rename_object k obj n s))) = get_objects k (self s).
Proof.
  intros H.
  assert (Hrm : remove_object k obj s =
                Raise (FirewallError (BUILTIN_OBJECT k) (builtin_msg k (name obj))) s).
  { unfold remove_object, bind. now rewrite check_builtin_object_raises. }
  assert (Hrn : rename_object k obj n s =
                Raise (FirewallError (BUILTIN_OBJECT k) (builtin_msg k (name obj))) s).
  { destruct k; unfold rename_object, rename_ipset, rename_icmptype, rename_service,
      rename_zone, rename_policy_object, rename_helper, rename_by_copy, bind;
      now rewrite check_builtin_object_raises. }
  rewrite Hrm, Hrn. auto.
Qed.

Lemma dict_get_In {V} (k : string) (v : V) (d : Dict V) :
  dict_get k d = Some v -> In (k, v) d.
Proof.
  induction d as [|[k' v'] d IH]; simpl; [discriminate|].
  destruct (String.eqb_spec k k') as [->|Hk].
  - intros H. inversion H. now left.
  - intros H. right. auto.
Qed.

(** What the loop over the keys finds is an entry with the file name. *)
Lemma find_by_filename_found d keys fname x obj :
  find_by_filename d keys fname = Some (x, obj) ->
  dict_get x d = Some obj /\ filename obj = fname.
Proof.
  induction keys as [|y keys IH]; simpl; [discriminate|].
  destruct (dict_get y d) as [o|] eqn:Ey; [|exact IH].
  destruct (String.eqb_spec (filename o) fname) as [Hf|Hf]; [|exact IH].
  intros H. inversion H; subst. auto.
Qed.

(** The loop finds an entry whenever some key holds an object with the
    file name. *)
Lemma find_by_filename_some d keys fname x0 o0 :
  In x0 keys -> dict_get x0 d = Some o0 -> filename o0 = fname ->
  exists x obj, find_by_filename d keys fname = Some (x, obj).
Proof.
  induction keys as [|y keys IH]; simpl; [contradiction|].
  intros Hin Hget Hf.
  destruct (dict_get y d) as [o|] eqn:Ey.
  - destruct (String.eqb_spec (filename o) fname) as [Ho|Ho]; [eauto|].
    destruct Hin as [Hy|Hin]; [|auto].
    subst y. rewrite Hget in Ey. injection Ey as Ey. subst o. now elim Ho.
  - destruct Hin as [Hy|Hin]; [|auto].
    subst y. congruence.
Qed.

(** C4. A file of the custom directory has disappeared and a custom entry
    has its file name: the entry is dropped; when the builtin dictionary
    holds the entry's name, the result is [("update", builtin object)] and
    the name then resolves to the builtin object; otherwise the result is
    [("remove", dropped object)]. *)
Theorem update_from_path_custom_file_deleted
    (k : Kind) (nm : string) (s : State) (x0 : string) (o0 : Obj) :
  os_path_exists nm (world s) = false ->
  is_custom_path k (dirname nm) = true ->
  dict_get x0 (custom k (self s)) = Some o0 ->
  filename o0 = basename nm ->
  exists x obj,
    dict_get x (custom k (self s)) = Some obj /\ filename obj = basename nm /\
    let s' := mkState (set_custom k (dict_del x (custom k (self s))) (self s)) (world s) in
    dict_get x (custom k (self s')) = None /\
    match dict_get (name obj) (builtins k (self s)) with
    | Some b =>
        update_object_from_path k nm s = Return (Some "update", Some b) s' /\
        (keyed_by_name (custom k (self s)) -> get_object k (name obj) s' = Return b s')
    | None =>
        update_object_from_path k nm s = Return (Some "remove", Some obj) s'
    end.
Proof.
  intros Hex Hcp Hget Hfn.
  destruct (find_by_filename_some (custom k (self s)) (dict_keys (custom k (self s)))
              (basename nm) x0 o0) as [x [obj Hfind]]; auto.
  { eapply dict_keys_get; eauto. }
  destruct (find_by_filename_found _ _ _ _ _ Hfind) as [Hx Hf].
  exists x, obj. split; [exact Hx|]. split; [exact Hf|].
  cbv zeta. split.
  - simpl. rewrite custom_set_custom. apply dict_get_del_same.
  - unfold update_object_from_path, bind, get_world, get_self, modify_self, ret.
    rewrite Hex. cbn [negb]. rewrite Hcp, Hfind. cbn [self].
    rewrite builtins_set_custom.
    destruct (dict_get (name obj) (builtins k (self s))) as [b|] eqn:Eb; [|reflexivity].
    split; [reflexivity|].
    intros Hkeyed. rewrite get_object_visible. unfold visible. simpl.
    rewrite custom_set_custom, builtins_set_custom.
    assert (x = name obj) as -> by (apply Hkeyed; now apply dict_get_In).
    now rewrite dict_get_del_same, Eb.
Qed.

(** C5. The file exists and its reader raises: the result is
    [(None, None)], nothing is raised, and the state is as it was. *)
Theorem update_from_path_reader_fails (k : Kind) (nm : string) (s : State) (e : Exception) :
  os_path_exists nm (world s) = true ->
  reader k (basename nm) (dirname nm) (world s) = inl e ->
  update_object_from_path k nm s = Return (None, None) s.
Proof.
  intros Hex Hr. unfold update_object_from_path. msimpl.
  now rewrite Hex, Hr.
Qed.

(** C9. A file of the custom directory is new or changed, it can be read,
    and the custom dictionary already holds the name of the object read:
    the object is stored under that name with the [default] flag of the
    entry it replaces, and the result is [("update", stored object)]. *)
Theorem update_from_path_custom_keeps_default
    (k : Kind) (nm : string) (s : State) (read_obj prior : Obj) :
  os_path_exists nm (world s) = true ->
  reader k (basename nm) (dirname nm) (world s) = inr read_obj ->
  is_custom_path k (dirname nm) = true ->
  let obj := combined_name k (dirname nm) (basename nm) read_obj in
  dict_get (name obj) (custom k (self s)) = Some prior ->
  let stored := set_default (default prior) obj in
  let s' := mkState (set_custom k (dict_set (name obj) stored (custom k (self s))) (self s))
                    (world s) in
  update_object_from_path k nm s = Return (Some "update", Some stored) s' /\
  dict_get (name obj) (custom k (self s')) = Some stored /\
  default stored = default prior.
Proof.
  intros Hex Hr Hcp obj Hprior stored s'.
  split; [|split].
  - unfold update_object_from_path. msimpl.
    rewrite Hex, Hr. simpl. fold obj.
    assert (Hm : dict_mem (name obj) (custom k (self s)) = true).
    { unfold dict_mem. now rewrite Hprior. }
    rewrite Hm, andb_false_r, Hcp, Hprior. reflexivity.
  - subst s'. simpl. rewrite custom_set_custom. apply dict_get_set_same.
  - reflexivity.
Qed.

(** ** Validation *)

Lemma first_failure_app l1 l2 :
  first_failure (l1 ++ l2) =
  match first_failure l1 with Some e => Some e | None => first_failure l2 end.
Proof.
  induction l1 as [|[e|] l1 IH]; simpl; auto.
Qed.

(** A loop of checks raises the first failure and never touches the state. *)
Lemma for_each_checks {A} (f : A -> option Exception) (l : list A) (s : State) :
  for_each l (fun x => lift_check (f x)) s =
  match first_failure (map f l) with
  | Some e => Raise e s
  | None => Return tt s
  end.
Proof.
  induction l as [|x l IH]; simpl; [reflexivity|].
  unfold bind, lift_check at 1.
  destruct (f x); [reflexivity|]. exact IH.
Qed.

Lemma for_each_nested_checks {A} (g : Kind -> list A) (f : A -> option Exception)
    (ks : list Kind) (s : State) :
  for_each ks (fun k => for_each (g k) (fun x => lift_check (f x))) s =
  match first_failure (flat_map (fun k => map f (g k)) ks) with
  | Some e => Raise e s
  | None => Return tt s
  end.
Proof.
  induction ks as [|k ks IH]; simpl; [reflexivity|].
  unfold bind. rewrite for_each_checks, first_failure_app.
  destruct (first_failure (map f (g k))); [reflexivity|]. exact IH.
Qed.

(** [full_check_config] as one pass over the merged dictionaries, kind by
    kind in the order of the source. *)
Lemma full_check_config_eq (extra : list (Kind * list Obj)) (s : State) :
  full_check_config extra s =
  match first_failure
          (flat_map (fun k =>
             map (fun item => check_config_dict (snd item) (export_config_dict (snd item))
                                (mix_in extra (merged (self s))))
                 (kget k (mix_in extra (merged (self s)))))
             full_check_order) with
  | Some e => Raise e s
  | None => Return tt s
  end.
Proof.
  unfold full_check_config. unfold bind at 1.
  rewrite get_all_io_objects_dict_merged.
  apply (for_each_nested_checks
           (fun k => kget k (mix_in extra (merged (self s))))
           (fun item => check_config_dict (snd item) (export_config_dict (snd item))
                          (mix_in extra (merged (self s))))).
Qed.

Lemma full_check_config_state extra s : state_of (full_check_config extra s) = s.
Proof. rewrite full_check_config_eq. now destruct (first_failure _). Qed.

Lemma find_app {A} (p : A -> bool) l1 l2 :
  find p (l1 ++ l2) = match find p l1 with Some x => Some x | None => find p l2 end.
Proof.
  induction l1 as [|x l1 IH]; simpl; [reflexivity|].
  destruct (p x); auto.
Qed.

Lemma last_named_app n (l1 l2 : list Obj) :
  last_named n (l1 ++ l2) =
  match last_named n l2 with Some o => Some o | None => last_named n l1 end.
Proof. unfold last_named. now rewrite rev_app_distr, find_app. Qed.

Lemma last_named_cons n (o : Obj) (l : list Obj) :
  last_named n (o :: l) =
  match last_named n l with
  | Some o' => Some o'
  | None => if String.eqb (name o) n then Some o else None
  end.
Proof. apply (last_named_app n [o] l). Qed.

Lemma mix_in_one_get (k0 : Kind) (objs : list Obj) :
  forall (all : AllObjs) k n,
    dict_get n (kget k (fold_left (fun all obj =>
                          kset k0 (dict_set (name obj) obj (kget k0 all)) all) objs all)) =
    if Kind_eqb k0 k
    then match last_named n objs with
         | Some o => Some o
         | None => dict_get n (kget k all)
         end
    else dict_get n (kget k all).
Proof.
  induction objs as [|o objs IH]; intros all k n; simpl fold_left.
  - unfold last_named; simpl. now destruct (Kind_eqb k0 k).
  - rewrite IH, last_named_cons.
    destruct (Kind_eqb_spec k0 k) as [->|Hk].
    + destruct (last_named n objs); [reflexivity|].
      rewrite kget_kset_same.
      destruct (String.eqb_spec (name o) n) as [->|Hn].
      * apply dict_get_set_same.
      * apply dict_get_set_other. congruence.
    + apply f_equal. apply kget_kset_other. congruence.
Qed.

(** Under each name, the mixed-in dictionary of a kind holds the last
    candidate of that kind with the name, else what it held before. *)
Lemma mix_in_get (extra : list (Kind * list Obj)) :
  forall (all : AllObjs) k n,
    dict_get n (kget k (mix_in extra all)) =
    match last_named n (candidates k extra) with
    | Some o => Some o
    | None => dict_get n (kget k all)
    end.
Proof.
  unfold mix_in.
  induction extra as [|[k0 objs] extra IH]; intros all k n; simpl fold_left.
  - reflexivity.
  - rewrite IH. unfold candidates. simpl flat_map. fold (candidates k extra).
    rewrite last_named_app.
    destruct (last_named n (candidates k extra)); [reflexivity|].
    rewrite mix_in_one_get. simpl fst. simpl snd.
    destruct (Kind_eqb k0 k); [reflexivity|].
    unfold last_named; reflexivity.
Qed.

(** ** Editing and creating *)

(** The end of every [set_*_config] and [new_*], step by step. *)
Lemma commit_eq (k : Kind) (x : Obj) (conf : Conf) (s : State) :
  commit k x conf s =
  match import_result x conf (merged (self s)) with
  | inl e => Raise e s
  | inr a =>
      let x' := set_attrs a x in
      match full_check_config [(k, [x'])] s with
      | Raise e _ => Raise e s
      | Return _ _ =>
          let c' := self (state_of (add_object k x' s)) in
          match writer k x' (world s) with
          | (None, w) => Return x' (mkState c' w)
          | (Some e, w) => Raise e (mkState c' w)
          end
      end
  end.
Proof.
  unfold commit. unfold bind at 1. rewrite get_all_io_objects_dict_merged.
  unfold bind at 1. unfold import_conf, bind at 1, lift_result.
  destruct (import_result x conf (merged (self s))) as [e|a]; [reflexivity|].
  cbv beta iota zeta delta [bind ret].
  pose proof (full_check_config_state [(k, [set_attrs a x])] s) as Hst.
  destruct (full_check_config [(k, [set_attrs a x])] s) as [[] s1|e s1];
    simpl in Hst; subst s1; [|reflexivity].
  rewrite add_object_state. unfold lift_world. cbn [world self state_of].
  destruct (writer k (set_attrs a x) (world s)) as [[e|] w]; reflexivity.
Qed.

Lemma new_object_eq (k : Kind) (n : string) (conf : Conf) (s : State) :
  new_object k n conf s =
  if dict_mem n (custom k (self s)) || dict_mem n (builtins k (self s))
  then Raise (FirewallError NAME_CONFLICT (name_conflict_msg k n)) s
  else match check_name k n with
       | Some e => Raise e s
       | None => commit k (fresh_object k n) conf s
       end.
Proof.
  unfold new_object, check_name_conflict. msimpl.
  destruct (dict_mem n (custom k (self s)) || dict_mem n (builtins k (self s)));
    [reflexivity|].
  destruct (check_name k n); reflexivity.
Qed.

(** C6. [full_check_config] checks, for each kind, one dictionary: under
    each name the last candidate of that kind with the name, else the
    registered object a lookup sees.  It visits the kinds in the order
    ipsets, helpers, icmptypes, services, zones, policies and hands each
    object, with its exported configuration and all six dictionaries, to
    the validator; the first failure is raised and the state is as it was.
    When the check of the candidate of [set_*_config] or [new_*] fails,
    that operation raises the failure and the state is as it was. *)
Theorem full_check_config_merged_in_order (extra : list (Kind * list Obj)) (s : State) :
  let all := mix_in extra (merged (self s)) in
  (forall k n,
      dict_get n (kget k all) =
      match last_named n (candidates k extra) with
      | Some o => Some o
      | None => visible k n (self s)
      end) /\
  full_check_config extra s =
    match first_failure
            (flat_map (fun k =>
               map (fun item =>
                      check_config_dict (snd item) (export_config_dict (snd item)) all)
                   (kget k all))
               [Ipsets; Helpers; Icmptypes; Services; Zones; Policies]) with
    | Some e => Raise e s
    | None => Return tt s
    end /\
  (forall k obj conf a e,
      import_result (edited_copy k obj) conf (merged (self s)) = inr a ->
      full_check_config [(k, [set_attrs a (edited_copy k obj)])] s = Raise e s ->
      set_object_config k obj conf s = Raise e s) /\
  (forall k n conf a e,
      dict_mem n (custom k (self s)) = false ->
      dict_mem n (builtins k (self s)) = false ->
      check_name k n = None ->
      import_result (fresh_object k n) conf (merged (self s)) = inr a ->
      full_check_config [(k, [set_attrs a (fresh_object k n)])] s = Raise e s ->
      new_object k n conf s = Raise e s).
Proof.
  cbv zeta. split; [|split; [|split]].
  - intros k n. rewrite mix_in_get, kget_merged, merged_dict_get. reflexivity.
  - apply full_check_config_eq.
  - intros k obj conf a e Hi Hc.
    unfold set_object_config. cbv zeta. rewrite commit_eq, Hi. cbv zeta.
    now rewrite Hc.
  - intros k n conf a e Hc Hb Hn Hi Hf.
    rewrite new_object_eq, Hc, Hb, Hn. simpl.
    rewrite commit_eq, Hi. cbv zeta. now rewrite Hf.
Qed.

Lemma edited_copy_builtin (k : Kind) (obj : Obj) :
  builtin obj = true ->
  builtin (edited_copy k obj) = false /\
  path (edited_copy k obj) = ETC_FIREWALLD k /\
  name (edited_copy k obj) = name obj /\
  default (edited_copy k obj) =
    (if String.eqb (path obj) (ETC_FIREWALLD k) then default obj else false).
Proof.
  intros Hb. unfold edited_copy. rewrite Hb. simpl.
  destruct (String.eqb (path obj) (ETC_FIREWALLD k)); simpl; auto.
Qed.

Lemma set_object_config_builtin_returns (k : Kind) (obj : Obj) (conf : Conf)
    (s : State) (x : Obj) (s' : State) :
  builtin obj = true ->
  set_object_config k obj conf s = Return x s' ->
  (exists a, x = set_attrs a (edited_copy k obj)) /\
  dict_get (name x) (custom k (self s')) = Some x.
Proof.
  intros Hb. unfold set_object_config. cbv zeta. rewrite commit_eq.
  destruct (edited_copy_builtin k obj Hb) as (Hxb & _).
  destruct (import_result _ _ _) as [e|a]; [discriminate|]. cbv zeta.
  destruct (full_check_config _ s) as [[] s1|e s1]; [|discriminate].
  rewrite add_object_state. simpl builtin. rewrite Hxb. cbn [state_of self].
  destruct (writer _ _ _) as [[e|] w]; [discriminate|].
  intros H. inversion H; subst. split; [eauto|].
  cbn [self]. rewrite custom_set_custom. apply dict_get_set_same.
Qed.

(** C10. Editing an object whose [builtin] flag is set: the object that
    [set_*_config] returns is not builtin, lies in the custom directory of
    its kind, has [default] unset when the original lay elsewhere and the
    original's [default] when it lay there already, and is the entry of
    the custom dictionary under its name.  The edit returns whenever the
    import, the check and the writer succeed. *)
Theorem set_config_of_builtin_makes_custom (k : Kind) (obj : Obj) (s : State) :
  builtin obj = true ->
  (forall x s',
      (exists conf, set_object_config k obj conf s = Return x s') \/
      (exists t, k = Services /\ set_service_config obj t s = Return x s') \/
      (exists t, k = Zones /\ set_zone_config obj t s = Return x s') ->
      builtin x = false /\
      path x = ETC_FIREWALLD k /\
      (path obj <> ETC_FIREWALLD k -> default x = false) /\
      (path obj = ETC_FIREWALLD k -> default x = default obj) /\
      dict_get (name x) (custom k (self s')) = Some x) /\
  (forall conf a w,
      import_result (edited_copy k obj) conf (merged (self s)) = inr a ->
      full_check_config [(k, [set_attrs a (edited_copy k obj)])] s = Return tt s ->
      writer k (set_attrs a (edited_copy k obj)) (world s) = (None, w) ->
      exists s', set_object_config k obj conf s =
                 Return (set_attrs a (edited_copy k obj)) s').
Proof.
  intros Hb. split.
  - intros x s' H.
    assert (Hex : exists conf, set_object_config k obj conf s = Return x s').
    { destruct H as [H|[[t [-> H]]|[t [-> H]]]]; [exact H| |].
      - unfold set_service_config, set_service_config_dict, bind, lift_result in H.
        destruct (enumerate_into _ t []) as [e|d]; [discriminate|].
        exists (ConfDict d). exact H.
      - unfold set_zone_config, set_zone_config_dict, bind, lift_result in H.
        destruct (enumerate_into _ t []) as [e|d]; [discriminate|].
        exists (ConfDict d). exact H. }
    destruct Hex as [conf Hret].
    destruct (set_object_config_builtin_returns k obj conf s x s' Hb Hret) as [[a ->] Hreg].
    destruct (edited_copy_builtin k obj Hb) as (H1 & H2 & H3 & H4).
    simpl in *. repeat split; auto.
    + intros Hne. rewrite H4.
      destruct (String.eqb_spec (path obj) (ETC_FIREWALLD k)); [contradiction|reflexivity].
    + intros He. rewrite H4.
      destruct (String.eqb_spec (path obj) (ETC_FIREWALLD k)); [reflexivity|contradiction].
  - intros conf a w Hi Hc Hw.
    unfold set_object_config. cbv zeta. rewrite commit_eq, Hi. cbv zeta.
    rewrite Hc, Hw. eauto.
Qed.

(** ** Resetting and restoring *)

(** [restore_settings_dict] runs its six loops in the order icmptypes,
    helpers, services, ipsets, policies, zones. *)
Lemma restore_settings_dict_in_order (sd : AllObjs) (fc : option FirewalldConf) (s : State) :
  restore_settings_dict (Some sd) fc s = replay_in_order restore_order sd fc s.
Proof.
  unfold restore_settings_dict, replay_in_order, restore_order.
  cbn [for_each restore_kind]. unfold bind.
  destruct (get_all_io_objects_dict s) as [cur s0|e s0]; [|reflexivity].
  destruct (restore_icmptypes sd cur s0) as [[] s1|e s1]; [|reflexivity].
  destruct (restore_helpers sd cur s1) as [[] s2|e s2]; [|reflexivity].
  destruct (restore_services sd cur s2) as [[] s3|e s3]; [|reflexivity].
  destruct (restore_ipsets sd cur s3) as [[] s4|e s4]; [|reflexivity].
  destruct (restore_policies sd cur s4) as [[] s5|e s5]; [|reflexivity].
  destruct (restore_zones sd cur s5) as [[] s6|e s6]; reflexivity.
Qed.

(** C7, as the code has it.  When [_reset_defaults] raises, the snapshot
    taken before it - the merged dictionaries of all kinds and the
    [firewalld.conf] object - is replayed, and once the replay has
    returned the failure of [_reset_defaults] is raised again.  The replay
    handles the kinds in the order icmptypes, helpers, services, ipsets,
    policies, zones.  Within a kind it takes the objects of the snapshot
    in turn: one whose name is registered with an unequal object goes
    through the kind's [set_*_config], one whose name is registered with
    an equal object is left alone, and a missing icmptype, helper or zone
    goes through the kind's [new_*]. *)
Theorem reset_defaults_replays_in_source_order (s : State) :
  (forall e s1,
      _reset_defaults s = Raise e s1 ->
      reset_defaults s =
      match restore_settings_dict (Some (merged (self s))) (_firewalld_conf (self s)) s1 with
      | Return _ s2 => Raise e s2
      | Raise e' s2 => Raise e' s2
      end) /\
  (forall sd fc s1,
      restore_settings_dict (Some sd) fc s1 =
      replay_in_order [Icmptypes; Helpers; Services; Ipsets; Policies; Zones] sd fc s1) /\
  (forall k (sd cur : AllObjs),
      exists body : Obj -> M unit,
        (forall s1, restore_kind k sd cur s1 = for_each (dict_values (kget k sd)) body s1) /\
        (forall o current_obj s1,
            dict_get (name o) (kget k cur) = Some current_obj ->
            obj_ne current_obj o = true ->
            body o s1 = bind (update_entry_point k current_obj o) (fun _ => ret tt) s1) /\
        (forall o current_obj s1,
            dict_get (name o) (kget k cur) = Some current_obj ->
            obj_ne current_obj o = false ->
            body o s1 = Return tt s1) /\
        (forall o s1,
            dict_get (name o) (kget k cur) = None ->
            k = Icmptypes \/ k = Helpers \/ k = Zones ->
            body o s1 = bind (create_entry_point k o) (fun _ => ret tt) s1)).
Proof.
  split; [|split].
  - intros e s1 Hreset.
    unfold reset_defaults. unfold bind at 1.
    rewrite get_all_io_objects_dict_merged.
    unfold bind at 1, get_self, try_except. rewrite Hreset.
    unfold bind. cbn [self].
    now destruct (restore_settings_dict _ _ s1).
  - intros sd fc s1. apply restore_settings_dict_in_order.
  - intros k sd cur.
    destruct k.
    + eexists. split; [intros s1; reflexivity|]. cbn [kget].
      repeat split.
      * intros o c s1 Hc Hne. unfold restore_step. now rewrite Hc, Hne.
      * intros o c s1 Hc Hne. unfold restore_step. now rewrite Hc, Hne.
      * intros o s1 Hc [H|[H|H]]; discriminate H.
    + eexists. split; [intros s1; reflexivity|]. cbn [kget].
      repeat split.
      * intros o c s1 Hc Hne. unfold restore_step. now rewrite Hc, Hne.
      * intros o c s1 Hc Hne. unfold restore_step. now rewrite Hc, Hne.
      * intros o s1 Hc _. unfold restore_step. now rewrite Hc.
    + eexists. split; [intros s1; reflexivity|]. cbn [kget].
      repeat split.
      * intros o c s1 Hc Hne. unfold restore_step. now rewrite Hc, Hne.
      * intros o c s1 Hc Hne. unfold restore_step. now rewrite Hc, Hne.
      * intros o s1 Hc _. unfold restore_step. now rewrite Hc.
    + eexists. split; [intros s1; reflexivity|]. cbn [kget].
      repeat split.
      * intros o c s1 Hc Hne. unfold restore_step. now rewrite Hc, Hne.
      * intros o c s1 Hc Hne. unfold restore_step. now rewrite Hc, Hne.
      * intros o s1 Hc [H|[H|H]]; discriminate H.
    + eexists. split; [intros s1; reflexivity|]. cbn [kget].
      repeat split.
      * intros o c s1 Hc Hne. unfold restore_step. now rewrite Hc, Hne.
      * intros o c s1 Hc Hne. unfold restore_step. now rewrite Hc, Hne.
      * intros o s1 Hc _. unfold restore_step. now rewrite Hc.
    + eexists. split; [intros s1; reflexivity|]. cbn [kget].
      repeat split.
      * intros o c s1 Hc Hne. unfold restore_step. now rewrite Hc, Hne.
      * intros o c s1 Hc Hne. unfold restore_step. now rewrite Hc, Hne.
      * intros o s1 Hc [H|[H|H]]; discriminate H.
Qed.

(** The loops over services, ipsets and policies never create an object:
    an object of the snapshot whose name is not registered is skipped. *)
Lemma for_each_skip {A} (l : list A) (body : A -> M unit) :
  (forall x, In x l -> forall s, body x s = Return tt s) ->
  forall s, for_each l body s = Return tt s.
Proof.
  induction l as [|x l IH]; intros H s; simpl; [reflexivity|].
  unfold bind. rewrite H by now left.
  apply IH. intros y Hy. apply H. now right.
Qed.

Lemma restore_skips_missing (k : Kind) (sd cur : AllObjs) :
  k = Services \/ k = Ipsets \/ k = Policies ->
  (forall o, In o (dict_values (kget k sd)) -> dict_get (name o) (kget k cur) = None) ->
  forall s, restore_kind k sd cur s = Return tt s.
Proof.
  intros Hk Hmiss s.
  destruct Hk as [-> | [-> | ->]]; cbn [restore_kind kget] in *;
    apply for_each_skip; intros o Ho s'; unfold restore_step;
    now rewrite (Hmiss o Ho).
Qed.

(** ** The registry stays keyed by name *)

Lemma keyed_by_name_set (d : Dict Obj) (o : Obj) :
  keyed_by_name d -> keyed_by_name (dict_set (name o) o d).
Proof.
  unfold keyed_by_name. induction d as [|[k v] d IH]; simpl; intros H x obj Hin.
  - destruct Hin as [Hin|[]]. now inversion Hin.
  - destruct (String.eqb (name o) k).
    + destruct Hin as [Hin|Hin]; [now inversion Hin|]. apply H. now right.
    + destruct Hin as [Hin|Hin]; [apply H; now left|].
      apply IH; [|exact Hin]. intros y w Hy. apply H. now right.
Qed.

Lemma keyed_by_name_del (d : Dict Obj) (x : string) :
  keyed_by_name d -> keyed_by_name (dict_del x d).
Proof.
  unfold keyed_by_name, dict_del. intros H y obj Hin.
  apply filter_In in Hin. apply H. tauto.
Qed.

Lemma registry_keyed_set_custom k d c :
  registry_keyed c -> keyed_by_name d -> registry_keyed (set_custom k d c).
Proof.
  intros Hc Hd k'. rewrite builtins_set_custom. split; [|apply Hc].
  destruct (Kind_eqb_spec k' k) as [->|Hne].
  - now rewrite custom_set_custom.
  - rewrite custom_set_custom_other by assumption. apply Hc.
Qed.

Lemma registry_keyed_set_builtins k d c :
  registry_keyed c -> keyed_by_name d -> registry_keyed (set_builtins k d c).
Proof.
  intros Hc Hd k'. rewrite custom_set_builtins. split; [apply Hc|].
  destruct (Kind_eqb_spec k' k) as [->|Hne].
  - now rewrite builtins_set_builtins.
  - rewrite builtins_set_builtins_other by assumption. apply Hc.
Qed.

Lemma registry_keyed_init : registry_keyed init_vars.
Proof. intros k. split; destruct k; intros x o []. Qed.

Lemma preserves_ret {A} (a : A) : preserves (ret a).
Proof. intros s H. exact H. Qed.

Lemma preserves_raise {A} (e : Exception) : preserves (@raise E A e).
Proof. intros s H. exact H. Qed.

Lemma preserves_bind {A B} (m : M A) (f : A -> M B) :
  preserves m -> (forall a, preserves (f a)) -> preserves (bind m f).
Proof.
  intros Hm Hf s H. unfold bind. specialize (Hm s H).
  destruct (m s) as [a s'|e s']; simpl in Hm; [now apply Hf|exact Hm].
Qed.

Lemma preserves_try_except {A} (m : M A) (h : Exception -> M A) :
  preserves m -> (forall e, preserves (h e)) -> preserves (try_except m h).
Proof.
  intros Hm Hh s H. unfold try_except. specialize (Hm s H).
  destruct (m s) as [a s'|e s']; simpl in Hm; [exact Hm|now apply Hh].
Qed.

Lemma preserves_for_each {A} (l : list A) (body : A -> M unit) :
  (forall x, preserves (body x)) -> preserves (for_each l body).
Proof.
  intros Hb. induction l as [|x l IH]; simpl.
  - apply preserves_ret.
  - apply preserves_bind; [apply Hb|intros _; exact IH].
Qed.

Lemma preserves_get_self : preserves get_self.
Proof. intros s H. exact H. Qed.

Lemma preserves_get_world : preserves get_world.
Proof. intros s H. exact H. Qed.

Lemma preserves_lift_check r : preserves (lift_check r).
Proof. destruct r; [apply preserves_raise|apply preserves_ret]. Qed.

Lemma preserves_lift_result {A} (r : Exception + A) : preserves (lift_result r).
Proof. destruct r; [apply preserves_raise|apply preserves_ret]. Qed.

Lemma preserves_lift_world f : preserves (lift_world f).
Proof.
  intros s H. unfold lift_world.
  destruct (f (world s)) as [[e|] w]; exact H.
Qed.

Lemma preserves_modify_self (f : FirewallConfig -> FirewallConfig) :
  (forall c, registry_keyed c -> registry_keyed (f c)) -> preserves (modify_self f).
Proof. intros Hf s H. now apply Hf. Qed.

Lemma preserves_same_state {A} (m : M A) :
  (forall s, state_of (m s) = s) -> preserves m.
Proof. intros Hm s H. now rewrite Hm. Qed.

Lemma preserves_get_all : preserves get_all_io_objects_dict.
Proof.
  apply preserves_same_state. intros s.
  now rewrite get_all_io_objects_dict_merged.
Qed.

Lemma preserves_full_check extra : preserves (full_check_config extra).
Proof. apply preserves_same_state. apply full_check_config_state. Qed.

Lemma preserves_set_firewalld_conf conf : preserves (set_firewalld_conf conf).
Proof. apply preserves_modify_self. intros c H k. apply (H k). Qed.

Ltac keeps :=
  repeat first
    [ apply preserves_ret | apply preserves_raise
    | apply preserves_get_self | apply preserves_get_world
    | apply preserves_lift_check | apply preserves_lift_result
    | apply preserves_lift_world | apply preserves_get_all
    | apply preserves_full_check | apply preserves_set_firewalld_conf
    | apply preserves_bind; [|intros ?]
    | apply preserves_try_except; [|intros ?]
    | apply preserves_for_each; intros ?
    | apply preserves_modify_self; intros ? ?
    | apply registry_keyed_set_custom; [assumption|]
    | apply registry_keyed_set_builtins; [assumption|]
    | apply keyed_by_name_set | apply keyed_by_name_del
    | match goal with
      | H : registry_keyed ?c |- keyed_by_name (custom ?k ?c) => apply (H k)
      | H : registry_keyed ?c |- keyed_by_name (builtins ?k ?c) => apply (H k)
      | |- preserves (match ?x with _ => _ end) => destruct x
      | |- preserves (let (_, _) := ?x in _) => destruct x
      | |- registry_keyed (if ?b then _ else _) => destruct b
      | |- registry_keyed ?c => assumption
      end ].

Lemma preserves_add_object k obj : preserves (add_object k obj).
Proof. unfold add_object. keeps. Qed.

Lemma preserves_forget_zone n : preserves (forget_zone n).
Proof. unfold forget_zone. keeps. Qed.

Lemma preserves_commit k x conf : preserves (commit k x conf).
Proof. unfold commit, import_conf. keeps; try apply preserves_add_object. Qed.

Lemma preserves_set_object_config k obj conf : preserves (set_object_config k obj conf).
Proof. unfold set_object_config. cbv zeta. apply preserves_commit. Qed.

Lemma preserves_new_object k n conf : preserves (new_object k n conf).
Proof.
  unfold new_object, check_name_conflict. cbv zeta. keeps; try apply preserves_commit.
Qed.

Lemma preserves_update_object_from_path k nm : preserves (update_object_from_path k nm).
Proof.
  unfold update_object_from_path. cbv zeta. keeps; try apply preserves_add_object.
Qed.

Lemma preserves__remove_object k obj : preserves (_remove_object k obj).
Proof. unfold _remove_object, backup_file. keeps. Qed.

Lemma preserves_remove_object k obj : preserves (remove_object k obj).
Proof.
  unfold remove_object, check_builtin_object. keeps; try apply preserves__remove_object.
Qed.

Lemma preserves_rename_object k obj n : preserves (rename_object k obj n).
Proof.
  destruct k; unfold rename_object, rename_ipset, rename_icmptype, rename_service,
    rename_zone, rename_policy_object, rename_helper, rename_by_copy,
    _copy_ipset, _copy_icmptype, _copy_service, _copy_policy_object, _copy_helper,
    new_ipset, new_icmptype, new_service_dict, new_zone_dict, new_policy_object_dict,
    new_helper, check_builtin_object; cbv zeta; keeps;
    try first [apply preserves_new_object | apply preserves__remove_object].
Qed.

Lemma preserves__reset_defaults : preserves _reset_defaults.
Proof.
  unfold _reset_defaults, backup_file, firewalld_conf_set_defaults, firewalld_conf_write.
  keeps.
Qed.

Lemma preserves_restore_settings_dict sd fc : preserves (restore_settings_dict sd fc).
Proof.
  unfold restore_settings_dict, restore_icmptypes, restore_helpers, restore_services,
    restore_ipsets, restore_policies, restore_zones, restore_step, firewalld_conf_write,
    set_icmptype_config, set_helper_config, set_service_config, set_ipset_config,
    set_policy_object_config_dict, set_zone_config, set_service_config_dict,
    set_zone_config_dict, new_icmptype, new_helper, new_service, new_ipset,
    new_policy_object_dict, new_zone, new_service_dict, new_zone_dict, check_name_conflict.
  keeps; try first [apply preserves_set_object_config | apply preserves_new_object].
Qed.

(** Every operation of the registry keeps its dictionaries keyed by the
    names of their objects; the registry starts that way. *)
Lemma preserves_reset_defaults : preserves reset_defaults.
Proof.
  unfold reset_defaults. cbv zeta.
  apply preserves_bind; [apply preserves_get_all|intros backup].
  apply preserves_bind; [apply preserves_get_self|intros c].
  apply preserves_try_except; [apply preserves__reset_defaults|intros e].
  apply preserves_bind; [apply preserves_restore_settings_dict|intros _].
  apply preserves_raise.
Qed.


(** ** More on files that change *)

Lemma find_by_filename_none (d : Dict Obj) keys fname :
  (forall x o, dict_get x d = Some o -> filename o <> fname) ->
  find_by_filename d keys fname = None.
Proof.
  intros H. induction keys as [|y keys IH]; simpl; [reflexivity|].
  destruct (dict_get y d) as [o|] eqn:Ey; [|exact IH].
  destruct (String.eqb_spec (filename o) fname) as [Hf|Hf]; [|exact IH].
  now elim (H y o Ey).
Qed.

Lemma visible_none_mem k n c :
  visible k n c = None ->
  dict_mem n (custom k c) = false /\ dict_mem n (builtins k c) = false.
Proof.
  unfold visible, dict_mem.
  destruct (dict_get n (custom k c)); [discriminate|].
  destruct (dict_get n (builtins k c)); [discriminate|auto].
Qed.

(** X1. A file exists, it can be read, and neither dictionary of the kind
    holds the name of the object read (for a zone or policy, its combined
    name): the object is stored in the dictionary its [builtin] flag
    names, whatever directory the file lies in, the result is
    [("new", object)], and from then on the name is listed and, for a
    custom object, resolves to the object. *)
Theorem update_from_path_unknown_name_is_new
    (k : Kind) (nm : string) (s : State) (read_obj : Obj) :
  os_path_exists nm (world s) = true ->
  reader k (basename nm) (dirname nm) (world s) = inr read_obj ->
  let obj := combined_name k (dirname nm) (basename nm) read_obj in
  visible k (name obj) (self s) = None ->
  let s' := state_of (add_object k obj s) in
  update_object_from_path k nm s = Return (Some "new", Some obj) s' /\
  world s' = world s /\
  dict_get (name obj) (if builtin obj then builtins k (self s') else custom k (self s'))
    = Some obj /\
  In (name obj) (get_objects k (self s')) /\
  get_object k (name obj) s' = Return obj s'.
Proof.
  intros Hex Hr obj Hv s'.
  destruct (visible_none_mem _ _ _ Hv) as [Hc Hb].
  assert (Hc' : dict_get (name obj) (custom k (self s)) = None).
  { unfold dict_mem in Hc. now destruct (dict_get (name obj) (custom k (self s))). }
  assert (Hreg : dict_get (name obj)
                   (if builtin obj then builtins k (self s') else custom k (self s'))
                 = Some obj).
  { subst s'. rewrite add_object_state. cbn [state_of self].
    destruct (builtin obj).
    - rewrite builtins_set_builtins. apply dict_get_set_same.
    - rewrite custom_set_custom. apply dict_get_set_same. }
  assert (Hvis : visible k (name obj) (self s') = Some obj).
  { unfold visible. revert Hreg. subst s'. rewrite add_object_state. cbn [state_of self].
    destruct (builtin obj).
    - rewrite custom_set_builtins, Hc'. auto.
    - intros ->. reflexivity. }
  split; [|split; [|split; [|split]]].
  - unfold update_object_from_path. msimpl. rewrite Hex, Hr. simpl. fold obj.
    now rewrite Hb, Hc.
  - reflexivity.
  - exact Hreg.
  - eapply visible_listed; eauto.
  - rewrite get_object_visible. now rewrite Hvis.
Qed.


(** X3. A file has disappeared and no entry of the dictionary searched -
    the custom one for a file of the custom directory, the builtin one
    otherwise - has its file name: the result is [(None, None)] and the
    state is as it was. *)
Theorem update_from_path_unknown_file_deleted (k : Kind) (nm : string) (s : State) :
  os_path_exists nm (world s) = false ->
  (forall x o,
      dict_get x (if is_custom_path k (dirname nm)
                  then custom k (self s) else builtins k (self s)) = Some o ->
      filename o <> basename nm) ->
  update_object_from_path k nm s = Return (None, None) s.
Proof.
  intros Hex Hno.
  unfold update_object_from_path, bind, get_world, get_self, modify_self, ret.
  rewrite Hex. cbn [negb].
  destruct (is_custom_path k (dirname nm)); now rewrite find_by_filename_none.
Qed.

(** X4. A file outside the custom directory is new or changed, it can be
    read, and the builtin dictionary holds the name of the object read:
    the builtin entry is deleted and the object stored in its place, at
    the end of the dictionary; the result is [("update", object)] when no
    custom object has the name, and [(None, None)] when one has, in which
    case the name resolves to the custom object as before. *)
Theorem update_from_path_builtin_file_changed
    (k : Kind) (nm : string) (s : State) (read_obj old : Obj) :
  os_path_exists nm (world s) = true ->
  reader k (basename nm) (dirname nm) (world s) = inr read_obj ->
  is_custom_path k (dirname nm) = false ->
  let obj := combined_name k (dirname nm) (basename nm) read_obj in
  dict_get (name obj) (builtins k (self s)) = Some old ->
  let s' := mkState (set_builtins k
                       (dict_set (name obj) obj (dict_del (name obj) (builtins k (self s))))
                       (self s))
                    (world s) in
  dict_get (name obj) (builtins k (self s')) = Some obj /\
  match dict_get (name obj) (custom k (self s)) with
  | None =>
      update_object_from_path k nm s = Return (Some "update", Some obj) s' /\
      get_object k (name obj) s' = Return obj s'
  | Some c =>
      update_object_from_path k nm s = Return (None, None) s' /\
      get_object k (name obj) s' = Return c s'
  end.
Proof.
  intros Hex Hr Hcp obj Hold s'.
  assert (Hb : dict_mem (name obj) (builtins k (self s)) = true).
  { unfold dict_mem. now rewrite Hold. }
  assert (Hset : dict_get (name obj) (builtins k (self s')) = Some obj).
  { subst s'. cbn [self]. rewrite builtins_set_builtins. apply dict_get_set_same. }
  split; [exact Hset|].
  assert (Hupd : update_object_from_path k nm s =
                 Return (if negb (dict_mem (name obj) (custom k (self s)))
                         then (Some "update", Some obj) else (None, None)) s').
  { unfold update_object_from_path. msimpl. rewrite Hex, Hr. simpl. fold obj.
    rewrite Hb. simpl. rewrite Hcp. fold s'. rewrite custom_set_builtins.
    now destruct (dict_mem (name obj) (custom k (self s))). }
  rewrite Hupd. unfold dict_mem. rewrite !get_object_visible. unfold visible.
  assert (Hcs : custom k (self s') = custom k (self s)) by reflexivity.
  rewrite Hcs, Hset.
  destruct (dict_get (name obj) (custom k (self s))); auto.
Qed.

(** X5. A file of the custom directory is new or changed, it can be read,
    and only the builtin dictionary holds the name of the object read:
    the result is [("update", object)], yet the object is stored nowhere;
    the state is as it was and the name still resolves to the builtin
    object. *)
Theorem update_from_path_custom_file_shadowing_builtin_not_stored
    (k : Kind) (nm : string) (s : State) (read_obj b : Obj) :
  os_path_exists nm (world s) = true ->
  reader k (basename nm) (dirname nm) (world s) = inr read_obj ->
  is_custom_path k (dirname nm) = true ->
  let obj := combined_name k (dirname nm) (basename nm) read_obj in
  dict_get (name obj) (custom k (self s)) = None ->
  dict_get (name obj) (builtins k (self s)) = Some b ->
  update_object_from_path k nm s = Return (Some "update", Some obj) s /\
  get_object k (name obj) s = Return b s.
Proof.
  intros Hex Hr Hcp obj Hc Hb. split.
  - unfold update_object_from_path. msimpl. rewrite Hex, Hr. simpl. fold obj.
    unfold dict_mem. rewrite Hb, Hc. simpl. rewrite Hcp. reflexivity.
  - rewrite get_object_visible. unfold visible. now rewrite Hc, Hb.
Qed.

(** ** More on removing *)

(** [_remove_*] once both of its tests have passed: the file is renamed,
    or deleted when the renaming fails; the entry goes only when one of
    the two has worked. *)
Lemma _remove_object_eq (k : Kind) (obj : Obj) (s : State) :
  _remove_object k obj s =
  if negb (dict_mem (name obj) (custom k (self s)))
  then Raise (FirewallError (INVALID_OBJECT k) (name obj)) s
  else if negb (is_custom_path k (path obj))
  then Raise (FirewallError INVALID_DIRECTORY (invalid_directory_msg k (path obj))) s
  else
    let f := (path obj ++ "/" ++ name obj ++ ".xml")%string in
    let dropped := set_custom k (dict_del (name obj) (custom k (self s))) (self s) in
    match shutil_move f (f ++ ".old")%string (world s) with
    | (None, w1) => Return tt (mkState dropped w1)
    | (Some _, w1) =>
        match os_remove f w1 with
        | (None, w2) => Return tt (mkState dropped w2)
        | (Some e2, w2) => Raise e2 (mkState (self s) w2)
        end
    end.
Proof.
  unfold _remove_object, backup_file. msimpl.
  destruct (negb (dict_mem (name obj) (custom k (self s)))); [reflexivity|].
  destruct (negb (is_custom_path k (path obj))); [reflexivity|].
  destruct (shutil_move _ _ (world s)) as [[e1|] w1]; simpl; [|reflexivity].
  destruct (os_remove _ w1) as [[e2|] w2]; reflexivity.
Qed.

(** X6. A removal that raises, for whatever reason, leaves the registry
    as it was.  For an object that may be removed, a name the custom
    dictionary does not hold raises the kind's [INVALID_*] error, and a
    registered name whose object lies outside the custom directory raises
    [INVALID_DIRECTORY]; neither touches the files. *)
Theorem remove_object_failure_keeps_registry (k : Kind) (obj : Obj) (s : State) :
  (forall e s', remove_object k obj s = Raise e s' -> self s' = self s) /\
  (builtin obj = false -> default obj = true ->
   dict_get (name obj) (custom k (self s)) = None ->
   remove_object k obj s = Raise (FirewallError (INVALID_OBJECT k) (name obj)) s) /\
  (forall registered,
      builtin obj = false -> default obj = true ->
      dict_get (name obj) (custom k (self s)) = Some registered ->
      is_custom_path k (path obj) = false ->
      remove_object k obj s =
      Raise (FirewallError INVALID_DIRECTORY (invalid_directory_msg k (path obj))) s).
Proof.
  split; [|split].
  - intros e s'. unfold remove_object, bind, check_builtin_object.
    destruct (builtin obj || negb (default obj)).
    + intros H. now inversion H.
    + unfold ret. rewrite _remove_object_eq.
      destruct (negb (dict_mem (name obj) (custom k (self s)))); [intros H; now inversion H|].
      destruct (negb (is_custom_path k (path obj))); [intros H; now inversion H|].
      cbv zeta.
      destruct (shutil_move _ _ (world s)) as [[e1|] w1]; [|discriminate].
      destruct (os_remove _ w1) as [[e2|] w2]; [|discriminate].
      intros H. now inversion H.
  - intros Hb Hd Hn. unfold remove_object, bind.
    rewrite check_builtin_object_returns by assumption.
    rewrite _remove_object_eq. unfold dict_mem. now rewrite Hn.
  - intros r Hb Hd Hr Hp. unfold remove_object, bind.
    rewrite check_builtin_object_returns by assumption.
    rewrite _remove_object_eq. unfold dict_mem. now rewrite Hr, Hp.
Qed.

(** X7. Removing a registered custom object that may be removed: its file
    [path/name.xml] is renamed to [path/name.xml.old]; when the renaming
    raises, the file is deleted instead; when the deletion raises too,
    its exception - not that of the renaming - is raised and the object
    stays registered; otherwise the custom entry, and nothing else of the
    registry, is dropped. *)
Theorem remove_object_backs_up_then_drops (k : Kind) (obj registered : Obj) (s : State) :
  builtin obj = false -> default obj = true ->
  dict_get (name obj) (custom k (self s)) = Some registered ->
  is_custom_path k (path obj) = true ->
  let f := (path obj ++ "/" ++ name obj ++ ".xml")%string in
  let dropped := set_custom k (dict_del (name obj) (custom k (self s))) (self s) in
  remove_object k obj s =
  match shutil_move f (f ++ ".old")%string (world s) with
  | (None, w1) => Return tt (mkState dropped w1)
  | (Some _, w1) =>
      match os_remove f w1 with
      | (None, w2) => Return tt (mkState dropped w2)
      | (Some e2, w2) => Raise e2 (mkState (self s) w2)
      end
  end.
Proof.
  intros Hb Hd Hr Hp f dropped. unfold remove_object, bind.
  rewrite check_builtin_object_returns by assumption.
  rewrite _remove_object_eq. unfold dict_mem. rewrite Hr, Hp. reflexivity.
Qed.

(** X8. Reverting an object to its builtin: when the custom dictionary
    does not hold its name, holds an object unequal to it, or the builtin
    dictionary does not hold the name, [NO_DEFAULTS] is raised and the
    state is as it was.  Otherwise the custom entry is removed as by
    [_remove_*] - the [builtin] and [default] flags of the object are not
    consulted - and when that returns the result is the builtin object,
    to which the name resolves from then on. *)
Theorem load_object_defaults_reverts_to_builtin (k : Kind) (obj : Obj) (s : State) :
  (dict_get (name obj) (custom k (self s)) = None ->
   load_object_defaults k obj s = Raise (FirewallError NO_DEFAULTS (name obj)) s) /\
  (forall registered,
      dict_get (name obj) (custom k (self s)) = Some registered ->
      obj_ne registered obj = true ->
      load_object_defaults k obj s =
      Raise (FirewallError NO_DEFAULTS (differs_msg k (name obj))) s) /\
  (forall registered,
      dict_get (name obj) (custom k (self s)) = Some registered ->
      obj_ne registered obj = false ->
      dict_get (name obj) (builtins k (self s)) = None ->
      load_object_defaults k obj s =
      Raise (FirewallError NO_DEFAULTS (not_builtin_msg k (name obj))) s) /\
  (forall registered b,
      dict_get (name obj) (custom k (self s)) = Some registered ->
      obj_ne registered obj = false ->
      dict_get (name obj) (builtins k (self s)) = Some b ->
      match _remove_object k obj s with
      | Return _ s' =>
          load_object_defaults k obj s = Return b s' /\
          get_object k (name obj) s' = Return b s'
      | Raise e s' =>
          load_object_defaults k obj s = Raise e s' /\ self s' = self s
      end).
Proof.
  split; [|split; [|split]].
  - intros Hn. unfold load_object_defaults. msimpl. now rewrite Hn.
  - intros r Hr Hne. unfold load_object_defaults. msimpl. now rewrite Hr, Hne.
  - intros r Hr Hne Hb. unfold load_object_defaults. msimpl.
    rewrite Hr, Hne. unfold dict_mem. now rewrite Hb.
  - intros r b Hr Hne Hb.
    assert (Hload : load_object_defaults k obj s =
                    match _remove_object k obj s with
                    | Return _ s' =>
                        match dict_get (name obj) (builtins k (self s')) with
                        | Some b' => Return b' s'
                        | None => Raise (OtherException "KeyError") s'
                        end
                    | Raise e s' => Raise e s'
                    end).
    { unfold load_object_defaults. unfold bind at 1. unfold get_self at 1.
      rewrite Hr, Hne. unfold dict_mem. rewrite Hb. cbn [negb].
      unfold bind, get_self, ret, raise.
      destruct (_remove_object k obj s) as [[] s1|e s1]; [|reflexivity].
      now destruct (dict_get (name obj) (builtins k (self s1))). }
    rewrite Hload.
    destruct (_remove_object k obj s) as [[] s1|e s1] eqn:Erm.
    + apply _remove_object_returns in Erm.
      assert (Hb1 : dict_get (name obj) (builtins k (self s1)) = Some b).
      { now rewrite Erm, builtins_set_custom. }
      rewrite Hb1. split; [reflexivity|].
      rewrite get_object_visible. unfold visible.
      rewrite Hb1, Erm, custom_set_custom, dict_get_del_same. reflexivity.
    + split; [reflexivity|].
      rewrite _remove_object_eq in Erm. revert Erm.
      destruct (negb (dict_mem (name obj) (custom k (self s)))); [intros H; now inversion H|].
      destruct (negb (is_custom_path k (path obj))); [intros H; now inversion H|].
      cbv zeta.
      destruct (shutil_move _ _ (world s)) as [[e1|] w1]; [|discriminate].
      destruct (os_remove _ w1) as [[e2|] w2]; [|discriminate].
      intros H. now inversion H.
Qed.

(** ** Registering, listing, looking up *)

Lemma visible_set_custom_other k k' n d c :
  k' <> k -> visible k' n (set_custom k d c) = visible k' n c.
Proof.
  intros H. unfold visible.
  now rewrite custom_set_custom_other, builtins_set_custom by assumption.
Qed.

Lemma visible_set_builtins_other k k' n d c :
  k' <> k -> visible k' n (set_builtins k d c) = visible k' n c.
Proof.
  intros H. unfold visible.
  now rewrite builtins_set_builtins_other, custom_set_builtins by assumption.
Qed.

(** X9. Registering always returns.  A custom object is what its name
    resolves to afterwards; a builtin object is, unless a custom object
    has the name, which then still wins.  The name is listed, and no
    other name of any kind resolves differently than before. *)
Theorem add_object_then_lookup (k : Kind) (obj : Obj) (s : State) :
  let s' := state_of (add_object k obj s) in
  add_object k obj s = Return tt s' /\
  world s' = world s /\
  get_object k (name obj) s' =
    (if builtin obj
     then match dict_get (name obj) (custom k (self s)) with
          | Some c => Return c s'
          | None => Return obj s'
          end
     else Return obj s') /\
  In (name obj) (get_objects k (self s')) /\
  (forall k' n, k' <> k \/ n <> name obj ->
                visible k' n (self s') = visible k' n (self s)).
Proof.
  intros s'. subst s'. rewrite add_object_state. cbn [state_of self world].
  assert (Hvis : visible k (name obj)
                   (if builtin obj
                    then set_builtins k (dict_set (name obj) obj (builtins k (self s))) (self s)
                    else set_custom k (dict_set (name obj) obj (custom k (self s))) (self s))
                 = if builtin obj
                   then match dict_get (name obj) (custom k (self s)) with
                        | Some c => Some c
                        | None => Some obj
                        end
                   else Some obj).
  { unfold visible. destruct (builtin obj).
    - rewrite custom_set_builtins, builtins_set_builtins, dict_get_set_same.
      now destruct (dict_get (name obj) (custom k (self s))).
    - now rewrite custom_set_custom, dict_get_set_same. }
  split; [reflexivity|]. split; [reflexivity|]. split; [|split].
  - rewrite get_object_visible. cbn [self]. rewrite Hvis.
    destruct (builtin obj); [|reflexivity].
    now destruct (dict_get (name obj) (custom k (self s))).
  - destruct (builtin obj) eqn:Eb.
    + destruct (dict_get (name obj) (custom k (self s))) eqn:Ec;
        eapply visible_listed; exact Hvis.
    + eapply visible_listed; exact Hvis.
  - intros k' n Hne.
    destruct (Kind_eqb_spec k' k) as [->|Hk].
    + destruct Hne as [Hne|Hne]; [congruence|].
      unfold visible. destruct (builtin obj).
      * rewrite custom_set_builtins, builtins_set_builtins.
        now rewrite dict_get_set_other by assumption.
      * rewrite custom_set_custom, builtins_set_custom.
        now rewrite dict_get_set_other by assumption.
    + destruct (builtin obj).
      * now apply visible_set_builtins_other.
      * now apply visible_set_custom_other.
Qed.

Lemma str_lt_irrefl a : ~ str_lt a a.
Proof.
  unfold str_lt. intros H.
  assert (He : String.compare a a = Eq) by (apply String_as_OT.cmp_eq; reflexivity).
  congruence.
Qed.

Lemma StronglySorted_str_lt_NoDup l : StronglySorted str_lt l -> NoDup l.
Proof.
  induction 1 as [|a l Hs IH Hall]; constructor; [|exact IH].
  intros Hin. rewrite Forall_forall in Hall.
  exact (str_lt_irrefl a (Hall a Hin)).
Qed.

(** X10. The list of a kind is strictly increasing in the order of
    [String.compare] - sorted, each name once - and holds exactly the
    names that resolve: a name is listed if and only if its lookup
    returns an object. *)
Theorem get_objects_sorted_and_exact (k : Kind) (s : State) :
  StronglySorted str_lt (get_objects k (self s)) /\
  NoDup (get_objects k (self s)) /\
  (forall n, In n (get_objects k (self s)) <-> exists o, get_object k n s = Return o s) /\
  (forall n, ~ In n (get_objects k (self s)) <->
             get_object k n s = Raise (FirewallError (INVALID_OBJECT k) (not_found_msg k n)) s).
Proof.
  assert (Hs : StronglySorted str_lt (get_objects k (self s))) by apply sorted_set_sorted.
  split; [exact Hs|]. split; [now apply StronglySorted_str_lt_NoDup|]. split.
  - intros n. rewrite get_object_visible. split.
    + intros H. apply listed_visible in H. destruct H as [o Ho]. rewrite Ho. eauto.
    + intros [o Ho]. destruct (visible k n (self s)) as [o'|] eqn:Ev; [|discriminate].
      eapply visible_listed; eauto.
  - intros n. rewrite get_object_visible. split.
    + intros H. destruct (visible k n (self s)) as [o'|] eqn:Ev; [|reflexivity].
      elim H. eapply visible_listed; eauto.
    + intros H Hin. apply listed_visible in Hin. destruct Hin as [o Ho].
      rewrite Ho in H. discriminate.
Qed.

Lemma dict_keys_set_new {V} (n : string) (v : V) (d : Dict V) :
  dict_get n d = None -> dict_keys (dict_set n v d) = dict_keys d ++ [n].
Proof.
  induction d as [|[k' v'] d IH]; simpl; [reflexivity|].
  destruct (String.eqb n k'); [discriminate|].
  intros H. simpl. now rewrite IH.
Qed.

Lemma fold_merge_keys k c names :
  forall acc,
    NoDup names ->
    (forall n, In n names -> exists o, visible k n c = Some o) ->
    (forall n, In n names -> dict_get n acc = None) ->
    dict_keys (fold_left (fun acc n =>
                            match visible k n c with
                            | Some o => dict_set n o acc
                            | None => acc
                            end) names acc) = dict_keys acc ++ names.
Proof.
  induction names as [|m names IH]; intros acc Hnd Hvis Hacc; simpl.
  - now rewrite app_nil_r.
  - inversion Hnd as [|? ? Hnin Hnd']; subst.
    destruct (Hvis m (or_introl eq_refl)) as [o Ho]. rewrite Ho.
    rewrite IH.
    + rewrite dict_keys_set_new by (apply Hacc; now left).
      now rewrite <- app_assoc.
    + exact Hnd'.
    + intros n Hn. apply Hvis. now right.
    + intros n Hn. rewrite dict_get_set_other; [apply Hacc; now right|].
      intros ->. contradiction.
Qed.

(** X11. [get_all_io_objects_dict] always returns and leaves the state as
    it was.  For each kind its dictionary has the listed names as keys,
    in the order of the list, and under each name the object that the
    lookup of the name returns; a name it lacks is one whose lookup
    raises. *)
Theorem get_all_io_objects_dict_agrees_with_lookup (s : State) :
  exists all,
    get_all_io_objects_dict s = Return all s /\
    forall k,
      dict_keys (kget k all) = get_objects k (self s) /\
      forall n,
        match dict_get n (kget k all) with
        | Some o => get_object k n s = Return o s
        | None => get_object k n s =
                  Raise (FirewallError (INVALID_OBJECT k) (not_found_msg k n)) s
        end.
Proof.
  exists (merged (self s)). split; [apply get_all_io_objects_dict_merged|].
  intros k. rewrite kget_merged. split.
  - unfold merged_dict.
    rewrite fold_merge_keys; [reflexivity| | |reflexivity].
    + apply StronglySorted_str_lt_NoDup, sorted_set_sorted.
    + intros n. apply listed_visible.
  - intros n. rewrite merged_dict_get, get_object_visible.
    now destruct (visible k n (self s)).
Qed.

(** ** More on creating and editing *)

Lemma visible_none_iff k n c :
  visible k n c = None <->
  dict_mem n (custom k c) || dict_mem n (builtins k c) = false.
Proof.
  unfold visible, dict_mem.
  destruct (dict_get n (custom k c)); simpl; [split; discriminate|].
  destruct (dict_get n (builtins k c)); simpl; split; auto; discriminate.
Qed.


(** What a [new_*] that returns has done. *)
Lemma new_object_returns (k : Kind) (n : string) (conf : Conf) (s : State) (x : Obj) (s' : State) :
  new_object k n conf s = Return x s' ->
  visible k n (self s) = None /\
  (exists a, x = set_attrs a (fresh_object k n)) /\
  self s' = set_custom k (dict_set n x (custom k (self s))) (self s).
Proof.
  rewrite new_object_eq.
  destruct (dict_mem n (custom k (self s)) || dict_mem n (builtins k (self s))) eqn:Em;
    [discriminate|].
  destruct (check_name k n); [discriminate|].
  rewrite commit_eq.
  destruct (import_result _ _ _) as [e|a]; [discriminate|]. cbv zeta.
  destruct (full_check_config _ s) as [[] s1|e s1]; [|discriminate].
  rewrite add_object_state. cbn [state_of self builtin set_attrs fresh_object name].
  destruct (writer _ _ _) as [[e|] w]; [discriminate|].
  intros H. inversion H; subst. split; [now apply visible_none_iff|].
  split; [eauto|reflexivity].
Qed.

(** X12. A [new_*] that returns has made an object of the kind with the
    given name, the file name [name.xml], the custom directory as path,
    [builtin] unset and [default] set; the name was free before; the
    object is the custom entry under the name, the name resolves to it,
    and it passes [check_builtin_*], so it may be removed or renamed.
    The creation returns whenever the name is free and the name check,
    the import, the validation and the writer succeed. *)
Theorem new_object_registers_removable_custom (k : Kind) (n : string) (conf : Conf) (s : State) :
  (forall x s',
      new_object k n conf s = Return x s' ->
      kind x = k /\ name x = n /\ filename x = (n ++ ".xml")%string /\
      path x = ETC_FIREWALLD k /\ builtin x = false /\ default x = true /\
      visible k n (self s) = None /\
      dict_get n (custom k (self s')) = Some x /\
      get_object k n s' = Return x s' /\
      check_builtin_object k x s' = Return tt s') /\
  (forall a w,
      visible k n (self s) = None ->
      check_name k n = None ->
      import_result (fresh_object k n) conf (merged (self s)) = inr a ->
      full_check_config [(k, [set_attrs a (fresh_object k n)])] s = Return tt s ->
      writer k (set_attrs a (fresh_object k n)) (world s) = (None, w) ->
      new_object k n conf s =
      Return (set_attrs a (fresh_object k n))
             (mkState (set_custom k (dict_set n (set_attrs a (fresh_object k n))
                                       (custom k (self s))) (self s)) w)).
Proof.
  split.
  - intros x s' Hret.
    destruct (new_object_returns _ _ _ _ _ _ Hret) as (Hfree & [a ->] & Hs').
    assert (Hreg : dict_get n (custom k (self s')) = Some (set_attrs a (fresh_object k n))).
    { rewrite Hs', custom_set_custom. apply dict_get_set_same. }
    repeat split; try reflexivity; try assumption.
    rewrite get_object_visible. unfold visible. now rewrite Hreg.
  - intros a w Hfree Hn Hi Hc Hw.
    apply visible_none_iff in Hfree.
    rewrite new_object_eq, Hfree, Hn, commit_eq, Hi. cbv zeta.
    rewrite Hc, Hw, add_object_state. reflexivity.
Qed.

(** X13. The object is registered before its file is written: when the
    writer raises, [new_*] and [set_*_config] raise its exception, but
    the object is already the custom entry under its name and the name
    resolves to it. *)
Theorem writer_failure_leaves_object_registered (k : Kind) (conf : Conf) (s : State) :
  (forall n a e w,
      visible k n (self s) = None ->
      check_name k n = None ->
      import_result (fresh_object k n) conf (merged (self s)) = inr a ->
      full_check_config [(k, [set_attrs a (fresh_object k n)])] s = Return tt s ->
      writer k (set_attrs a (fresh_object k n)) (world s) = (Some e, w) ->
      exists s',
        new_object k n conf s = Raise e s' /\ world s' = w /\
        get_object k n s' = Return (set_attrs a (fresh_object k n)) s') /\
  (forall obj a e w,
      import_result (edited_copy k obj) conf (merged (self s)) = inr a ->
      full_check_config [(k, [set_attrs a (edited_copy k obj)])] s = Return tt s ->
      writer k (set_attrs a (edited_copy k obj)) (world s) = (Some e, w) ->
      exists s',
        set_object_config k obj conf s = Raise e s' /\ world s' = w /\
        get_object k (name obj) s' = Return (set_attrs a (edited_copy k obj)) s').
Proof.
  split.
  - intros n a e w Hfree Hn Hi Hc Hw.
    apply visible_none_iff in Hfree.
    eexists. split; [|split].
    + rewrite new_object_eq, Hfree, Hn, commit_eq, Hi. cbv zeta.
      rewrite Hc, Hw, add_object_state. reflexivity.
    + reflexivity.
    + rewrite get_object_visible. unfold visible.
      cbn [self state_of builtin set_attrs fresh_object name].
      now rewrite custom_set_custom, dict_get_set_same.
  - intros obj a e w Hi Hc Hw.
    assert (Hb : builtin (set_attrs a (edited_copy k obj)) = false).
    { unfold edited_copy. cbn [set_attrs builtin].
      destruct (builtin obj) eqn:Eb; [|exact Eb].
      simpl. now destruct (negb _). }
    assert (Hname : name (set_attrs a (edited_copy k obj)) = name obj).
    { unfold edited_copy. cbn [set_attrs name].
      destruct (builtin obj); [|reflexivity].
      simpl. now destruct (negb _). }
    eexists. split; [|split].
    + unfold set_object_config. cbv zeta. rewrite commit_eq, Hi. cbv zeta.
      rewrite Hc, Hw, add_object_state, Hb. reflexivity.
    + reflexivity.
    + rewrite get_object_visible. unfold visible. cbn [self state_of].
      rewrite Hname, custom_set_custom. now rewrite dict_get_set_same.
Qed.

Lemma set_builtins_same k c : set_builtins k (builtins k c) c = c.
Proof. destruct c. unfold set_builtins, builtins; simpl. now rewrite kset_kget. Qed.

(** [forget_zone] *)
Lemma forget_zone_state (n : string) (s : State) :
  forget_zone n s =
  Return tt (mkState (set_custom Zones (dict_del n (custom Zones (self s)))
                        (set_builtins Zones (dict_del n (builtins Zones (self s))) (self s)))
                     (world s)).
Proof.
  assert (Hdel : forall (d : Dict Obj), dict_mem n d = false -> dict_del n d = d).
  { intros d. unfold dict_mem. induction d as [|[k' v'] d IH]; simpl; [reflexivity|].
    destruct (String.eqb n k'); [discriminate|]. intros H. simpl. now rewrite IH. }
  unfold forget_zone, bind, modify_self. cbn [self world].
  f_equal. f_equal. set (c := self s).
  pose proof (set_builtins_same Zones c) as Hsb.
  destruct (dict_mem n (builtins Zones c)) eqn:Eb.
  - destruct (dict_mem n (custom Zones (set_builtins Zones (dict_del n (builtins Zones c)) c)))
      eqn:Ec; [reflexivity|].
    change (custom Zones (set_builtins Zones (dict_del n (builtins Zones c)) c))
      with (custom Zones c) in Ec.
    rewrite (Hdel _ Ec).
    exact (eq_sym (set_custom_same Zones (set_builtins Zones (dict_del n (builtins Zones c)) c))).
  - rewrite (Hdel _ Eb), Hsb.
    destruct (dict_mem n (custom Zones c)) eqn:Ec; [reflexivity|].
    now rewrite (Hdel _ Ec), set_custom_same.
Qed.

(** X14. Forgetting a zone always returns; afterwards the name is in
    neither dictionary of the zones, its lookup raises [INVALID_ZONE], it
    is not listed, and every other name of every kind resolves as
    before. *)
Theorem forget_zone_drops_both_entries (n : string) (s : State) :
  let s' := state_of (forget_zone n s) in
  forget_zone n s = Return tt s' /\
  world s' = world s /\
  dict_get n (custom Zones (self s')) = None /\
  dict_get n (builtins Zones (self s')) = None /\
  get_zone n s' = Raise (FirewallError INVALID_ZONE (not_found_msg Zones n)) s' /\
  ~ In n (get_zones (self s')) /\
  (forall k n', k <> Zones \/ n' <> n -> visible k n' (self s') = visible k n' (self s)).
Proof.
  intros s'. subst s'. rewrite forget_zone_state. cbn [state_of self world].
  assert (Hc : dict_get n (custom Zones
                 (set_custom Zones (dict_del n (custom Zones (self s)))
                    (set_builtins Zones (dict_del n (builtins Zones (self s))) (self s))))
               = None).
  { rewrite custom_set_custom. apply dict_get_del_same. }
  assert (Hb : dict_get n (builtins Zones
                 (set_custom Zones (dict_del n (custom Zones (self s)))
                    (set_builtins Zones (dict_del n (builtins Zones (self s))) (self s))))
               = None).
  { rewrite builtins_set_custom, builtins_set_builtins. apply dict_get_del_same. }
  split; [reflexivity|]. split; [reflexivity|]. split; [exact Hc|]. split; [exact Hb|].
  split; [|split].
  - unfold get_zone. rewrite get_object_visible. unfold visible. cbn [self].
    now rewrite Hc, Hb.
  - intros Hin. apply listed_visible in Hin. destruct Hin as [o Ho].
    unfold visible in Ho. rewrite Hc, Hb in Ho. discriminate.
  - intros k n' Hne.
    destruct (Kind_eqb_spec k Zones) as [->|Hk].
    + destruct Hne as [Hne|Hne]; [congruence|].
      unfold visible.
      rewrite custom_set_custom, builtins_set_custom, builtins_set_builtins.
      now rewrite !dict_get_del_other by assumption.
    + rewrite visible_set_custom_other, visible_set_builtins_other by assumption.
      reflexivity.
Qed.

(** ** The tuples of the old API *)


Lemma enumerate_into_fits (structure : list string) :
  forall (conf : list Value) acc,
    length conf <= length structure ->
    exists d, enumerate_into structure conf acc = inr d.
Proof.
  induction structure as [|key structure IH]; intros [|v conf] acc H; simpl in *;
    try lia; eauto.
  apply IH. lia.
Qed.

Lemma enumerate_into_other (structure : list string) key :
  forall (conf : list Value) acc d,
    enumerate_into structure conf acc = inr d ->
    ~ In key structure ->
    dict_get key d = dict_get key acc.
Proof.
  induction structure as [|k0 structure IH]; intros [|v conf] acc d H Hn; simpl in *;
    try (inversion H; subst; reflexivity); try discriminate.
  rewrite (IH _ _ _ H) by tauto.
  apply dict_get_set_other. intros ->. tauto.
Qed.

Lemma enumerate_into_get (structure : list string) :
  forall (conf : list Value) acc d i key v,
    NoDup structure ->
    enumerate_into structure conf acc = inr d ->
    nth_error structure i = Some key ->
    nth_error conf i = Some v ->
    dict_get key d = Some v.
Proof.
  induction structure as [|k0 structure IH]; intros [|v0 conf] acc d i key v Hnd H Hs Hc;
    try (destruct i; discriminate).
  simpl in H. inversion Hnd as [|? ? Hnin Hnd']; subst.
  destruct i as [|i]; simpl in Hs, Hc.
  - inversion Hs; inversion Hc; subst.
    rewrite (enumerate_into_other _ _ _ _ _ H Hnin). apply dict_get_set_same.
  - eapply IH; eauto.
Qed.


Lemma config_tuple_short (getattr : Obj -> string -> Value) obj conf_dict (structure : list string) :
  forall n acc,
    length structure < n ->
    config_tuple getattr obj conf_dict structure n acc = inl IndexError.
Proof.
  induction structure as [|key structure IH]; intros [|n] acc H; simpl in *; try lia;
    [reflexivity|].
  apply IH. lia.
Qed.

Lemma config_tuple_long (getattr : Obj -> string -> Value) obj conf_dict (structure : list string) :
  forall n acc,
    n <= length structure ->
    exists t,
      config_tuple getattr obj conf_dict structure n acc = inr (acc ++ t) /\
      length t = n /\
      forall i key,
        i < n -> nth_error structure i = Some key ->
        nth_error t i = Some (match dict_get key conf_dict with
                              | Some v => v
                              | None => getattr obj key
                              end).
Proof.
  induction structure as [|k0 structure IH]; intros [|n] acc H; simpl in *; try lia.
  - exists []. rewrite app_nil_r. repeat split; auto. intros; lia.
  - exists []. rewrite app_nil_r. repeat split; auto. intros; lia.
  - destruct (IH n (acc ++ [match dict_get k0 conf_dict with
                            | Some v => v
                            | None => getattr obj k0
                            end])) as (t & Ht & Hlen & Hnth); [lia|].
    eexists (_ :: t). split; [|split].
    + rewrite Ht, <- app_assoc. reflexivity.
    + simpl. now rewrite Hlen.
    + intros [|i] key Hi Hs; simpl in *.
      * now inversion Hs.
      * apply Hnth; [lia|assumption].
Qed.

(** X16. [get_service_config] builds the tuple of the old API from the
    exported dictionary: with fewer than 8 names in the structure it
    raises [IndexError]; otherwise the tuple has 8 elements, the i-th
    being the exported value under the i-th name, or the attribute of the
    object when the export lacks the name.  Handed back to
    [set_service_config] (names distinct), the tuple becomes a dictionary
    that holds under each of the 8 names that same value.
    [get_zone_config] and [set_zone_config] do the same with 16. *)
Theorem config_tuple_round_trip (getattr : Obj -> string -> Value) (obj : Obj) (s : State) :
  let structure := IMPORT_EXPORT_STRUCTURE (kind obj) in
  let exported key := match dict_get key (export_config_dict obj) with
                      | Some v => v
                      | None => getattr obj key
                      end in
  (length structure < 8 -> get_service_config getattr obj = inl IndexError) /\
  (length structure < 16 -> get_zone_config getattr obj = inl IndexError) /\
  (8 <= length structure ->
   exists t d,
     get_service_config getattr obj = inr t /\ length t = 8 /\
     (forall i key, i < 8 -> nth_error structure i = Some key ->
                    nth_error t i = Some (exported key)) /\
     set_service_config obj t s = set_service_config_dict obj d s /\
     (NoDup structure ->
      forall i key, i < 8 -> nth_error structure i = Some key ->
                    dict_get key d = Some (exported key))) /\
  (16 <= length structure ->
   exists t d,
     get_zone_config getattr obj = inr t /\ length t = 16 /\
     (forall i key, i < 16 -> nth_error structure i = Some key ->
                    nth_error t i = Some (exported key)) /\
     set_zone_config obj t s = set_zone_config_dict obj d s /\
     (NoDup structure ->
      forall i key, i < 16 -> nth_error structure i = Some key ->
                    dict_get key d = Some (exported key))).
Proof.
  intros structure exported.
  assert (Hgen : forall n,
             n <= length structure ->
             exists t d,
               config_tuple getattr obj (export_config_dict obj) structure n [] = inr t /\
               length t = n /\
               (forall i key, i < n -> nth_error structure i = Some key ->
                              nth_error t i = Some (exported key)) /\
               enumerate_into structure t [] = inr d /\
               (NoDup structure ->
                forall i key, i < n -> nth_error structure i = Some key ->
                              dict_get key d = Some (exported key))).
  { intros n Hn.
    destruct (config_tuple_long getattr obj (export_config_dict obj) structure n [] Hn)
      as (t & Ht & Hlen & Hnth).
    destruct (enumerate_into_fits structure t []) as [d Hd]; [lia|].
    exists t, d. repeat split; auto.
    intros Hnd i key Hi Hs. eapply enumerate_into_get; eauto. }
  split; [|split; [|split]].
  - intros H. unfold get_service_config. now apply config_tuple_short.
  - intros H. unfold get_zone_config. now apply config_tuple_short.
  - intros H. destruct (Hgen 8 H) as (t & d & Ht & Hlen & Hnth & Hd & Hget).
    exists t, d. repeat split; auto.
    unfold set_service_config, bind. fold structure. now rewrite Hd.
  - intros H. destruct (Hgen 16 H) as (t & d & Ht & Hlen & Hnth & Hd & Hget).
    exists t, d. repeat split; auto.
    unfold set_zone_config, bind. fold structure. now rewrite Hd.
Qed.

(** ** What an operation leaves alone *)

Section Maintains.
Variable R : FirewallConfig -> FirewallConfig -> Prop.
Hypothesis R_refl : forall c, R c c.
Hypothesis R_trans : forall a b c, R a b -> R b c -> R a c.

Lemma maintains_same_state {A} (m : M A) :
  (forall s, state_of (m s) = s) -> maintains R m.
Proof. intros Hm s. rewrite Hm. apply R_refl. Qed.

Lemma maintains_ret {A} (a : A) : maintains R (ret a).
Proof. intros s. apply R_refl. Qed.

Lemma maintains_raise {A} (e : Exception) : maintains R (@raise E A e).
Proof. intros s. apply R_refl. Qed.

Lemma maintains_bind {A B} (m : M A) (f : A -> M B) :
  maintains R m -> (forall a, maintains R (f a)) -> maintains R (bind m f).
Proof.
  intros Hm Hf s. unfold bind. specialize (Hm s).
  destruct (m s) as [a s'|e s']; simpl in Hm; [|exact Hm].
  eapply R_trans; [exact Hm|apply Hf].
Qed.

Lemma maintains_try_except {A} (m : M A) (h : Exception -> M A) :
  maintains R m -> (forall e, maintains R (h e)) -> maintains R (try_except m h).
Proof.
  intros Hm Hh s. unfold try_except. specialize (Hm s).
  destruct (m s) as [a s'|e s']; simpl in Hm; [exact Hm|].
  eapply R_trans; [exact Hm|apply Hh].
Qed.

Lemma maintains_for_each {A} (l : list A) (body : A -> M unit) :
  (forall x, maintains R (body x)) -> maintains R (for_each l body).
Proof.
  intros Hb. induction l as [|x l IH]; simpl.
  - apply maintains_ret.
  - apply maintains_bind; [apply Hb|intros _; exact IH].
Qed.

Lemma maintains_lift_check r : maintains R (lift_check r).
Proof. destruct r; [apply maintains_raise|apply maintains_ret]. Qed.

Lemma maintains_lift_result {A} (r : Exception + A) : maintains R (lift_result r).
Proof. destruct r; [apply maintains_raise|apply maintains_ret]. Qed.

Lemma maintains_lift_world f : maintains R (lift_world f).
Proof.
  intros s. unfold lift_world.
  destruct (f (world s)) as [[e|] w]; apply R_refl.
Qed.

Lemma maintains_modify_self (f : FirewallConfig -> FirewallConfig) :
  (forall c, R c (f c)) -> maintains R (modify_self f).
Proof. intros Hf s. apply Hf. Qed.

Lemma maintains_get_all : maintains R get_all_io_objects_dict.
Proof.
  apply maintains_same_state. intros s. now rewrite get_all_io_objects_dict_merged.
Qed.

Lemma maintains_full_check extra : maintains R (full_check_config extra).
Proof. apply maintains_same_state. apply full_check_config_state. Qed.

Lemma maintains_get_self : maintains R get_self.
Proof. intros s. apply R_refl. Qed.

Lemma maintains_get_world : maintains R get_world.
Proof. intros s. apply R_refl. Qed.

Lemma maintains_check_builtin k obj : maintains R (check_builtin_object k obj).
Proof.
  unfold check_builtin_object.
  destruct (builtin obj || negb (default obj)); [apply maintains_raise|apply maintains_ret].
Qed.

Lemma maintains_check_name_conflict k n : maintains R (check_name_conflict k n).
Proof.
  apply maintains_same_state. intros s. unfold check_name_conflict, bind, get_self.
  now destruct (dict_mem n (custom k (self s)) || dict_mem n (builtins k (self s))).
Qed.

(** [_remove_*] changes the registry by one [set_custom] at most. *)
Lemma maintains__remove_object k obj :
  (forall d c, R c (set_custom k d c)) -> maintains R (_remove_object k obj).
Proof.
  intros Hset s. rewrite _remove_object_eq.
  destruct (negb (dict_mem (name obj) (custom k (self s)))); [apply R_refl|].
  destruct (negb (is_custom_path k (path obj))); [apply R_refl|]. cbv zeta.
  destruct (shutil_move _ _ (world s)) as [[e1|] w1]; [|apply Hset].
  destruct (os_remove _ w1) as [[e2|] w2]; [apply R_refl|apply Hset].
Qed.

(** The end of [set_*_config] and [new_*] changes the registry by one
    [set_custom] at most when the candidate is not builtin. *)
Lemma maintains_commit k x conf :
  builtin x = false ->
  (forall d c, R c (set_custom k d c)) -> maintains R (commit k x conf).
Proof.
  intros Hb Hset s. rewrite commit_eq.
  destruct (import_result _ _ _) as [e|a]; [apply R_refl|]. cbv zeta.
  destruct (full_check_config _ s) as [[] s1|e s1]; [|apply R_refl].
  rewrite add_object_state. cbn [state_of self builtin set_attrs]. rewrite Hb.
  destruct (writer _ _ _) as [[e|] w]; apply Hset.
Qed.

Lemma edited_copy_not_builtin k (obj : Obj) : builtin (edited_copy k obj) = false.
Proof.
  unfold edited_copy. destruct (builtin obj) eqn:Eb; [|exact Eb].
  simpl. now destruct (negb _).
Qed.

Lemma maintains_set_object_config k obj conf :
  (forall d c, R c (set_custom k d c)) -> maintains R (set_object_config k obj conf).
Proof.
  intros Hset. unfold set_object_config. cbv zeta.
  apply maintains_commit; [apply edited_copy_not_builtin|exact Hset].
Qed.

Lemma maintains_new_object k n conf :
  (forall d c, R c (set_custom k d c)) -> maintains R (new_object k n conf).
Proof.
  intros Hset. unfold new_object. cbv zeta.
  apply maintains_bind; [apply maintains_check_name_conflict|intros _].
  apply maintains_bind; [apply maintains_lift_check|intros _].
  apply maintains_commit; [reflexivity|exact Hset].
Qed.

Lemma maintains_remove_object k obj :
  (forall d c, R c (set_custom k d c)) -> maintains R (remove_object k obj).
Proof.
  intros Hset. unfold remove_object.
  apply maintains_bind; [apply maintains_check_builtin|intros _].
  now apply maintains__remove_object.
Qed.

Lemma maintains_rename_object k obj n :
  (forall d c, R c (set_custom k d c)) -> maintains R (rename_object k obj n).
Proof.
  intros Hset.
  assert (Hcopy : forall conf,
             maintains R (bind (check_builtin_object k obj) (fun _ =>
                          bind (new_object k n conf) (fun new_obj =>
                          bind (_remove_object k obj) (fun _ => ret new_obj))))).
  { intros conf.
    apply maintains_bind; [apply maintains_check_builtin|intros _].
    apply maintains_bind; [now apply maintains_new_object|intros x].
    apply maintains_bind; [now apply maintains__remove_object|intros _].
    apply maintains_ret. }
  destruct k; try apply Hcopy.
  unfold rename_object, rename_zone. cbv zeta.
  apply maintains_bind; [apply maintains_check_builtin|intros _].
  apply maintains_bind; [now apply maintains__remove_object|intros _].
  apply maintains_try_except; [now apply maintains_new_object|intros e].
  apply maintains_bind; [now apply maintains_new_object|intros _].
  apply maintains_raise.
Qed.

Lemma maintains_load_object_defaults k obj :
  (forall d c, R c (set_custom k d c)) -> maintains R (load_object_defaults k obj).
Proof.
  intros Hset. unfold load_object_defaults.
  apply maintains_bind; [apply maintains_get_self|intros c].
  destruct (dict_get (name obj) (custom k c)); [|apply maintains_raise].
  destruct (obj_ne _ obj); [apply maintains_raise|].
  destruct (negb _); [apply maintains_raise|].
  apply maintains_bind; [now apply maintains__remove_object|intros _].
  apply maintains_bind; [apply maintains_get_self|intros c'].
  destruct (dict_get _ _); [apply maintains_ret|apply maintains_raise].
Qed.

Lemma maintains_set_firewalld_conf conf :
  (forall c fc, R c (mkFirewallConfig (custom_objects c) (builtin_objects c) fc)) ->
  maintains R (set_firewalld_conf conf).
Proof. intros H. apply maintains_modify_self. intros c. apply H. Qed.

Lemma maintains__reset_defaults :
  (forall k d c, R c (set_custom k d c)) ->
  (forall c fc, R c (mkFirewallConfig (custom_objects c) (builtin_objects c) fc)) ->
  maintains R _reset_defaults.
Proof.
  intros Hset Hconf. unfold _reset_defaults.
  apply maintains_bind; [|intros _].
  { apply maintains_for_each. intros k.
    apply maintains_bind; [apply maintains_get_self|intros c].
    apply maintains_for_each. intros obj_name.
    destruct (dict_get obj_name (custom k c)); [|apply maintains_ret].
    apply maintains_bind; [|intros _; apply maintains_modify_self; intros c'; apply Hset].
    unfold backup_file.
    apply maintains_try_except; [apply maintains_lift_world|intros e].
    apply maintains_lift_world. }
  apply maintains_bind; [|intros _].
  { unfold firewalld_conf_set_defaults.
    apply maintains_bind; [apply maintains_get_self|intros c].
    destruct (_firewalld_conf c); [|apply maintains_raise].
    apply maintains_bind; [now apply maintains_set_firewalld_conf|intros _].
    apply maintains_lift_check. }
  unfold firewalld_conf_write.
  apply maintains_bind; [apply maintains_get_self|intros c].
  destruct (_firewalld_conf c); [apply maintains_lift_world|apply maintains_raise].
Qed.

Lemma maintains_restore_step (o : Obj) current_obj update create_test create :
  (forall cur, maintains R (update cur)) -> maintains R create ->
  maintains R (restore_step o current_obj update create_test create).
Proof.
  intros Hu Hc. unfold restore_step.
  assert (Hcreate : maintains R (if create_test
                                 then bind create (fun _ => ret tt) else ret tt)).
  { destruct create_test; [|apply maintains_ret].
    apply maintains_bind; [exact Hc|intros _; apply maintains_ret]. }
  destruct current_obj as [cur|]; [|exact Hcreate].
  destruct (obj_ne cur o); [|exact Hcreate].
  apply maintains_bind; [apply Hu|intros _; apply maintains_ret].
Qed.

Lemma maintains_tuple_wrapper {A} (structure : list string) (conf : list Value)
    (f : Dict Value -> M A) :
  (forall d, maintains R (f d)) ->
  maintains R (bind (lift_result (enumerate_into structure conf [])) f).
Proof.
  intros Hf. apply maintains_bind; [apply maintains_lift_result|exact Hf].
Qed.

Lemma maintains_restore_settings_dict sd fc :
  (forall k d c, R c (set_custom k d c)) ->
  (forall c fc, R c (mkFirewallConfig (custom_objects c) (builtin_objects c) fc)) ->
  maintains R (restore_settings_dict sd fc).
Proof.
  intros Hset Hconf. unfold restore_settings_dict.
  apply maintains_bind; [|intros _].
  - destruct sd as [sd|]; [|apply maintains_ret].
    apply maintains_bind; [apply maintains_get_all|intros cur].
    repeat (apply maintains_bind; [|intros _]);
      apply maintains_for_each; intros o; cbv zeta; apply maintains_restore_step;
      try intros cur';
      unfold set_icmptype_config, set_helper_config, set_service_config, set_ipset_config,
        set_policy_object_config_dict, set_zone_config, set_service_config_dict,
        set_zone_config_dict, new_icmptype, new_helper, new_service, new_ipset,
        new_policy_object_dict, new_zone, new_service_dict, new_zone_dict;
      repeat first
        [ apply maintains_set_object_config; apply Hset
        | apply maintains_new_object; apply Hset
        | apply maintains_bind; [apply maintains_check_name_conflict|intros _]
        | apply maintains_tuple_wrapper; intros d ].
  - destruct fc as [conf|]; [|apply maintains_ret].
    apply maintains_bind; [now apply maintains_set_firewalld_conf|intros _].
    unfold firewalld_conf_write.
    apply maintains_bind; [apply maintains_get_self|intros c].
    destruct (_firewalld_conf c); [apply maintains_lift_world|apply maintains_raise].
Qed.

Lemma maintains_reset_defaults :
  (forall k d c, R c (set_custom k d c)) ->
  (forall c fc, R c (mkFirewallConfig (custom_objects c) (builtin_objects c) fc)) ->
  maintains R reset_defaults.
Proof.
  intros Hset Hconf. unfold reset_defaults. cbv zeta.
  apply maintains_bind; [apply maintains_get_all|intros backup].
  apply maintains_bind; [apply maintains_get_self|intros c].
  apply maintains_try_except; [now apply maintains__reset_defaults|intros e].
  apply maintains_bind; [now apply maintains_restore_settings_dict|intros _].
  apply maintains_raise.
Qed.

End Maintains.

Lemma same_builtins_refl c : same_builtins c c.
Proof. reflexivity. Qed.

Lemma same_builtins_trans a b c : same_builtins a b -> same_builtins b c -> same_builtins a c.
Proof. unfold same_builtins. congruence. Qed.

(** X17. The builtin dictionaries change only when the registry is loaded
    or a changed file is reported: [set_*_config], [new_*] and their
    tuple wrappers, [remove_*], [rename_*], [load_*_defaults],
    [reset_defaults] and [restore_settings_dict] leave all six as they
    were, whether they return or raise.  Editing a builtin object puts a
    copy in the custom dictionary and leaves the builtin entry alone. *)
Theorem builtin_dictionaries_never_mutated_by_api :
  (forall k obj conf, maintains same_builtins (set_object_config k obj conf)) /\
  (forall obj t, maintains same_builtins (set_service_config obj t)) /\
  (forall obj t, maintains same_builtins (set_zone_config obj t)) /\
  (forall k n conf, maintains same_builtins (new_object k n conf)) /\
  (forall n t, maintains same_builtins (new_service n t)) /\
  (forall n t, maintains same_builtins (new_zone n t)) /\
  (forall k obj, maintains same_builtins (remove_object k obj)) /\
  (forall k obj n, maintains same_builtins (rename_object k obj n)) /\
  (forall k obj, maintains same_builtins (load_object_defaults k obj)) /\
  maintains same_builtins reset_defaults /\
  (forall sd fc, maintains same_builtins (restore_settings_dict sd fc)) /\
  (forall k obj conf s x s',
      builtin obj = true ->
      dict_get (name obj) (builtins k (self s)) = Some obj ->
      set_object_config k obj conf s = Return x s' ->
      dict_get (name obj) (builtins k (self s')) = Some obj /\
      get_object k (name obj) s' = Return x s' /\ builtin x = false).
Proof.
  assert (Hset : forall k d c, same_builtins c (set_custom k d c)) by reflexivity.
  assert (Hconf : forall c fc,
             same_builtins c (mkFirewallConfig (custom_objects c) (builtin_objects c) fc))
    by reflexivity.
  pose proof same_builtins_refl as Hr. pose proof same_builtins_trans as Ht.
  repeat match goal with |- _ /\ _ => split end.
  - intros. apply maintains_set_object_config; auto.
  - intros. apply maintains_tuple_wrapper; auto. intros d.
    apply maintains_set_object_config; auto.
  - intros. apply maintains_tuple_wrapper; auto. intros d.
    apply maintains_set_object_config; auto.
  - intros. apply maintains_new_object; auto.
  - intros. unfold new_service.
    apply maintains_bind; auto; [apply maintains_check_name_conflict; auto|intros _].
    apply maintains_tuple_wrapper; auto. intros d. apply maintains_new_object; auto.
  - intros. unfold new_zone.
    apply maintains_bind; auto; [apply maintains_check_name_conflict; auto|intros _].
    apply maintains_tuple_wrapper; auto. intros d. apply maintains_new_object; auto.
  - intros. apply maintains_remove_object; auto.
  - intros. apply maintains_rename_object; auto.
  - intros. apply maintains_load_object_defaults; auto.
  - apply maintains_reset_defaults; auto.
  - intros. apply maintains_restore_settings_dict; auto.
  - intros k obj conf s x s' Hb Hreg Hret.
    assert (Hm : maintains same_builtins (set_object_config k obj conf))
      by (apply maintains_set_object_config; auto).
    specialize (Hm s). rewrite Hret in Hm. unfold same_builtins in Hm. cbn [state_of] in Hm.
    destruct (set_object_config_builtin_returns k obj conf s x s' Hb Hret) as [[a ->] Hx].
    destruct (edited_copy_builtin k obj Hb) as (H1 & H2 & H3 & H4).
    cbn [set_attrs name builtin] in *. rewrite H3 in Hx.
    split; [|split; [|exact H1]].
    + unfold builtins. rewrite Hm. exact Hreg.
    + rewrite get_object_visible. unfold visible. now rewrite Hx.
Qed.

Lemma same_other_kinds_refl k c : same_other_kinds k c c.
Proof. intros k' _. auto. Qed.

Lemma same_other_kinds_trans k a b c :
  same_other_kinds k a b -> same_other_kinds k b c -> same_other_kinds k a c.
Proof.
  intros H1 H2 k' Hk. destruct (H1 k' Hk) as [A1 A2]. destruct (H2 k' Hk) as [B1 B2].
  split; congruence.
Qed.

Lemma same_other_kinds_set_custom k d c : same_other_kinds k c (set_custom k d c).
Proof.
  intros k' Hk. rewrite builtins_set_custom.
  now rewrite custom_set_custom_other by assumption.
Qed.

Lemma same_other_kinds_set_builtins k d c : same_other_kinds k c (set_builtins k d c).
Proof.
  intros k' Hk. rewrite custom_set_builtins.
  now rewrite builtins_set_builtins_other by assumption.
Qed.

Lemma maintains_other_kinds_add_object k obj :
  maintains (same_other_kinds k) (add_object k obj).
Proof.
  intros s. rewrite add_object_state. cbn [state_of self].
  destruct (builtin obj);
    [apply same_other_kinds_set_builtins|apply same_other_kinds_set_custom].
Qed.

Lemma maintains_other_kinds_update k nm :
  maintains (same_other_kinds k) (update_object_from_path k nm).
Proof.
  pose proof (same_other_kinds_refl k) as Hr.
  pose proof (same_other_kinds_trans k) as Ht.
  unfold update_object_from_path. cbv zeta.
  repeat first
    [ apply maintains_ret; exact Hr
    | apply maintains_get_self; exact Hr
    | apply maintains_get_world; exact Hr
    | apply maintains_other_kinds_add_object
    | apply maintains_modify_self; intros ?;
      first [apply same_other_kinds_set_custom | apply same_other_kinds_set_builtins]
    | apply maintains_bind; try exact Hr; try exact Ht; [|intros ?]
    | match goal with
      | |- maintains _ (match ?x with _ => _ end) => destruct x
      | |- maintains _ (let (_, _) := ?x in _) => destruct x
      end ].
Qed.

(** X18. An operation on the objects of one kind leaves the twelve
    dictionaries of the other five kinds as they were, whether it returns
    or raises: registering, editing, creating, reacting to a changed
    file, removing, renaming and reverting to the builtin. *)
Theorem operations_of_a_kind_leave_other_kinds_alone (k : Kind) :
  (forall obj, maintains (same_other_kinds k) (add_object k obj)) /\
  (forall obj conf, maintains (same_other_kinds k) (set_object_config k obj conf)) /\
  (forall n conf, maintains (same_other_kinds k) (new_object k n conf)) /\
  (forall nm, maintains (same_other_kinds k) (update_object_from_path k nm)) /\
  (forall obj, maintains (same_other_kinds k) (remove_object k obj)) /\
  (forall obj n, maintains (same_other_kinds k) (rename_object k obj n)) /\
  (forall obj, maintains (same_other_kinds k) (load_object_defaults k obj)).
Proof.
  pose proof (same_other_kinds_refl k) as Hr.
  pose proof (same_other_kinds_trans k) as Ht.
  pose proof (same_other_kinds_set_custom k) as Hset.
  repeat match goal with |- _ /\ _ => split end; intros.
  - apply maintains_other_kinds_add_object.
  - apply maintains_set_object_config; auto.
  - apply maintains_new_object; auto.
  - apply maintains_other_kinds_update.
  - apply maintains_remove_object; auto.
  - apply maintains_rename_object; auto.
  - apply maintains_load_object_defaults; auto.
Qed.

Lemma preserves_load_object_defaults k obj : preserves (load_object_defaults k obj).
Proof.
  unfold load_object_defaults.
  apply preserves_bind; [apply preserves_get_self|intros c].
  destruct (dict_get (name obj) (custom k c)); [|apply preserves_raise].
  destruct (obj_ne _ obj); [apply preserves_raise|].
  destruct (negb _); [apply preserves_raise|].
  apply preserves_bind; [apply preserves__remove_object|intros _].
  apply preserves_bind; [apply preserves_get_self|intros c'].
  destruct (dict_get _ _); [apply preserves_ret|apply preserves_raise].
Qed.

(** X19. Every dictionary of the registry is keyed by the name of the
    object it holds under the key.  The empty registry is, and every
    operation keeps it so, whether it returns or raises: registering,
    forgetting a zone, editing, creating, reacting to a changed file,
    removing, renaming, reverting to the builtin, resetting and
    restoring. *)
Theorem registry_stays_keyed_by_name :
  registry_keyed init_vars /\
  (forall k obj, preserves (add_object k obj)) /\
  (forall n, preserves (forget_zone n)) /\
  (forall k obj conf, preserves (set_object_config k obj conf)) /\
  (forall k n conf, preserves (new_object k n conf)) /\
  (forall k nm, preserves (update_object_from_path k nm)) /\
  (forall k obj, preserves (remove_object k obj)) /\
  (forall k obj n, preserves (rename_object k obj n)) /\
  (forall k obj, preserves (load_object_defaults k obj)) /\
  preserves reset_defaults /\
  (forall sd fc, preserves (restore_settings_dict sd fc)).
Proof.
  repeat match goal with |- _ /\ _ => split end; intros.
  - apply registry_keyed_init.
  - apply preserves_add_object.
  - apply preserves_forget_zone.
  - apply preserves_set_object_config.
  - apply preserves_new_object.
  - apply preserves_update_object_from_path.
  - apply preserves_remove_object.
  - apply preserves_rename_object.
  - apply preserves_load_object_defaults.
  - apply preserves_reset_defaults.
  - apply preserves_restore_settings_dict.
Qed.

(** ** A reset that succeeds *)

Lemma set_custom_set_custom k d1 d2 c :
  set_custom k d2 (set_custom k d1 c) = set_custom k d2 c.
Proof. destruct c as [cu bu fc]. unfold set_custom. simpl. f_equal. now destruct k, cu. Qed.

Lemma dict_no_keys {V} (d : Dict V) : dict_keys d = [] -> d = [].
Proof. destruct d; [reflexivity|discriminate]. Qed.

Lemma dict_del_all_keys {V} (keys : list string) :
  forall d : Dict V,
    (forall x, In x (dict_keys d) -> In x keys) ->
    fold_left (fun d x => dict_del x d) keys d = [].
Proof.
  induction keys as [|x keys IH]; intros d H; simpl.
  - apply dict_no_keys. destruct (dict_keys d) as [|y l] eqn:Ek; [reflexivity|].
    elim (H y). now left.
  - apply IH. intros y Hy. apply dict_keys_del in Hy. destruct Hy as [Hne Hy].
    destruct (H y Hy) as [->|Hin]; [congruence|exact Hin].
Qed.

(** The loop of [_reset_defaults] over the keys of one kind's custom
    dictionary, when it returns, has deleted those keys. *)
Lemma reset_loop_returns (k : Kind) (dict_copy : Dict Obj) (keys : list string) :
  forall s s',
    (forall x, In x keys -> dict_get x dict_copy <> None) ->
    for_each keys (fun obj_name =>
      match dict_get obj_name dict_copy with
      | Some obj =>
          bind (backup_file (os_path_join (path obj) (filename obj)))
               (fun _ => modify_self (fun c => set_custom k (dict_del obj_name (custom k c)) c))
      | None => ret tt
      end) s = Return tt s' ->
    self s' = set_custom k (fold_left (fun d x => dict_del x d) keys (custom k (self s))) (self s).
Proof.
  induction keys as [|x keys IH]; intros s s' Hk; simpl.
  - intros H. inversion H; subst. now rewrite set_custom_same.
  - unfold bind at 1.
    destruct (dict_get x dict_copy) as [obj|] eqn:Ex; [|elim (Hk x (or_introl eq_refl) Ex)].
    unfold bind at 1, backup_file, try_except, lift_world, modify_self.
    destruct (shutil_move _ _ (world s)) as [[e1|] w1]; cbn [self world].
    + destruct (os_remove _ w1) as [[e2|] w2]; [discriminate|].
      intros H. apply IH in H; [|intros y Hy; apply Hk; now right].
      cbn [self] in H. now rewrite custom_set_custom, set_custom_set_custom in H.
    + intros H. apply IH in H; [|intros y Hy; apply Hk; now right].
      cbn [self] in H. now rewrite custom_set_custom, set_custom_set_custom in H.
Qed.

Lemma reset_kind_returns (k : Kind) (s s' : State) :
  bind get_self (fun c =>
    for_each (dict_keys (custom k c)) (fun obj_name =>
      match dict_get obj_name (custom k c) with
      | Some obj =>
          bind (backup_file (os_path_join (path obj) (filename obj)))
               (fun _ => modify_self (fun c => set_custom k (dict_del obj_name (custom k c)) c))
      | None => ret tt
      end)) s = Return tt s' ->
  self s' = set_custom k [] (self s).
Proof.
  unfold bind at 1, get_self. intros H.
  apply reset_loop_returns in H.
  - rewrite H. f_equal. apply dict_del_all_keys. auto.
  - intros x Hx Hn. apply dict_get_In_keys in Hx. destruct Hx as [v Hv]. congruence.
Qed.

Lemma _reset_defaults_returns (s s' : State) :
  _reset_defaults s = Return tt s' ->
  custom_objects (self s') = kconst [] /\
  builtin_objects (self s') = builtin_objects (self s).
Proof.
  unfold _reset_defaults, reset_defaults_order. cbn [for_each].
  unfold bind at 1. unfold bind at 1.
  match goal with |- context [match ?m s with _ => _ end] =>
    destruct (m s) as [[] s1|e s1] eqn:E1; [apply reset_kind_returns in E1|discriminate] end.
  unfold bind at 1.
  match goal with |- context [match ?m s1 with _ => _ end] =>
    destruct (m s1) as [[] s2|e s2] eqn:E2; [apply reset_kind_returns in E2|discriminate] end.
  unfold bind at 1.
  match goal with |- context [match ?m s2 with _ => _ end] =>
    destruct (m s2) as [[] s3|e s3] eqn:E3; [apply reset_kind_returns in E3|discriminate] end.
  unfold bind at 1.
  match goal with |- context [match ?m s3 with _ => _ end] =>
    destruct (m s3) as [[] s4|e s4] eqn:E4; [apply reset_kind_returns in E4|discriminate] end.
  unfold bind at 1.
  match goal with |- context [match ?m s4 with _ => _ end] =>
    destruct (m s4) as [[] s5|e s5] eqn:E5; [apply reset_kind_returns in E5|discriminate] end.
  unfold bind at 1.
  match goal with |- context [match ?m s5 with _ => _ end] =>
    destruct (m s5) as [[] s6|e s6] eqn:E6; [apply reset_kind_returns in E6|discriminate] end.
  unfold ret at 1.
  unfold firewalld_conf_set_defaults, firewalld_conf_write, set_firewalld_conf.
  msimpl.
  destruct (_firewalld_conf (self s6)) as [conf|]; [|discriminate]. simpl.
  destruct (fst (conf_set_defaults conf)); [discriminate|].
  unfold ret. simpl.
  destruct (conf_write (snd (conf_set_defaults conf)) (world s6)) as [[e|] w];
    [discriminate|].
  intros H. inversion H; subst. simpl.
  rewrite E6, E5, E4, E3, E2, E1. destruct (self s) as [cu bu fc]. simpl. auto.
Qed.

(** X20. When [reset_defaults] returns, every custom dictionary is empty
    and the builtin dictionaries are as they were: each name resolves to
    its builtin object or not at all, and each list is the sorted builtin
    names. *)
Theorem reset_defaults_leaves_only_builtins (s s' : State) :
  reset_defaults s = Return tt s' ->
  (forall k, custom k (self s') = [] /\ builtins k (self s') = builtins k (self s)) /\
  (forall k n,
      get_object k n s' =
      match dict_get n (builtins k (self s)) with
      | Some b => Return b s'
      | None => Raise (FirewallError (INVALID_OBJECT k) (not_found_msg k n)) s'
      end) /\
  (forall k, get_objects k (self s') = sorted_set (dict_keys (builtins k (self s)))).
Proof.
  intros H.
  assert (Hreset : _reset_defaults s = Return tt s').
  { revert H. unfold reset_defaults. unfold bind at 1.
    rewrite get_all_io_objects_dict_merged. unfold bind at 1, get_self, try_except.
    destruct (_reset_defaults s) as [[] s1|e s1]; [auto|].
    unfold bind. destruct (restore_settings_dict _ _ s1); discriminate. }
  destruct (_reset_defaults_returns _ _ Hreset) as [Hc Hb].
  assert (Hk : forall k, custom k (self s') = [] /\ builtins k (self s') = builtins k (self s)).
  { intros k. unfold custom, builtins. rewrite Hc, Hb. split; [now destruct k|reflexivity]. }
  split; [exact Hk|]. split.
  - intros k n. destruct (Hk k) as [H1 H2].
    rewrite get_object_visible. unfold visible. rewrite H1, H2. simpl.
    now destruct (dict_get n (builtins k (self s))).
  - intros k. destruct (Hk k) as [H1 H2]. unfold get_objects. now rewrite H1, H2.
Qed.

(** ** Renaming *)

Lemma rename_by_copy_eq (k : Kind) (obj : Obj) (n : string) :
  k <> Zones ->
  rename_object k obj n =
  bind (check_builtin_object k obj) (fun _ =>
  bind (new_object k n (copy_conf k obj)) (fun new_obj =>
  bind (_remove_object k obj) (fun _ => ret new_obj))).
Proof. intros Hk. destruct k; try reflexivity. congruence. Qed.

Lemma _remove_object_raises_keeps (k : Kind) (obj : Obj) (s : State) e s' :
  _remove_object k obj s = Raise e s' -> self s' = self s.
Proof.
  rewrite _remove_object_eq.
  destruct (negb (dict_mem (name obj) (custom k (self s)))); [intros H; now inversion H|].
  destruct (negb (is_custom_path k (path obj))); [intros H; now inversion H|].
  cbv zeta.
  destruct (shutil_move _ _ (world s)) as [[e1|] w1]; [|discriminate].
  destruct (os_remove _ w1) as [[e2|] w2]; [|discriminate].
  intros H. now inversion H.
Qed.

(** X21. Renaming an ipset, icmptype, service, policy or helper that may
    be renamed creates the copy first, then removes the original.  A
    target name that already resolves raises [NAME_CONFLICT] and the
    state is as it was; a creation that raises leaves the original in
    place.  Once the copy is created, it stays registered under the new
    name even when the removal of the original raises - the renaming then
    raises with both names registered; when the removal returns, the
    original's name is gone from the custom dictionary. *)
Theorem rename_copies_then_removes (k : Kind) (obj : Obj) (n : string) (s : State) :
  k <> Zones -> builtin obj = false -> default obj = true ->
  (visible k n (self s) <> None ->
   rename_object k obj n s = Raise (FirewallError NAME_CONFLICT (name_conflict_msg k n)) s) /\
  match new_object k n (copy_conf k obj) s with
  | Raise e s1 => rename_object k obj n s = Raise e s1
  | Return x s1 =>
      match _remove_object k obj s1 with
      | Return _ s2 =>
          rename_object k obj n s = Return x s2 /\
          dict_get (name obj) (custom k (self s2)) = None /\
          (name obj <> n -> get_object k n s2 = Return x s2)
      | Raise e s2 =>
          rename_object k obj n s = Raise e s2 /\
          get_object k n s2 = Return x s2 /\
          (name obj <> n -> visible k (name obj) (self s2) = visible k (name obj) (self s))
      end
  end.
Proof.
  intros Hk Hb Hd.
  assert (Heq : rename_object k obj n s =
                match new_object k n (copy_conf k obj) s with
                | Raise e s1 => Raise e s1
                | Return x s1 =>
                    match _remove_object k obj s1 with
                    | Return _ s2 => Return x s2
                    | Raise e s2 => Raise e s2
                    end
                end).
  { rewrite rename_by_copy_eq by assumption. unfold bind at 1.
    rewrite check_builtin_object_returns by assumption. unfold bind, ret.
    destruct (new_object k n (copy_conf k obj) s) as [x s1|e s1]; [|reflexivity].
    now destruct (_remove_object k obj s1) as [[] s2|e s2]. }
  split.
  - intros Hv. rewrite Heq, new_object_eq.
    destruct (dict_mem n (custom k (self s)) || dict_mem n (builtins k (self s))) eqn:Em;
      [reflexivity|].
    apply visible_none_iff in Em. contradiction.
  - rewrite Heq.
    destruct (new_object k n (copy_conf k obj) s) as [x s1|e s1] eqn:En; [|reflexivity].
    destruct (new_object_returns _ _ _ _ _ _ En) as (Hfree & [a Hx] & Hs1).
    assert (Hreg1 : dict_get n (custom k (self s1)) = Some x).
    { rewrite Hs1, custom_set_custom. apply dict_get_set_same. }
    destruct (_remove_object k obj s1) as [[] s2|e s2] eqn:Er.
    + apply _remove_object_returns in Er.
      split; [reflexivity|]. split.
      * rewrite Er, custom_set_custom. apply dict_get_del_same.
      * intros Hne. rewrite get_object_visible. unfold visible.
        rewrite Er, custom_set_custom.
        rewrite dict_get_del_other by congruence. now rewrite Hreg1.
    + apply _remove_object_raises_keeps in Er.
      split; [reflexivity|]. split.
      * rewrite get_object_visible. unfold visible. now rewrite Er, Hreg1.
      * intros Hne. unfold visible. rewrite Er, Hs1.
        rewrite custom_set_custom, builtins_set_custom.
        now rewrite dict_get_set_other by assumption.
Qed.

(** X22. Renaming a zone that may be renamed removes the original first,
    then creates the zone under the new name.  A removal that raises ends
    the renaming with the registry as it was.  When the creation raises -
    a name conflict included - the zone is created again under its old
    name from its exported configuration and the failure of the creation
    is raised; the old name then resolves to a fresh custom object.  When
    that second creation raises as well, its exception is the one raised
    and the zone is gone from the custom dictionary. *)
Theorem rename_zone_removes_then_creates (obj : Obj) (n : string) (s : State) :
  builtin obj = false -> default obj = true ->
  match _remove_object Zones obj s with
  | Raise e s1 => rename_zone obj n s = Raise e s1 /\ self s1 = self s
  | Return _ s1 =>
      dict_get (name obj) (custom Zones (self s1)) = None /\
      match new_zone_dict n (export_config_dict obj) s1 with
      | Return x s2 =>
          rename_zone obj n s = Return x s2 /\ get_zone n s2 = Return x s2
      | Raise e s2 =>
          match new_zone_dict (name obj) (export_config_dict obj) s2 with
          | Return x0 s3 =>
              rename_zone obj n s = Raise e s3 /\
              get_zone (name obj) s3 = Return x0 s3 /\
              builtin x0 = false /\ default x0 = true /\ path x0 = ETC_FIREWALLD Zones
          | Raise e' s3 => rename_zone obj n s = Raise e' s3
          end
      end
  end.
Proof.
  intros Hb Hd.
  assert (Heq : rename_zone obj n s =
                match _remove_object Zones obj s with
                | Raise e s1 => Raise e s1
                | Return _ s1 =>
                    match new_zone_dict n (export_config_dict obj) s1 with
                    | Return x s2 => Return x s2
                    | Raise e s2 =>
                        match new_zone_dict (name obj) (export_config_dict obj) s2 with
                        | Return _ s3 => Raise e s3
                        | Raise e' s3 => Raise e' s3
                        end
                    end
                end).
  { unfold rename_zone. cbv zeta. unfold bind at 1.
    rewrite check_builtin_object_returns by assumption.
    unfold bind at 1.
    destruct (_remove_object Zones obj s) as [[] s1|e s1]; [|reflexivity].
    unfold try_except.
    destruct (new_zone_dict n (export_config_dict obj) s1) as [x s2|e s2]; [reflexivity|].
    unfold bind, raise.
    now destruct (new_zone_dict (name obj) (export_config_dict obj) s2). }
  rewrite Heq.
  destruct (_remove_object Zones obj s) as [[] s1|e s1] eqn:Er.
  - apply _remove_object_returns in Er. split.
    { rewrite Er, custom_set_custom. apply dict_get_del_same. }
    destruct (new_zone_dict n (export_config_dict obj) s1) as [x s2|e s2] eqn:En.
    + split; [reflexivity|]. unfold new_zone_dict in En.
      destruct (new_object_returns _ _ _ _ _ _ En) as (_ & _ & Hs2).
      unfold get_zone. rewrite get_object_visible. unfold visible.
      now rewrite Hs2, custom_set_custom, dict_get_set_same.
    + destruct (new_zone_dict (name obj) (export_config_dict obj) s2) as [x0 s3|e' s3] eqn:En0;
        [|reflexivity].
      split; [reflexivity|]. unfold new_zone_dict in En0.
      destruct (new_object_returns _ _ _ _ _ _ En0) as (_ & [a ->] & Hs3).
      split; [|repeat split].
      unfold get_zone. rewrite get_object_visible. unfold visible.
      now rewrite Hs3, custom_set_custom, dict_get_set_same.
  - split; [reflexivity|]. eapply _remove_object_raises_keeps; eauto.
Qed.

(** ** Paths *)

Lemma str_nonempty_app_slash d f : str_nonempty (d ++ String "/" f) = true.
Proof. now destruct d. Qed.

Lemma rsplit_slash_no_slash f : no_slash f = true -> rsplit_slash f = (EmptyString, f).
Proof.
  induction f as [|c f IH]; simpl; [reflexivity|].
  intros H. apply andb_prop in H. destruct H as [Hc Hf].
  rewrite (IH Hf). simpl. apply negb_true_iff in Hc. now rewrite Hc.
Qed.

Lemma rsplit_slash_app d f :
  no_slash f = true -> rsplit_slash (d ++ String "/" f) = ((d ++ "/")%string, f).
Proof.
  intros Hf. induction d as [|c d IH]; simpl.
  - now rewrite (rsplit_slash_no_slash f Hf).
  - rewrite IH. change (d ++ "/")%string with (d ++ String "/" EmptyString)%string.
    now rewrite str_nonempty_app_slash.
Qed.

Lemma rstrip_slash_app d :
  str_nonempty d = true -> endswith_slash d = false ->
  rstrip_slash (d ++ "/") = d.
Proof.
  induction d as [|c d IH]; [discriminate|]. intros _ He.
  destruct d as [|c2 d2].
  - simpl in *. now rewrite He.
  - change ((String c (String c2 d2)) ++ "/")%string
      with (String c ((String c2 d2) ++ "/"))%string.
    cbn [rstrip_slash]. rewrite IH; [reflexivity|reflexivity|exact He].
Qed.

Lemma all_slashes_app d :
  str_nonempty d = true -> endswith_slash d = false -> all_slashes (d ++ "/") = false.
Proof.
  induction d as [|c d IH]; [discriminate|]. intros _ He.
  destruct d as [|c2 d2].
  - simpl in *. now rewrite He.
  - change ((String c (String c2 d2)) ++ "/")%string
      with (String c ((String c2 d2) ++ "/"))%string.
    cbn [all_slashes]. rewrite IH; [apply andb_false_r|reflexivity|exact He].
Qed.

(** The directory and the file name of [d/f]. *)
Lemma basename_app d f : no_slash f = true -> basename (d ++ String "/" f) = f.
Proof. intros H. unfold basename. now rewrite rsplit_slash_app. Qed.

Lemma dirname_app d f :
  no_slash f = true -> str_nonempty d = true -> endswith_slash d = false ->
  dirname (d ++ String "/" f) = d.
Proof.
  intros Hf Hd He. unfold dirname. rewrite rsplit_slash_app by assumption. cbn [fst].
  change (d ++ "/")%string with (d ++ String "/" EmptyString)%string.
  rewrite str_nonempty_app_slash.
  change (d ++ String "/" EmptyString)%string with (d ++ "/")%string.
  rewrite all_slashes_app by assumption. cbn [negb andb].
  now apply rstrip_slash_app.
Qed.

Lemma no_slash_app a b : no_slash (a ++ b) = no_slash a && no_slash b.
Proof. induction a as [|c a IH]; simpl; [reflexivity|]. now rewrite IH, andb_assoc. Qed.

Lemma startswith_app p s : startswith (p ++ s) p = true.
Proof.
  unfold startswith. induction p as [|c p IH]; simpl.
  - now destruct s.
  - destruct (ascii_dec c c); [exact IH|congruence].
Qed.

Lemma startswith_refl p : startswith p p = true.
Proof.
  unfold startswith. induction p as [|c p IH]; simpl; [reflexivity|].
  destruct (ascii_dec c c); [exact IH|congruence].
Qed.

Lemma length_app a b : String.length (a ++ b) = String.length a + String.length b.
Proof. induction a as [|c a IH]; simpl; auto. Qed.

Lemma substring_prefix a b : substring 0 (String.length a) (a ++ b) = a.
Proof.
  induction a as [|c a IH]; simpl.
  - now destruct b.
  - now rewrite IH.
Qed.

Lemma drop_last4_xml stem : drop_last4 (stem ++ ".xml") = stem.
Proof.
  unfold drop_last4. rewrite length_app. simpl String.length.
  replace (String.length stem + 4 - 4) with (String.length stem) by lia.
  apply substring_prefix.
Qed.

Lemma endswith_slash_no_slash s : no_slash s = true -> endswith_slash s = false.
Proof.
  induction s as [|c s IH]; simpl; [reflexivity|].
  intros H. apply andb_prop in H. destruct H as [Hc Hs].
  apply negb_true_iff in Hc. destruct s; [exact Hc|auto].
Qed.

Lemma endswith_slash_app d f :
  str_nonempty f = true -> endswith_slash (d ++ f) = endswith_slash f.
Proof.
  intros Hf. induction d as [|c d IH]; simpl; [reflexivity|].
  destruct (d ++ f)%string eqn:Ed; [|exact IH].
  destruct d; simpl in Ed; [subst f|]; discriminate.
Qed.

Lemma os_path_join_plain d f :
  str_nonempty d = true -> endswith_slash d = false -> no_slash f = true ->
  os_path_join d f = (d ++ String "/" f)%string.
Proof.
  intros Hd He Hf. unfold os_path_join.
  assert (Hs : startswith f "/" = false).
  { destruct f as [|c f]; [reflexivity|].
    cbn [no_slash] in Hf. apply andb_prop in Hf. destruct Hf as [Hc _].
    apply negb_true_iff in Hc. unfold is_slash in Hc.
    unfold startswith. cbn [String.prefix].
    destruct (ascii_dec "/"%char c) as [Heq|Hneq]; [|reflexivity].
    subst c. rewrite Ascii.eqb_refl in Hc. discriminate. }
  now rewrite Hs, Hd, He.
Qed.

Lemma dict_del_set_new {V} (n : string) (v : V) (d : Dict V) :
  dict_get n d = None -> dict_del n (dict_set n v d) = d.
Proof.
  unfold dict_del. induction d as [|[k' v'] d IH]; simpl.
  - now rewrite String.eqb_refl.
  - destruct (String.eqb n k') eqn:En; [discriminate|].
    intros H. simpl. rewrite En. simpl. now rewrite IH.
Qed.

(** The loop over the keys finds a new last entry when no earlier one has
    the file name. *)
Lemma find_by_filename_last (d : Dict Obj) (n : string) (x : Obj) :
  dict_get n d = None ->
  (forall y o, dict_get y d = Some o -> filename o <> filename x) ->
  find_by_filename (dict_set n x d) (dict_keys (dict_set n x d)) (filename x) = Some (n, x).
Proof.
  intros Hn Hno. rewrite dict_keys_set_new by assumption.
  assert (Hgen : forall keys,
             (forall y, In y keys -> y <> n) ->
             find_by_filename (dict_set n x d) (keys ++ [n]) (filename x) = Some (n, x)).
  { induction keys as [|y keys IH]; intros Hk; simpl.
    - now rewrite dict_get_set_same, String.eqb_refl.
    - rewrite dict_get_set_other by (apply Hk; now left).
      destruct (dict_get y d) as [o|] eqn:Ey.
      + destruct (String.eqb_spec (filename o) (filename x)) as [Hf|Hf];
          [elim (Hno y o Ey Hf)|].
        apply IH. intros z Hz. apply Hk. now right.
      + apply IH. intros z Hz. apply Hk. now right. }
  apply Hgen. intros y Hy ->.
  apply dict_get_In_keys in Hy. destruct Hy as [v Hv]. congruence.
Qed.

(** X23. Creating an object and then reporting its file as deleted
    brings the registry back: with a custom directory that is not empty
    and does not end in a slash, a name without a slash and no other
    custom object of the file name [name.xml], the object that [new_*]
    returned lies at [os.path.join(path, filename)]; when that path is
    reported and no longer exists, the result is [("remove", object)] and
    the registry is again the one before the creation. *)
Theorem create_then_file_deleted_restores_registry
    (k : Kind) (n : string) (conf : Conf) (s : State) (x : Obj) (s1 : State) (w : World) :
  str_nonempty (ETC_FIREWALLD k) = true ->
  endswith_slash (ETC_FIREWALLD k) = false ->
  no_slash n = true ->
  (forall y o, dict_get y (custom k (self s)) = Some o -> filename o <> (n ++ ".xml")%string) ->
  new_object k n conf s = Return x s1 ->
  let nm := os_path_join (path x) (filename x) in
  os_path_exists nm w = false ->
  nm = (ETC_FIREWALLD k ++ "/" ++ n ++ ".xml")%string /\
  update_object_from_path k nm (mkState (self s1) w) =
    Return (Some "remove", Some x) (mkState (self s) w).
Proof.
  intros Hne Hes Hn Hno Hnew nm Hex.
  destruct (new_object_returns _ _ _ _ _ _ Hnew) as (Hfree & [a Hx] & Hs1).
  assert (Hpath : path x = ETC_FIREWALLD k) by (subst x; reflexivity).
  assert (Hfile : filename x = (n ++ ".xml")%string) by (subst x; reflexivity).
  assert (Hname : name x = n) by (subst x; reflexivity).
  assert (Hnsf : no_slash (n ++ ".xml") = true) by (rewrite no_slash_app, Hn; reflexivity).
  assert (Hnm : nm = (ETC_FIREWALLD k ++ String "/" (n ++ ".xml"))%string).
  { subst nm. rewrite Hpath, Hfile. now apply os_path_join_plain. }
  split; [exact Hnm|].
  destruct (visible_none_mem _ _ _ Hfree) as [Hc Hb].
  assert (Hc' : dict_get n (custom k (self s)) = None).
  { unfold dict_mem in Hc. now destruct (dict_get n (custom k (self s))). }
  assert (Hb' : dict_get n (builtins k (self s)) = None).
  { unfold dict_mem in Hb. now destruct (dict_get n (builtins k (self s))). }
  unfold update_object_from_path, bind, get_world, get_self, modify_self, ret.
  cbn [world self]. rewrite Hex. cbn [negb].
  rewrite Hnm, dirname_app, basename_app by assumption.
  assert (Hcp : is_custom_path k (ETC_FIREWALLD k) = true).
  { unfold is_custom_path. destruct (hierarchical k);
      [apply startswith_refl|apply String.eqb_refl]. }
  rewrite Hcp. cbn [self world]. rewrite Hs1, custom_set_custom, <- Hfile.
  rewrite find_by_filename_last; [|exact Hc'|now rewrite Hfile].
  cbn [self world].
  rewrite !builtins_set_custom, custom_set_custom, Hname, Hb'.
  rewrite set_custom_set_custom, dict_del_set_new by assumption.
  now rewrite set_custom_same.
Qed.

(** X24. A zone or policy file in a subdirectory of the custom directory
    is known by the name [subdirectory/stem]: with a custom directory that
    is not empty and does not end in a slash, and a subdirectory and a
    stem without slashes, the reader is called with the file name
    [stem.xml] and the directory [custom/subdirectory], and when the name
    [subdirectory/stem] is free, the object read is registered under it
    with the result [("new", object)].  The other kinds keep the name the
    reader gave. *)
Theorem update_from_path_combines_subdirectory_name
    (k : Kind) (sub stem : string) (s : State) (read_obj : Obj) :
  str_nonempty (ETC_FIREWALLD k) = true ->
  endswith_slash (ETC_FIREWALLD k) = false ->
  str_nonempty sub = true -> no_slash sub = true -> no_slash stem = true ->
  let dir := (ETC_FIREWALLD k ++ "/" ++ sub)%string in
  let nm := (dir ++ "/" ++ stem ++ ".xml")%string in
  os_path_exists nm (world s) = true ->
  reader k (stem ++ ".xml") dir (world s) = inr read_obj ->
  let obj := if hierarchical k
             then set_name (sub ++ "/" ++ stem) read_obj else read_obj in
  visible k (name obj) (self s) = None ->
  update_object_from_path k nm s =
    Return (Some "new", Some obj) (state_of (add_object k obj s)).
Proof.
  intros Hne Hes Hsub Hns Hnstem dir nm Hex Hr obj Hfree.
  assert (Hnsf : no_slash (stem ++ ".xml") = true)
    by (rewrite no_slash_app, Hnstem; reflexivity).
  assert (Hdir_ne : str_nonempty dir = true).
  { subst dir. now destruct (ETC_FIREWALLD k). }
  assert (Hdir_es : endswith_slash dir = false).
  { subst dir. rewrite endswith_slash_app.
    - change ("/" ++ sub)%string with (String "/" sub).
      destruct sub as [|c sub']; [discriminate|].
      change (endswith_slash (String c sub') = false).
      now apply endswith_slash_no_slash.
    - reflexivity. }
  assert (Hbase : basename nm = (stem ++ ".xml")%string).
  { subst nm. now apply basename_app. }
  assert (Hdirname : dirname nm = dir).
  { subst nm. now apply dirname_app. }
  assert (Hcomb : combined_name k dir (stem ++ ".xml") read_obj = obj).
  { unfold combined_name. subst obj. destruct (hierarchical k); [|reflexivity].
    subst dir. rewrite startswith_app. cbn [andb].
    rewrite length_app.
    assert (Hlt : Nat.ltb (String.length (ETC_FIREWALLD k))
                    (String.length (ETC_FIREWALLD k) + String.length ("/" ++ sub)) = true).
    { apply Nat.ltb_lt. simpl. lia. }
    rewrite Hlt.
    change (ETC_FIREWALLD k ++ "/" ++ sub)%string
      with (ETC_FIREWALLD k ++ String "/" sub)%string.
    rewrite basename_app by assumption.
    unfold basename. rewrite (rsplit_slash_no_slash _ Hnsf). cbn [snd].
    now rewrite drop_last4_xml. }
  destruct (visible_none_mem _ _ _ Hfree) as [Hc Hb].
  unfold update_object_from_path, bind, get_world, get_self, ret.
  rewrite Hex. cbn [negb]. rewrite Hbase, Hdirname, Hr. cbv zeta. rewrite Hcomb.
  now rewrite Hb, Hc.
Qed.
End Facts.

(** ** The registry at work on the concrete environment *)

Lemma get_object_custom_shadows_builtin_witness :
  let s := Demo.state Demo.empty_registry ["/etc/firewalld/ipsets/office.xml"] in
  let s2 := state_of (add_object (E:=Demo.env) Ipsets Demo.office_custom
                        (state_of (add_object Ipsets Demo.office_builtin s))) in
  (builtin Demo.office_builtin = true /\ builtin Demo.office_custom = false) /\
  get_object Ipsets "office" s2 = Return Demo.office_custom s2 /\
  exists s3, remove_object Ipsets Demo.office_custom s2 = Return tt s3 /\
             get_object Ipsets "office" s3 = Return Demo.office_builtin s3.
Proof.
  intros s s2.
  destruct (get_object_custom_shadows_builtin (E:=Demo.env) Ipsets "office" s)
    as (_ & _ & _ & H).
  destruct (H Demo.office_builtin Demo.office_custom eq_refl eq_refl eq_refl eq_refl)
    as [Hget Hrem].
  split; [split; reflexivity|]. split; [exact Hget|].
  eexists. split; [vm_compute; reflexivity|].
  apply Hrem. vm_compute. reflexivity.
Defined.

Lemma new_object_name_conflict_witness :
  let s := Demo.state (Demo.registry Ipsets [] [Demo.office_builtin]) [] in
  dict_mem "office" (builtins (E:=Demo.env) Ipsets (self s)) = true /\
  new_object Ipsets "office" (ConfTuple ["1"; "office"; "ipset"]) s =
    Raise (FirewallError NAME_CONFLICT "new_ipset(): 'office'") s.
Proof.
  intros s. split; [reflexivity|].
  apply (new_object_name_conflict (E:=Demo.env) Ipsets "office" s).
  right. reflexivity.
Defined.

Lemma remove_rename_builtin_protected_witness :
  let s := Demo.state (Demo.registry Ipsets [] [Demo.office_builtin]) [] in
  builtin Demo.office_builtin = true /\
  remove_object (E:=Demo.env) Ipsets Demo.office_builtin s =
    Raise (FirewallError BUILTIN_IPSET "'office' is built-in ipset") s /\
  rename_object (E:=Demo.env) Ipsets Demo.office_builtin "lab" s =
    Raise (FirewallError BUILTIN_IPSET "'office' is built-in ipset") s.
Proof.
  intros s.
  destruct (remove_rename_builtin_protected (E:=Demo.env) Ipsets Demo.office_builtin "lab" s)
    as (H1 & H2 & _); [left; reflexivity|].
  split; [reflexivity|]. split; [exact H1|exact H2].
Defined.

Lemma update_from_path_custom_file_deleted_witness :
  let s := Demo.state (Demo.registry Ipsets [Demo.office_custom] [Demo.office_builtin]) [] in
  let nm := "/etc/firewalld/ipsets/office.xml" in
  (os_path_exists (Env:=Demo.env) nm (world s) = false /\
   is_custom_path (E:=Demo.env) Ipsets (dirname nm) = true /\
   dict_get "office" (custom Ipsets (self s)) = Some Demo.office_custom /\
   filename Demo.office_custom = basename nm) /\
  exists s',
    update_object_from_path Ipsets nm s = Return (Some "update", Some Demo.office_builtin) s' /\
    dict_get "office" (custom Ipsets (self s')) = None /\
    get_object Ipsets "office" s' = Return Demo.office_builtin s'.
Proof.
  intros s nm. split; [repeat split; vm_compute; reflexivity|].
  destruct (update_from_path_custom_file_deleted (E:=Demo.env) Ipsets nm s
              "office" Demo.office_custom)
    as (x & obj & Hx & Hf & Hnone & Hcase); try (vm_compute; reflexivity).
  assert (Hxo : x = "office" /\ obj = Demo.office_custom).
  { change (custom Ipsets (self s)) with [("office", Demo.office_custom)] in Hx.
    cbn [dict_get] in Hx.
    destruct (String.eqb_spec x "office"); [|discriminate].
    injection Hx; auto. }
  destruct Hxo as [-> ->].
  change (dict_get (name Demo.office_custom) (builtins Ipsets (self s)))
    with (Some Demo.office_builtin) in Hcase.
  destruct Hcase as [Hu Hg].
  eexists. split; [exact Hu|]. split; [exact Hnone|].
  apply Hg. intros y o [H|[]]. inversion H. reflexivity.
Defined.

Lemma update_from_path_reader_fails_witness :
  let nm := "/etc/firewalld/ipsets/broken.xml" in
  let s := Demo.state (Demo.registry Ipsets [Demo.office_custom] []) [nm] in
  os_path_exists (Env:=Demo.env) nm (world s) = true /\
  update_object_from_path Ipsets nm s = Return (None, None) s.
Proof.
  intros nm s. split; [reflexivity|].
  apply (update_from_path_reader_fails (E:=Demo.env) Ipsets nm s
           (OtherException "not well-formed")); vm_compute; reflexivity.
Defined.

Lemma full_check_config_merged_in_order_witness :
  let s := Demo.state Demo.empty_registry [] in
  let conf := ConfTuple (E:=Demo.env) ["1"; "invalid"; "ipset"] in
  check_name (Env:=Demo.env) Ipsets "office" = None /\
  new_object Ipsets "office" conf s = Raise (FirewallError (OTHER_CODE 0) "office") s.
Proof.
  intros s conf.
  destruct (full_check_config_merged_in_order (E:=Demo.env) [] s) as (_ & _ & _ & H).
  split; [reflexivity|].
  apply (H Ipsets "office" conf ["1"; "invalid"; "ipset"]); vm_compute; reflexivity.
Defined.

Lemma reset_defaults_replays_in_source_order_witness :
  let s := Demo.zone_ipset_icmptype in
  exists e s1 s2,
    _reset_defaults (E:=Demo.env) s = Raise e s1 /\
    restore_settings_dict (Some (merged (self s))) (_firewalld_conf (self s)) s1 =
      Return tt s2 /\
    reset_defaults s = Raise e s2.
Proof.
  intros s.
  pose proof (proj1 (reset_defaults_replays_in_source_order (E:=Demo.env) s)) as H.
  do 3 eexists.
  split; [vm_compute; reflexivity|]. split; [vm_compute; reflexivity|].
  erewrite H by (vm_compute; reflexivity).
  vm_compute. reflexivity.
Defined.

Lemma update_from_path_custom_keeps_default_witness :
  let nm := "/etc/firewalld/ipsets/office.xml" in
  let s := Demo.state (Demo.registry Ipsets [Demo.office_custom] []) [nm] in
  let read_obj := mkIO Ipsets "office" "office.xml" "/etc/firewalld/ipsets" false false [] in
  (reader (Env:=Demo.env) Ipsets (basename nm) (dirname nm) (world s) = inr read_obj /\
   default read_obj = false /\ default Demo.office_custom = true) /\
  exists stored s',
    update_object_from_path Ipsets nm s = Return (Some "update", Some stored) s' /\
    dict_get "office" (custom Ipsets (self s')) = Some stored /\
    default stored = true.
Proof.
  intros nm s read_obj. split; [repeat split; vm_compute; reflexivity|].
  destruct (update_from_path_custom_keeps_default (E:=Demo.env) Ipsets nm s read_obj
              Demo.office_custom) as (H1 & H2 & H3); try (vm_compute; reflexivity).
  eexists. eexists. split; [exact H1|]. split; [exact H2|exact H3].
Defined.

(** A zone file in a subdirectory of the custom directory is registered
    under the name of the subdirectory and of the file. *)
Example update_zone_from_path_combined :
  update_zone_from_path (E:=Demo.env) "/etc/firewalld/zones/lab/home.xml"
    (Demo.state Demo.empty_registry ["/etc/firewalld/zones/lab/home.xml"]) =
  Return (Some "new",
          Some (mkIO Zones "lab/home" "home.xml" "/etc/firewalld/zones/lab" false false []))
         (mkState (Demo.with_custom Zones
                     [mkIO Zones "lab/home" "home.xml" "/etc/firewalld/zones/lab" false false []]
                     Demo.empty_registry)
                  (Demo.mkWorld ["/etc/firewalld/zones/lab/home.xml"] [])).
Proof. vm_compute. reflexivity. Qed.

Lemma set_config_of_builtin_makes_custom_witness :
  let s := Demo.state (Demo.registry Ipsets [] [Demo.office_builtin]) [] in
  let conf := ConfTuple (E:=Demo.env) ["2"; "Office"; "hosts of the office"] in
  builtin Demo.office_builtin = true /\
  exists x s',
    set_object_config Ipsets Demo.office_builtin conf s = Return x s' /\
    builtin x = false /\ path x = "/etc/firewalld/ipsets" /\ default x = false /\
    dict_get (name x) (custom Ipsets (self s')) = Some x.
Proof.
  intros s conf. split; [reflexivity|].
  destruct (set_config_of_builtin_makes_custom (E:=Demo.env) Ipsets Demo.office_builtin s
              eq_refl) as [Hsound Hlive].
  destruct (Hlive conf ["2"; "Office"; "hosts of the office"]
              (world (state_of (set_object_config (E:=Demo.env) Ipsets Demo.office_builtin conf s))))
    as [s' Hs']; try (vm_compute; reflexivity).
  eexists. exists s'. split; [exact Hs'|].
  destruct (Hsound _ s' (or_introl (ex_intro _ conf Hs'))) as (Hb & Hp & Hd & _ & Hr).
  split; [exact Hb|]. split; [exact Hp|]. split; [|exact Hr].
  apply Hd. vm_compute. discriminate.
Defined.

(** C7, as the specification words it, fails: with a custom zone, a
    custom ipset and a custom icmptype registered and [_reset_defaults]
    failing after it has dropped the zone, the replay writes the icmptype
    before the ipset, where a replay in the order address-sets, helpers,
    ICMP types, ... writes the ipset first. *)
Lemma reset_defaults_not_in_spec_order :
  let s := Demo.zone_ipset_icmptype in
  Demo.journal (world (state_of (reset_defaults (E:=Demo.env) s))) =
    ["/etc/firewalld/icmptypes/ping.xml"; "/etc/firewalld/ipsets/office.xml";
     "/etc/firewalld/zones/home.xml"] /\
  Demo.journal (world (state_of (spec_reset_defaults (E:=Demo.env) s))) =
    ["/etc/firewalld/ipsets/office.xml"; "/etc/firewalld/icmptypes/ping.xml";
     "/etc/firewalld/zones/home.xml"] /\
  reset_defaults (E:=Demo.env) s <> spec_reset_defaults (E:=Demo.env) s.
Proof.
  intros s. split; [vm_compute; reflexivity|]. split; [vm_compute; reflexivity|].
  intros H.
  apply (f_equal (fun o => Demo.journal (world (E:=Demo.env) (state_of o)))) in H.
  vm_compute in H. discriminate H.
Qed.

(** C8 at a failing input.  A custom ipset [office] whose file exists and
    a custom service [web] whose file is missing are registered;
    [_reset_defaults] drops the ipset, then fails on the service.  The
    replay does not create the ipset again: afterwards the list of ipsets
    is empty.  With a custom zone in place of the ipset, the zone is
    created again. *)
Lemma reset_defaults_does_not_recreate_ipset :
  let s := Demo.ipset_then_failing_service in
  get_ipsets (E:=Demo.env) (self s) = ["office"] /\
  (exists s', reset_defaults (E:=Demo.env) s =
              Raise (OtherException "No such file or directory") s' /\
              get_ipsets (self s') = [] /\
              visible Ipsets "office" (self s') = None) /\
  get_zones (E:=Demo.env) (self Demo.zone_then_failing_service) = ["home"] /\
  get_zones (self (state_of (reset_defaults (E:=Demo.env) Demo.zone_then_failing_service))) =
    ["home"].
Proof.
  intros s. split; [vm_compute; reflexivity|]. split.
  - eexists. split; [vm_compute; reflexivity|]. split; vm_compute; reflexivity.
  - split; vm_compute; reflexivity.
Qed.

(** ** The further properties on the concrete environment *)

Lemma update_from_path_unknown_name_is_new_witness :
  let nm := "/etc/firewalld/ipsets/lab.xml" in
  let s := Demo.state Demo.empty_registry [nm] in
  let obj := mkIO Ipsets "lab" "lab.xml" "/etc/firewalld/ipsets" false false [] in
  (os_path_exists (Env:=Demo.env) nm (world s) = true /\
   reader (Env:=Demo.env) Ipsets (basename nm) (dirname nm) (world s) = inr obj /\
   visible Ipsets "lab" (self s) = None) /\
  exists s',
    update_object_from_path Ipsets nm s = Return (Some "new", Some obj) s' /\
    get_objects Ipsets (self s') = ["lab"] /\
    get_object Ipsets "lab" s' = Return obj s'.
Proof.
  intros nm s obj. split; [repeat split; vm_compute; reflexivity|].
  destruct (update_from_path_unknown_name_is_new (E:=Demo.env) Ipsets nm s obj)
    as (H1 & _ & _ & _ & H5); try (vm_compute; reflexivity).
  eexists. split; [exact H1|]. split; [vm_compute; reflexivity|exact H5].
Defined.


Lemma update_from_path_unknown_file_deleted_witness :
  let nm := "/etc/firewalld/ipsets/ghost.xml" in
  let s := Demo.state (Demo.registry Ipsets [Demo.office_custom] []) [] in
  os_path_exists (Env:=Demo.env) nm (world s) = false /\
  get_objects Ipsets (self s) = ["office"] /\
  update_object_from_path Ipsets nm s = Return (None, None) s.
Proof.
  intros nm s. split; [reflexivity|]. split; [vm_compute; reflexivity|].
  apply (update_from_path_unknown_file_deleted (E:=Demo.env) Ipsets nm s);
    [vm_compute; reflexivity|].
  intros x o H.
  change (dict_get x [("office", Demo.office_custom)] = Some o) in H.
  cbn [dict_get] in H.
  destruct (String.eqb x "office"); [|discriminate].
  injection H as <-. vm_compute. discriminate.
Defined.

Lemma update_from_path_builtin_file_changed_witness :
  let nm := "/usr/lib/firewalld/ipsets/office.xml" in
  let s := Demo.state (Demo.registry Ipsets [] [Demo.office_builtin]) [nm] in
  let obj := mkIO Ipsets "office" "office.xml" "/usr/lib/firewalld/ipsets" true true [] in
  (os_path_exists (Env:=Demo.env) nm (world s) = true /\
   reader (Env:=Demo.env) Ipsets (basename nm) (dirname nm) (world s) = inr obj /\
   is_custom_path (E:=Demo.env) Ipsets (dirname nm) = false /\
   dict_get "office" (builtins Ipsets (self s)) = Some Demo.office_builtin) /\
  exists s',
    update_object_from_path Ipsets nm s = Return (Some "update", Some obj) s' /\
    dict_get "office" (builtins Ipsets (self s')) = Some obj /\
    get_object Ipsets "office" s' = Return obj s'.
Proof.
  intros nm s obj. split; [repeat split; vm_compute; reflexivity|].
  destruct (update_from_path_builtin_file_changed (E:=Demo.env) Ipsets nm s obj
              Demo.office_builtin) as (Hreg & Hu & Hg); try (vm_compute; reflexivity).
  eexists. split; [exact Hu|]. split; [exact Hreg|exact Hg].
Defined.

Lemma update_from_path_custom_file_shadowing_builtin_not_stored_witness :
  let nm := "/etc/firewalld/ipsets/office.xml" in
  let s := Demo.state (Demo.registry Ipsets [] [Demo.office_builtin]) [nm] in
  let obj := mkIO Ipsets "office" "office.xml" "/etc/firewalld/ipsets" false false [] in
  (os_path_exists (Env:=Demo.env) nm (world s) = true /\
   reader (Env:=Demo.env) Ipsets (basename nm) (dirname nm) (world s) = inr obj /\
   is_custom_path (E:=Demo.env) Ipsets (dirname nm) = true /\
   dict_get "office" (custom Ipsets (self s)) = None /\
   dict_get "office" (builtins Ipsets (self s)) = Some Demo.office_builtin) /\
  update_object_from_path Ipsets nm s = Return (Some "update", Some obj) s /\
  get_object Ipsets "office" s = Return Demo.office_builtin s.
Proof.
  intros nm s obj. split; [repeat split; vm_compute; reflexivity|].
  apply (update_from_path_custom_file_shadowing_builtin_not_stored (E:=Demo.env)
           Ipsets nm s obj Demo.office_builtin); vm_compute; reflexivity.
Defined.

Lemma remove_object_failure_keeps_registry_witness :
  let s := Demo.state (Demo.registry Ipsets [] [Demo.office_builtin]) [] in
  let moved := mkIO Ipsets "office" "office.xml" "/srv/ipsets" false true [] in
  let s2 := Demo.state (Demo.registry Ipsets [moved] []) ["/srv/ipsets/office.xml"] in
  remove_object (E:=Demo.env) Ipsets Demo.office_custom s =
    Raise (FirewallError INVALID_IPSET "office") s /\
  remove_object (E:=Demo.env) Ipsets moved s2 =
    Raise (FirewallError INVALID_DIRECTORY (invalid_directory_msg Ipsets "/srv/ipsets")) s2.
Proof.
  intros s moved s2. split.
  - apply (remove_object_failure_keeps_registry (E:=Demo.env) Ipsets Demo.office_custom s);
      vm_compute; reflexivity.
  - apply (proj2 (proj2 (remove_object_failure_keeps_registry (E:=Demo.env) Ipsets moved s2))
             moved); vm_compute; reflexivity.
Defined.

Lemma remove_object_backs_up_then_drops_witness :
  let f := "/etc/firewalld/ipsets/office.xml" in
  let c := Demo.registry Ipsets [Demo.office_custom] [] in
  (builtin Demo.office_custom = false /\ default Demo.office_custom = true /\
   dict_get "office" (custom (E:=Demo.env) Ipsets c) = Some Demo.office_custom /\
   is_custom_path (E:=Demo.env) Ipsets (path Demo.office_custom) = true) /\
  remove_object (E:=Demo.env) Ipsets Demo.office_custom (Demo.state c [f]) =
    Return tt (mkState Demo.empty_registry
                 (Demo.mkWorld ["/etc/firewalld/ipsets/office.xml.old"] [])) /\
  remove_object (E:=Demo.env) Ipsets Demo.office_custom (Demo.state c []) =
    Raise (OtherException "No such file or directory") (Demo.state c []).
Proof.
  intros f c. split; [repeat split; vm_compute; reflexivity|]. split.
  - rewrite (remove_object_backs_up_then_drops (E:=Demo.env) Ipsets Demo.office_custom
               Demo.office_custom (Demo.state c [f]));
      vm_compute; reflexivity.
  - rewrite (remove_object_backs_up_then_drops (E:=Demo.env) Ipsets Demo.office_custom
               Demo.office_custom (Demo.state c []));
      vm_compute; reflexivity.
Defined.

Lemma load_object_defaults_reverts_to_builtin_witness :
  let f := "/etc/firewalld/ipsets/office.xml" in
  let s := Demo.wide_state
             (Demo.wide_registry Ipsets [Demo.office_custom] [Demo.office_builtin]) [f] in
  let edited := set_attrs ["2"] Demo.office_custom in
  load_object_defaults (E:=Demo.wide_env) Ipsets edited s =
    Raise (FirewallError NO_DEFAULTS (differs_msg Ipsets "office")) s /\
  exists s',
    load_object_defaults (E:=Demo.wide_env) Ipsets Demo.office_custom s =
      Return Demo.office_builtin s' /\
    get_object (E:=Demo.wide_env) Ipsets "office" s' = Return Demo.office_builtin s'.
Proof.
  intros f s edited.
  destruct (load_object_defaults_reverts_to_builtin (E:=Demo.wide_env) Ipsets edited s)
    as (_ & Hdiff & _).
  destruct (load_object_defaults_reverts_to_builtin (E:=Demo.wide_env) Ipsets
              Demo.office_custom s) as (_ & _ & _ & Hok).
  split; [apply (Hdiff Demo.office_custom); vm_compute; reflexivity|].
  specialize (Hok Demo.office_custom Demo.office_builtin eq_refl eq_refl eq_refl).
  destruct (_remove_object (E:=Demo.wide_env) Ipsets Demo.office_custom s) as [u s'|e s'] eqn:Er;
    [|vm_compute in Er; discriminate Er].
  exists s'. exact Hok.
Defined.

Lemma new_object_registers_removable_custom_witness :
  let s := Demo.state Demo.empty_registry [] in
  let conf := ConfTuple (E:=Demo.env) ["1"; "Lab"; "hosts of the lab"] in
  exists x s',
    new_object (E:=Demo.env) Ipsets "lab" conf s = Return x s' /\
    filename x = "lab.xml" /\ path x = "/etc/firewalld/ipsets" /\
    get_object Ipsets "lab" s' = Return x s' /\
    check_builtin_object Ipsets x s' = Return tt s'.
Proof.
  intros s conf.
  destruct (new_object_registers_removable_custom (E:=Demo.env) Ipsets "lab" conf s)
    as [Hsound Hlive].
  specialize (Hlive ["1"; "Lab"; "hosts of the lab"]
                (Demo.mkWorld ["/etc/firewalld/ipsets/lab.xml"]
                              ["/etc/firewalld/ipsets/lab.xml"])
                eq_refl eq_refl eq_refl eq_refl eq_refl).
  destruct (Hsound _ _ Hlive) as (_ & _ & Hf & Hp & _ & _ & _ & _ & Hg & Hc).
  eexists. eexists. split; [exact Hlive|]. split; [exact Hf|]. split; [exact Hp|].
  split; [exact Hg|exact Hc].
Defined.

Lemma writer_failure_leaves_object_registered_witness :
  let s := Demo.wide_state (Demo.wide_registry Ipsets [] []) [] in
  let conf := ConfTuple (E:=Demo.wide_env) ["1"; "Locked"] in
  exists x s',
    new_object (E:=Demo.wide_env) Ipsets "locked" conf s =
      Raise (OtherException "Permission denied") s' /\
    world s' = world s /\
    get_object (E:=Demo.wide_env) Ipsets "locked" s' = Return x s'.
Proof.
  intros s conf.
  destruct (writer_failure_leaves_object_registered (E:=Demo.wide_env) Ipsets conf s)
    as [Hnew _].
  destruct (Hnew "locked" ["1"; "Locked"] (OtherException "Permission denied") (world s))
    as (s' & H1 & H2 & H3); try (vm_compute; reflexivity).
  eexists. exists s'. split; [exact H1|]. split; [exact H2|exact H3].
Defined.


Lemma config_tuple_round_trip_witness :
  let zone := mkIO Zones "work" "work.xml" "/etc/firewalld/zones" false true
                   ["1"; "Work"; "the office"] in
  let s := Demo.wide_state (Demo.wide_registry Zones [zone] []) [] in
  get_service_config (E:=Demo.env) Demo.attribute Demo.web_custom = inl IndexError /\
  exists t d,
    get_zone_config (E:=Demo.wide_env) Demo.attribute zone = inr t /\
    nth_error t 1 = Some "Work" /\ nth_error t 4 = Some "attribute target" /\
    set_zone_config (E:=Demo.wide_env) zone t s =
      set_zone_config_dict (E:=Demo.wide_env) zone d s /\
    dict_get "short" d = Some "Work" /\ dict_get "target" d = Some "attribute target".
Proof.
  intros zone s.
  destruct (config_tuple_round_trip (E:=Demo.env) Demo.attribute Demo.web_custom
              (Demo.state Demo.empty_registry [])) as (Hshort & _).
  destruct (config_tuple_round_trip (E:=Demo.wide_env) Demo.attribute zone s)
    as (_ & _ & _ & Hzone).
  split; [apply Hshort; vm_compute; lia|].
  destruct Hzone as (t & d & Hget & _ & Hnth & Hset & Hd); [vm_compute; lia|].
  assert (Hnd : NoDup (IMPORT_EXPORT_STRUCTURE (Env:=Demo.wide_env) (kind zone))).
  { repeat constructor; simpl; intuition discriminate. }
  exists t, d. split; [exact Hget|].
  split; [apply (Hnth 1 "short"); [lia|reflexivity]|].
  split; [apply (Hnth 4 "target"); [lia|reflexivity]|].
  split; [exact Hset|].
  split; [apply (Hd Hnd 1 "short"); [lia|reflexivity]
         |apply (Hd Hnd 4 "target"); [lia|reflexivity]].
Defined.

Lemma reset_defaults_leaves_only_builtins_witness :
  let s := Demo.state (Demo.registry Ipsets [Demo.office_custom] [Demo.office_builtin])
                      ["/etc/firewalld/ipsets/office.xml"] in
  exists s',
    reset_defaults (E:=Demo.env) s = Return tt s' /\
    custom Ipsets (self s') = [] /\
    get_object Ipsets "office" s' = Return Demo.office_builtin s' /\
    get_objects Ipsets (self s') = ["office"].
Proof.
  intros s.
  assert (H : reset_defaults (E:=Demo.env) s =
              Return tt (state_of (reset_defaults (E:=Demo.env) s)))
    by (vm_compute; reflexivity).
  destruct (reset_defaults_leaves_only_builtins (E:=Demo.env) s _ H) as (Hc & Hg & Hl).
  eexists. split; [exact H|]. split; [apply Hc|].
  split; [exact (Hg Ipsets "office")|exact (Hl Ipsets)].
Defined.

Lemma rename_copies_then_removes_witness :
  let c := Demo.registry Ipsets [Demo.office_custom] [] in
  let s := Demo.state c ["/etc/firewalld/ipsets/office.xml"] in
  let missing := Demo.state c [] in
  (Ipsets <> Zones /\ builtin Demo.office_custom = false /\
   default Demo.office_custom = true) /\
  rename_object (E:=Demo.env) Ipsets Demo.office_custom "office" s =
    Raise (FirewallError NAME_CONFLICT (name_conflict_msg Ipsets "office")) s /\
  (exists x s2,
      rename_object (E:=Demo.env) Ipsets Demo.office_custom "lab" s = Return x s2 /\
      get_objects Ipsets (self s2) = ["lab"] /\
      get_object Ipsets "lab" s2 = Return x s2) /\
  (exists e s2,
      rename_object (E:=Demo.env) Ipsets Demo.office_custom "lab" missing = Raise e s2 /\
      get_objects Ipsets (self s2) = ["lab"; "office"]).
Proof.
  intros c s missing.
  assert (Hk : Ipsets <> Zones) by discriminate.
  split; [split; [exact Hk|split; reflexivity]|].
  split; [|split].
  - apply (proj1 (rename_copies_then_removes (E:=Demo.env) Ipsets Demo.office_custom
                    "office" s Hk eq_refl eq_refl)).
    vm_compute. discriminate.
  - destruct (rename_copies_then_removes (E:=Demo.env) Ipsets Demo.office_custom "lab" s
                Hk eq_refl eq_refl) as [_ H].
    destruct (new_object (E:=Demo.env) Ipsets "lab" (copy_conf (E:=Demo.env) Ipsets Demo.office_custom) s)
      as [x s1|e s1] eqn:En; [|vm_compute in En; discriminate En].
    destruct (_remove_object (E:=Demo.env) Ipsets Demo.office_custom s1)
      as [u s2|e s2] eqn:Er.
    + destruct H as (Hr & _ & Hg).
      exists x, s2. split; [exact Hr|]. split; [|apply Hg; vm_compute; discriminate].
      vm_compute in En. injection En as <- <-. vm_compute in Er. injection Er as <- <-.
      vm_compute. reflexivity.
    + vm_compute in En. injection En as <- <-. vm_compute in Er. discriminate Er.
  - destruct (rename_copies_then_removes (E:=Demo.env) Ipsets Demo.office_custom "lab" missing
                Hk eq_refl eq_refl) as [_ H].
    destruct (new_object (E:=Demo.env) Ipsets "lab" (copy_conf (E:=Demo.env) Ipsets Demo.office_custom)
                missing) as [x s1|e s1] eqn:En; [|vm_compute in En; discriminate En].
    destruct (_remove_object (E:=Demo.env) Ipsets Demo.office_custom s1)
      as [u s2|e s2] eqn:Er.
    + vm_compute in En. injection En as <- <-. vm_compute in Er. discriminate Er.
    + destruct H as (Hr & _).
      exists e, s2. split; [exact Hr|].
      vm_compute in En. injection En as <- <-. vm_compute in Er. injection Er as <- <-.
      vm_compute. reflexivity.
Defined.

Lemma rename_zone_removes_then_creates_witness :
  let c := Demo.registry Zones [Demo.home_custom; Demo.work_custom] [] in
  let s := Demo.state c ["/etc/firewalld/zones/home.xml"] in
  (builtin Demo.home_custom = false /\ default Demo.home_custom = true) /\
  (exists x s2,
      rename_zone (E:=Demo.env) Demo.home_custom "lab" s = Return x s2 /\
      get_zones (self s2) = ["lab"; "work"]) /\
  (exists x0 s3,
      rename_zone (E:=Demo.env) Demo.home_custom "work" s =
        Raise (FirewallError NAME_CONFLICT (name_conflict_msg Zones "work")) s3 /\
      get_zone "home" s3 = Return x0 s3 /\
      get_zones (self s3) = ["home"; "work"]).
Proof.
  intros c s. split; [split; reflexivity|]. split.
  - pose proof (rename_zone_removes_then_creates (E:=Demo.env) Demo.home_custom "lab" s
                  eq_refl eq_refl) as H.
    destruct (_remove_object (E:=Demo.env) Zones Demo.home_custom s)
      as [u s1|e s1] eqn:Er; [|vm_compute in Er; discriminate Er].
    destruct H as [_ H].
    destruct (new_zone_dict (E:=Demo.env) "lab" (export_config_dict (Env:=Demo.env) Demo.home_custom) s1)
      as [x s2|e s2] eqn:En.
    + exists x, s2. split; [apply H|].
      vm_compute in Er. injection Er as <- <-. vm_compute in En. injection En as <- <-.
      vm_compute. reflexivity.
    + vm_compute in Er. injection Er as <- <-. vm_compute in En. discriminate En.
  - pose proof (rename_zone_removes_then_creates (E:=Demo.env) Demo.home_custom "work" s
                  eq_refl eq_refl) as H.
    destruct (_remove_object (E:=Demo.env) Zones Demo.home_custom s)
      as [u s1|e s1] eqn:Er; [|vm_compute in Er; discriminate Er].
    destruct H as [_ H].
    destruct (new_zone_dict (E:=Demo.env) "work" (export_config_dict (Env:=Demo.env) Demo.home_custom) s1)
      as [x s2|e s2] eqn:En.
    + vm_compute in Er. injection Er as <- <-. vm_compute in En. discriminate En.
    + match type of H with
      | match ?m with Return _ _ => _ | Raise _ _ => _ end =>
          destruct m as [x0 s3|e' s3] eqn:En2
      end.
      * destruct H as (Hr & Hg & _).
        vm_compute in Er. injection Er as <- <-. vm_compute in En. injection En as <- <-.
        exists x0, s3. split; [exact Hr|]. split; [exact Hg|].
        vm_compute in En2. injection En2 as <- <-. vm_compute. reflexivity.
      * vm_compute in Er. injection Er as <- <-. vm_compute in En. injection En as <- <-.
        vm_compute in En2. discriminate En2.
Defined.

Lemma create_then_file_deleted_restores_registry_witness :
  let s := Demo.state (Demo.registry Ipsets [Demo.office_custom] []) [] in
  let conf := ConfTuple (E:=Demo.env) ["1"; "Lab"; "hosts of the lab"] in
  exists x s1,
    new_object (E:=Demo.env) Ipsets "lab" conf s = Return x s1 /\
    get_objects Ipsets (self s1) = ["lab"; "office"] /\
    update_object_from_path Ipsets "/etc/firewalld/ipsets/lab.xml"
      (mkState (self s1) Demo.empty_world) =
    Return (Some "remove", Some x) (mkState (self s) Demo.empty_world).
Proof.
  intros s conf.
  assert (Hn : new_object (E:=Demo.env) Ipsets "lab" conf s =
               Return (mkIO Ipsets "lab" "lab.xml" "/etc/firewalld/ipsets" false true
                            ["1"; "Lab"; "hosts of the lab"])
                      (state_of (new_object (E:=Demo.env) Ipsets "lab" conf s)))
    by (vm_compute; reflexivity).
  assert (Hfree : forall y o,
             dict_get y (custom (E:=Demo.env) Ipsets (self s)) = Some o ->
             filename o <> "lab.xml").
  { intros y o H.
    change (dict_get y [("office", Demo.office_custom)] = Some o) in H.
    cbn [dict_get] in H.
    destruct (String.eqb y "office"); [|discriminate].
    injection H as <-. vm_compute. discriminate. }
  destruct (create_then_file_deleted_restores_registry (E:=Demo.env) Ipsets "lab" conf s
              _ _ Demo.empty_world eq_refl eq_refl eq_refl Hfree Hn eq_refl) as [_ Hu].
  eexists. eexists. split; [exact Hn|]. split; [vm_compute; reflexivity|exact Hu].
Defined.

Lemma update_from_path_combines_subdirectory_name_witness :
  let nm := "/etc/firewalld/zones/lab/home.xml" in
  let s := Demo.state Demo.empty_registry [nm] in
  let obj := mkIO Zones "lab/home" "home.xml" "/etc/firewalld/zones/lab" false false [] in
  (os_path_exists (Env:=Demo.env) nm (world s) = true /\
   reader (Env:=Demo.env) Zones "home.xml" "/etc/firewalld/zones/lab" (world s) =
     inr (set_name "home" obj)) /\
  update_object_from_path Zones nm s =
    Return (Some "new", Some obj) (state_of (add_object Zones obj s)).
Proof.
  intros nm s obj. split; [split; vm_compute; reflexivity|].
  apply (update_from_path_combines_subdirectory_name (E:=Demo.env) Zones "lab" "home" s
           (set_name "home" obj)); vm_compute; reflexivity.
Defined.
